(** * Placeholder engine of the Lexsy document assistant: a shallow embedding

  This development embeds, function by function, the parts of the
  backend that decide how placeholders are detected, validated, filled
  and rendered:

  - [backend/services/ai_service.py]: [_validate_placeholder_value],
    [_normalize_field_name], the next-pointer part of [process_message],
    [get_greeting_message];
  - [backend/app.py]: [allowed_file], the end of [upload_document],
    [chat], [edit_field], [fill_field_directly], [complete_document];
  - [backend/services/placeholder_detector.py]: [_identify_placeholder_type],
    [_smart_deduplicate], [_filter_placeholders],
    [_generate_normalized_key], [_generate_placeholder_key],
    [_extract_context], [validate_placeholder_format],
    [group_related_placeholders];
  - [backend/services/document_processor.py]: the per-paragraph and
    per-cell substitution loops of [generate_preview] and
    [generate_final_document], [_escape_html];
  - [backend/services/session_manager.py]: the in-memory store, with
    [get_session], [save_session], [delete_session], [add_history],
    [get_session_history], [get_all_sessions];
  - [backend/services/firebase_auth.py]: [get_token_from_request].

  Conventions.  A Python [str] is a Rocq [string], read as a sequence of
  code points below 256.  White space, the digit classes, the word class
  of the regular expressions and [lower] are those of Python on these
  code points; [upper] and [title], whose results can leave the range,
  act on ASCII letters.  The fixed texts of the code (messages, the
  greeting) hold a character outside the range as its UTF-8 bytes; no
  operation looks inside them.  A Python [dict] with string keys is a
  [gmap string _].  A Python [float] is a binary64 [spec_float]
  ([prec = 53], [emax = 1024]), computed with exact integer arithmetic.
  An exception that the source lets escape is an explicit constructor of
  the result type. *)

From Stdlib Require Import ZArith Ascii String List Bool Lia.
From Stdlib Require Import Floats.SpecFloat Numbers.DecimalString.
From Stdlib Require Import Numbers.DecimalN Numbers.DecimalPos.
From stdpp Require Import base gmap strings list fin_maps.

Local Open Scope string_scope.

(** ** Python string primitives *)

Module PyStr.

Definition nl : string := String (ascii_of_nat 10) "".

(** [c.isspace()], which is also the regular-expression class [\s], on
    a code point below 256: the ASCII white space, the separators 28 to
    31, NEL (U+0085) and the no-break space (U+00A0). *)
Definition isspace (c : ascii) : bool :=
  let n := nat_of_ascii c in
  (((9 <=? n) && (n <=? 13)) || ((28 <=? n) && (n <=? 32)) ||
   (n =? 133) || (n =? 160))%nat.

(** [c.isdecimal()], which is also the class [\d] and the digits that
    [float] and [int] read: below 256 these are 0 to 9. *)
Definition isdecimal (c : ascii) : bool :=
  let n := nat_of_ascii c in ((48 <=? n) && (n <=? 57))%nat.

(** [c.isdigit()]: the decimal digits and the superscripts two, three
    and one (U+00B2, U+00B3, U+00B9). *)
Definition isdigit (c : ascii) : bool :=
  let n := nat_of_ascii c in
  (isdecimal c || (n =? 178) || (n =? 179) || (n =? 185))%nat.

(** The ranges [A-Z], [a-z], [a-zA-Z] and [a-zA-Z0-9] of the regular
    expressions. *)
Definition isupper_c (c : ascii) : bool :=
  let n := nat_of_ascii c in ((65 <=? n) && (n <=? 90))%nat.

Definition islower_c (c : ascii) : bool :=
  let n := nat_of_ascii c in ((97 <=? n) && (n <=? 122))%nat.

Definition isalpha (c : ascii) : bool := isupper_c c || islower_c c.

Definition isalnum (c : ascii) : bool := isalpha c || isdecimal c.

(** The regular-expression class [\w] on a code point below 256: what
    [str.isalnum] accepts, and the underscore. *)
Definition isword (c : ascii) : bool :=
  let n := nat_of_ascii c in
  (isalnum c || (n =? 95) || (n =? 170) || (n =? 178) || (n =? 179) ||
   (n =? 181) || (n =? 185) || (n =? 186) || ((188 <=? n) && (n <=? 190)) ||
   ((192 <=? n) && (n <=? 214)) || ((216 <=? n) && (n <=? 246)) ||
   (248 <=? n))%nat.

(** [c.lower()]: the letters A to Z and the capital letters of Latin-1
    (U+00C0 to U+00DE but the multiplication sign) move up by 32. *)
Definition lower_c (c : ascii) : ascii :=
  let n := nat_of_ascii c in
  if (isupper_c c || ((192 <=? n) && (n <=? 214)) || ((216 <=? n) && (n <=? 222)))%nat
  then ascii_of_nat (n + 32) else c.

(** [c.upper()] on an ASCII letter.  On the other letters below 256
    Python's result can leave the range (U+00FF, U+00B5) or be two
    letters (U+00DF); [upper] and [title] agree with Python on texts
    whose letters are ASCII. *)
Definition upper_c (c : ascii) : ascii :=
  if islower_c c then ascii_of_nat (nat_of_ascii c - 32) else c.

Fixpoint map (f : ascii -> ascii) (s : string) : string :=
  match s with
  | "" => ""
  | String c s' => String (f c) (map f s')
  end.

Fixpoint filter (f : ascii -> bool) (s : string) : string :=
  match s with
  | "" => ""
  | String c s' => if f c then String c (filter f s') else filter f s'
  end.

Fixpoint forallb (f : ascii -> bool) (s : string) : bool :=
  match s with
  | "" => true
  | String c s' => f c && forallb f s'
  end.

Fixpoint existsb (f : ascii -> bool) (s : string) : bool :=
  match s with
  | "" => false
  | String c s' => f c || existsb f s'
  end.

(** [s.lower()], [s.upper()] *)
Definition lower : string -> string := map lower_c.
Definition upper : string -> string := map upper_c.

Fixpoint drop (n : nat) (s : string) : string :=
  match n, s with
  | O, _ => s
  | S n', String _ s' => drop n' s'
  | S _, "" => ""
  end.

Fixpoint take (n : nat) (s : string) : string :=
  match n, s with
  | O, _ => ""
  | S n', String c s' => String c (take n' s')
  | S _, "" => ""
  end.

(** [s.startswith(p)] *)
Fixpoint startswith (s p : string) {struct p} : bool :=
  match p, s with
  | "", _ => true
  | String a p', String b s' => Ascii.eqb a b && startswith s' p'
  | String _ _, "" => false
  end.

(** [sub in s] *)
Fixpoint contains (sub s : string) : bool :=
  startswith s sub ||
  match s with
  | "" => false
  | String _ s' => contains sub s'
  end.

(** [any(x in s for x in xs)] *)
Definition contains_any (xs : list string) (s : string) : bool :=
  List.existsb (fun x => contains x s) xs.

Fixpoint lstrip (s : string) : string :=
  match s with
  | String c s' => if isspace c then lstrip s' else s
  | "" => ""
  end.

Fixpoint rstrip (s : string) : string :=
  match s with
  | "" => ""
  | String c s' =>
      match rstrip s' with
      | "" => if isspace c then "" else String c ""
      | r => String c r
      end
  end.

(** [s.strip()] *)
Definition strip (s : string) : string := rstrip (lstrip s).

(** [s.split()]: maximal runs of non-whitespace characters. *)
Fixpoint split_go (cur : string) (s : string) : list string :=
  match s with
  | "" => match cur with "" => [] | _ => [String.rev cur] end
  | String c s' =>
      if isspace c
      then match cur with
           | "" => split_go "" s'
           | _ => String.rev cur :: split_go "" s'
           end
      else split_go (String c cur) s'
  end.

Definition split (s : string) : list string := split_go "" s.

(** [sep.join(xs)] *)
Fixpoint join (sep : string) (xs : list string) : string :=
  match xs with
  | [] => ""
  | [x] => x
  | x :: rest => x ++ sep ++ join sep rest
  end.

(** [' '.join(s.split())] *)
Definition normalize_ws (s : string) : string := join " " (split s).

(** [s.replace(old, new, 1)] *)
Fixpoint replace_first_ne (old new s : string) : string :=
  if startswith s old then new ++ drop (String.length old) s
  else match s with
       | "" => ""
       | String c s' => String c (replace_first_ne old new s')
       end.

Definition replace_first (old new s : string) : string :=
  replace_first_ne old new s.

(** [s.replace(old, new)]; [skip] counts the characters of a match that
    are still to be consumed. *)
Fixpoint replace_all_go (old new s : string) (skip : nat) : string :=
  match s with
  | "" => ""
  | String c s' =>
      match skip with
      | S k => replace_all_go old new s' k
      | O =>
          if startswith s old
          then new ++ replace_all_go old new s' (String.length old - 1)
          else String c (replace_all_go old new s' 0)
      end
  end.

Fixpoint intersperse (new s : string) : string :=
  match s with
  | "" => new
  | String c s' => new ++ String c (intersperse new s')
  end.

Definition replace_all (old new s : string) : string :=
  match old with
  | "" => intersperse new s
  | _ => replace_all_go old new s 0
  end.

(** [s.title()]: a letter is upper-cased after a non-letter and
    lower-cased after a letter. *)
Fixpoint title_go (prev_cased : bool) (s : string) : string :=
  match s with
  | "" => ""
  | String c s' =>
      if isalpha c
      then String (if prev_cased then lower_c c else upper_c c) (title_go true s')
      else String c (title_go false s')
  end.

Definition title (s : string) : string := title_go false s.

(** [s.isdigit()] *)
Definition str_isdigit (s : string) : bool :=
  match s with "" => false | _ => forallb isdigit s end.

Fixpoint repeat (c : ascii) (n : nat) : string :=
  match n with O => "" | S k => String c (repeat c k) end.

End PyStr.


(** ** Python numbers

  [float] is IEEE-754 binary64.  Conversions from and to decimal text are
  correctly rounded, as CPython's [_Py_dg_strtod] and [_Py_dg_dtoa] are;
  they are computed here on exact integers. *)

Inductive py_exn := ValueError | OverflowError.

Module PyFloat.

Local Open Scope Z_scope.

Definition prec : Z := 53.
Definition emax : Z := 1024.

Definition pinf : spec_float := S754_infinity false.
Definition ninf : spec_float := S754_infinity true.

(** [float(z)] for an integer [z] *)
Definition of_Z (z : Z) : spec_float := binary_normalize prec emax z 0 false.

(** Correctly rounded quotient [a / b] of two positive integers
    (also Python's [a / b] on [int]). *)
Definition div_pos (s : bool) (a b : positive) : spec_float :=
  let '(mz, ez, lz) := SFdiv_core_binary prec emax (Zpos a) 0 (Zpos b) 0 in
  binary_round_aux prec emax s mz ez lz.

Definition int_truediv (a b : Z) : spec_float :=
  match a, b with
  | Z0, _ => S754_zero false
  | Zpos p, Zpos q => div_pos false p q
  | Zneg p, Zpos q => div_pos true p q
  | Zpos p, Zneg q => div_pos true p q
  | Zneg p, Zneg q => div_pos false p q
  | _, Z0 => S754_nan
  end.

(** The float nearest to [(-1)^s * m * 10^e]. *)
Definition of_decimal (s : bool) (m e : Z) : spec_float :=
  match m with
  | Zpos p =>
      if 0 <=? e
      then binary_round prec emax s (p * Z.to_pos (10 ^ e)) 0
      else div_pos s p (Z.to_pos (10 ^ (- e)))
  | _ => S754_zero s
  end.

Definition mul : spec_float -> spec_float -> spec_float := SFmul prec emax.
Definition leb : spec_float -> spec_float -> bool := SFleb.
Definition ltb : spec_float -> spec_float -> bool := SFltb.

(** *** Parsing: [float(s)] *)

Fixpoint span_digits (s : string) : string * string :=
  match s with
  | String c s' =>
      if PyStr.isdecimal c
      then let '(d, r) := span_digits s' in (String c d, r)
      else ("", s)
  | EmptyString => ("", "")
  end.

Definition digit_val (c : ascii) : Z := Z.of_nat (nat_of_ascii c) - 48.

Fixpoint digits_val_go (acc : Z) (s : string) : Z :=
  match s with
  | String c s' => digits_val_go (10 * acc + digit_val c) s'
  | EmptyString => acc
  end.

Definition digits_val (s : string) : Z := digits_val_go 0 s.

Definition take_sign (s : string) : bool * string :=
  match s with
  | String "-" r => (true, r)
  | String "+" r => (false, r)
  | _ => (false, s)
  end.

(** Underscores may only stand between two digits; they are dropped. *)
Fixpoint drop_underscores (prev : ascii) (s : string) : option string :=
  match s with
  | EmptyString => if Ascii.eqb prev "_" then None else Some ""
  | String c s' =>
      if Ascii.eqb c "_"
      then if PyStr.isdecimal prev then drop_underscores c s' else None
      else if Ascii.eqb prev "_" && negb (PyStr.isdecimal c) then None
      else option_map (String c) (drop_underscores c s')
  end.

Definition is_exp_char (c : ascii) : bool :=
  Ascii.eqb c "e" || Ascii.eqb c "E".

(** Mantissa and decimal exponent of [digits [. digits] [e [sign] digits]]. *)
Definition parse_decimal (s : string) : option (Z * Z) :=
  let '(ip, r1) := span_digits s in
  let '(fp, r2) :=
    match r1 with
    | String "." r => span_digits r
    | _ => ("", r1)
    end in
  if (String.length ip + String.length fp =? 0)%nat then None
  else
    let m := digits_val (ip +:+ fp) in
    let fl := Z.of_nat (String.length fp) in
    match r2 with
    | EmptyString => Some (m, - fl)
    | String c r3 =>
        if is_exp_char c then
          let '(es, r4) := take_sign r3 in
          let '(ed, r5) := span_digits r4 in
          match ed, r5 with
          | String _ _, EmptyString =>
              Some (m, (if es then - digits_val ed else digits_val ed) - fl)
          | _, _ => None
          end
        else None
    end.

Definition parse_body (s : string) : option spec_float :=
  let '(sg, r) := take_sign s in
  let low := PyStr.lower r in
  if String.eqb low "inf" || String.eqb low "infinity" then Some (S754_infinity sg)
  else if String.eqb low "nan" then Some S754_nan
  else match parse_decimal r with
       | Some (m, e) => Some (of_decimal sg m e)
       | None => None
       end.

(** [float(s)]; [None] is [ValueError]. *)
Definition of_string (s : string) : option spec_float :=
  if PyStr.contains "_" s
  then match drop_underscores "000" s with
       | Some t => parse_body (PyStr.strip t)
       | None => None
       end
  else parse_body (PyStr.strip s).

(** *** Conversion to integers *)

(** [int(x)]: truncation towards zero. *)
Definition to_int (x : spec_float) : py_exn + Z :=
  match x with
  | S754_zero _ => inr 0
  | S754_infinity _ => inl OverflowError
  | S754_nan => inl ValueError
  | S754_finite s m e =>
      let a := if 0 <=? e then Zpos m * 2 ^ e else Zpos m / 2 ^ (- e) in
      inr (if s then - a else a)
  end.

(** [x == z] for a float [x] and an integer [z]: exact comparison. *)
Definition eq_int (x : spec_float) (z : Z) : bool :=
  match x with
  | S754_zero _ => z =? 0
  | S754_finite s m e =>
      let v := if s then Zneg m else Zpos m in
      if 0 <=? e then v * 2 ^ e =? z else v =? z * 2 ^ (- e)
  | _ => false
  end.

(** *** Decimal output *)

Definition dec_of_Z (z : Z) : string :=
  NilZero.string_of_uint (N.to_uint (Z.to_N z)).

(** Exact value [num / den] of the magnitude of a finite float. *)
Definition exact (m : positive) (e : Z) : Z * Z :=
  if 0 <=? e then (Zpos m * 2 ^ e, 1) else (Zpos m, 2 ^ (- e)).

Definition round_half_even (a b : Z) : Z :=
  let q := a / b in
  match (2 * (a mod b)) ?= b with
  | Lt => q
  | Gt => q + 1
  | Eq => if Z.even q then q else q + 1
  end.

Fixpoint group3_go (n : nat) (s : string) : string :=
  match s with
  | EmptyString => ""
  | String c s' =>
      match n with
      | O => String "," (String c (group3_go 2 s'))
      | S k => String c (group3_go k s')
      end
  end.

(** Thousands separators, as the [','] format option inserts them. *)
Definition group3 (digits : string) : string :=
  String.rev (group3_go 3 (String.rev digits)).

Definition pad_zeros (n : nat) (s : string) : string :=
  (PyStr.repeat "0" (n - String.length s) +:+ s).

(** [format(x, '.<p>f')], or [format(x, ',.<p>f')] when [grouped]. *)
Definition format_fixed (grouped : bool) (p : nat) (x : spec_float) : string :=
  let body (q : Z) : string :=
    let ds := pad_zeros (S p) (dec_of_Z q) in
    let il := (String.length ds - p)%nat in
    let ip := PyStr.take il ds in
    let ip := if grouped then group3 ip else ip in
    match p with
    | O => ip
    | _ => (ip +:+ "." +:+ PyStr.drop il ds)
    end in
  match x with
  | S754_nan => "nan"
  | S754_infinity s => ((if s then "-" else "") +:+ "inf")
  | S754_zero s => ((if s then "-" else "") +:+ body 0)
  | S754_finite s m e =>
      let '(num, den) := exact m e in
      ((if s then "-" else "") +:+
       body (round_half_even (num * 10 ^ Z.of_nat p) den))
  end.

(** [format(z, ',')] for an integer *)
Definition format_int_grouped (z : Z) : string :=
  ((if z <? 0 then "-" else "") +:+ group3 (dec_of_Z (Z.abs z))).

(** [str(z)] for an integer *)
Definition str_int (z : Z) : string :=
  ((if z <? 0 then "-" else "") +:+ dec_of_Z (Z.abs z)).

(** Least [j >= start] with [den <= num * 10^j]. *)
Fixpoint first_scale (fuel : nat) (num den j : Z) : Z :=
  match fuel with
  | O => j
  | S k => if den <=? num * 10 ^ j then j else first_scale k num den (j + 1)
  end.

(** The [k] with [10^(k-1) <= num/den < 10^k]. *)
Definition decpt_of (num den : Z) : Z :=
  if den <=? num
  then Z.of_nat (String.length (dec_of_Z (num / den)))
  else 1 - first_scale (S (Z.to_nat (Z.log2 den))) num den 1.

Fixpoint strip_trailing_zeros (s : string) : string :=
  match s with
  | EmptyString => ""
  | String c s' =>
      match strip_trailing_zeros s' with
      | EmptyString => if Ascii.eqb c "0" then "" else String c ""
      | r => String c r
      end
  end.

Definition same_float (x y : spec_float) : bool :=
  match x, y with
  | S754_finite s m e, S754_finite s' m' e' =>
      Bool.eqb s s' && (m =? m')%positive && (e =? e')
  | _, _ => false
  end.

(** The [n]-digit decimal nearest to the float that reads back as the
    float itself, if there is one: its digits and decimal point. *)
Definition try_digits (s : bool) (m : positive) (e : Z) (k : Z) (n : Z)
  : option (Z * Z) :=
  let '(num, den) := exact m e in
  let a := if 0 <=? n - k then num * 10 ^ (n - k) else num in
  let b := if 0 <=? n - k then den else den * 10 ^ (k - n) in
  let lo := a / b in
  let r := a mod b in
  let x := S754_finite s m e in
  let ok d := same_float (of_decimal s d (k - n)) x in
  if r =? 0 then (if ok lo then Some (lo, k - n) else None)
  else
    let hi := lo + 1 in
    match ok lo, ok hi with
    | true, true =>
        match (2 * r) ?= b with
        | Lt => Some (lo, k - n)
        | Gt => Some (hi, k - n)
        | Eq => Some (if Z.even lo then lo else hi, k - n)
        end
    | true, false => Some (lo, k - n)
    | false, true => Some (hi, k - n)
    | false, false => None
    end.

Fixpoint shortest_go (fuel : nat) (s : bool) (m : positive) (e k n : Z)
  : Z * Z :=
  match fuel with
  | O =>
      let '(num, den) := exact m e in
      let a := if 0 <=? n - k then num * 10 ^ (n - k) else num in
      let b := if 0 <=? n - k then den else den * 10 ^ (k - n) in
      (round_half_even a b, k - n)
  | S f =>
      match try_digits s m e k n with
      | Some r => r
      | None => shortest_go f s m e k (n + 1)
      end
  end.

(** Shortest digit string that reads back as the float, and the position
    [decpt] of its decimal point (value [0.d1d2... * 10^decpt]). *)
Definition shortest (s : bool) (m : positive) (e : Z) : string * Z :=
  let '(num, den) := exact m e in
  let k := decpt_of num den in
  let '(d, ex) := shortest_go 16 s m e k 1 in
  let ds := dec_of_Z d in
  (strip_trailing_zeros ds, ex + Z.of_nat (String.length ds)).

Definition exp_text (x : Z) : string :=
  ((if x <? 0 then "-" else "+") +:+ pad_zeros 2 (dec_of_Z (Z.abs x))).

(** [repr(x)], which is also [str(x)] and [format(x, '')]. *)
Definition repr (x : spec_float) : string :=
  match x with
  | S754_nan => "nan"
  | S754_infinity s => ((if s then "-" else "") +:+ "inf")
  | S754_zero s => ((if s then "-" else "") +:+ "0.0")
  | S754_finite s m e =>
      let '(ds, decpt) := shortest s m e in
      let nd := Z.of_nat (String.length ds) in
      let sign := (if s then "-" else "") in
      if (decpt <=? -4) || (16 <? decpt) then
        (sign +:+ PyStr.take 1 ds +:+
         (if 1 <? nd then "." +:+ PyStr.drop 1 ds else "") +:+
         "e" +:+ exp_text (decpt - 1))
      else if decpt <=? 0 then
        (sign +:+ "0." +:+ PyStr.repeat "0" (Z.to_nat (- decpt)) +:+ ds)
      else if nd <=? decpt then
        (sign +:+ ds +:+ PyStr.repeat "0" (Z.to_nat (decpt - nd)) +:+ ".0")
      else
        (sign +:+ PyStr.take (Z.to_nat decpt) ds +:+ "." +:+
         PyStr.drop (Z.to_nat decpt) ds)
  end.

(** [round(x, nd)] for [nd >= 0]: through the correctly rounded
    [nd]-digit decimal. *)
Definition round_nd (nd : nat) (x : spec_float) : spec_float :=
  match x with
  | S754_finite s m e =>
      let '(num, den) := exact m e in
      of_decimal s (round_half_even (num * 10 ^ Z.of_nat nd) den) (- Z.of_nat nd)
  | _ => x
  end.

End PyFloat.

(** [repr(float(s))] *)
Definition float_repr (s : string) : option string :=
  option_map PyFloat.repr (PyFloat.of_string s).

(** ** The placeholder record

    A placeholder is the dictionary built by
    [PlaceholderDetector._find_placeholders_in_text].  Sessions written by
    older versions carry no ['id']: every reader uses
    [p.get('id', p['key'])]. *)

Inductive location_t :=
| LocInt (n : Z)          (* a paragraph index *)
| LocStr (s : string).    (* a table cell: the text [t-r-c] *)

Record placeholder := {
  p_id : option string;
  p_key : string;
  p_normalized_key : string;
  p_name : string;
  p_original : string;
  p_type : string;
  p_pattern_type : string;
  p_location : location_t;
  p_location_type : string;
  p_position : Z * Z;
  p_context : string;
}.

(** [p.get('id', p['key'])] *)
Definition ident (p : placeholder) : string := default (p_key p) (p_id p).

Global Instance location_t_eq_dec : EqDecision location_t.
Proof. solve_decision. Defined.

Global Instance placeholder_eq_dec : EqDecision placeholder.
Proof. solve_decision. Defined.

(** ** ValueValidator: [AIService._validate_placeholder_value] *)

Inductive validation :=
| Valid (processed_value : string)
| Invalid (error_message : string)
| Raised (e : py_exn).

Module Msg.

Definition dq : string := String (ascii_of_nat 34) "".

Definition required : string :=
  "This field is required. Please provide a value.".
Definition email : string :=
  "❌ That doesn't appear to be a valid email address." +:+ PyStr.nl +:+ PyStr.nl +:+
  "Please provide a valid email address:".
Definition month_positive (name : string) : string :=
  "❌ The " +:+ dq +:+ name +:+ dq +:+
  " field should be a positive number of months (e.g., 6, 12, or 24).".
Definition month_number (name : string) : string :=
  "❌ The " +:+ dq +:+ name +:+ dq +:+
  " field expects a number (e.g., 6, 12, or 24 months), not a date or text.".
Definition bad_month : string :=
  "❌ Invalid month. Please provide a date in MM/DD/YYYY format (month must be 01-12).".
Definition bad_day : string :=
  "❌ Invalid day. Please provide a date in MM/DD/YYYY format (day must be 01-31).".
Definition bad_format : string :=
  "❌ Please provide the date in MM/DD/YYYY format.".
Definition amount : string :=
  "❌ Please provide a valid amount (numbers only, $ symbol optional).".
Definition percentage : string :=
  "❌ Please provide a valid percentage (e.g., 20 or 20%).".
Definition phone : string :=
  "❌ Please provide a valid phone number (10-15 digits).".
Definition number : string :=
  "❌ Please provide a valid number.".

End Msg.

Module Re.

(** A pattern that ends in [$] matches at the end of the text or just
    before a final newline. *)
Fixpoint chomp (s : string) : option string :=
  match s with
  | "" => None
  | String c "" => if Ascii.eqb c (ascii_of_nat 10) then Some "" else None
  | String c s' => option_map (String c) (chomp s')
  end.

Definition dollar (full : string -> bool) (s : string) : bool :=
  full s || match chomp s with Some t => full t | None => false end.

Fixpoint split_first (c : ascii) (s : string) : option (string * string) :=
  match s with
  | "" => None
  | String a s' =>
      if Ascii.eqb a c then Some ("", s')
      else match split_first c s' with
           | Some (l, r) => Some (String a l, r)
           | None => None
           end
  end.

Fixpoint split_last (c : ascii) (s : string) : option (string * string) :=
  match s with
  | "" => None
  | String a s' =>
      match split_last c s' with
      | Some (l, r) => Some (String a l, r)
      | None => if Ascii.eqb a c then Some ("", s') else None
      end
  end.

Definition email_local_char (c : ascii) : bool :=
  PyStr.isalnum c || PyStr.existsb (Ascii.eqb c) "._%+-".

Definition email_domain_char (c : ascii) : bool :=
  PyStr.isalnum c || PyStr.existsb (Ascii.eqb c) ".-".

(** [[a-zA-Z0-9._%+-]+@[a-zA-Z0-9.-]+\.[a-zA-Z]{2,}] on the whole text.
    The local part cannot hold [@] and the last group cannot hold a dot,
    so the split is at the first [@] and at the last dot. *)
Definition email_full (s : string) : bool :=
  match split_first "@" s with
  | Some (loc, rest) =>
      match split_last "." rest with
      | Some (dom, tld) =>
          negb (String.eqb loc "") && PyStr.forallb email_local_char loc &&
          negb (String.eqb dom "") && PyStr.forallb email_domain_char dom &&
          (2 <=? String.length tld)%nat && PyStr.forallb PyStr.isalpha tld
      | None => false
      end
  | None => false
  end.

(** [re.match(r'^[a-zA-Z0-9._%+-]+@[a-zA-Z0-9.-]+\.[a-zA-Z]{2,}$', s)] *)
Definition email (s : string) : bool := dollar email_full s.

Definition in_range (lo hi : nat) (c : ascii) : bool :=
  let n := nat_of_ascii c in ((lo <=? n) && (n <=? hi))%nat.

(** [(0[1-9]|1[0-2])] *)
Definition month_group (a b : ascii) : bool :=
  (Ascii.eqb a "0" && in_range 49 57 b) || (Ascii.eqb a "1" && in_range 48 50 b).

(** [(0[1-9]|[12][0-9]|3[01])] *)
Definition day_group (a b : ascii) : bool :=
  (Ascii.eqb a "0" && in_range 49 57 b) ||
  (in_range 49 50 a && in_range 48 57 b) ||
  (Ascii.eqb a "3" && in_range 48 49 b).

(** The three groups of [(0[1-9]|1[0-2])/(0[1-9]|[12][0-9]|3[01])/(\d{4})]
    on the whole text. *)
Definition date_full (s : string) : option (string * string * string) :=
  match s with
  | String m1 (String m2 (String s1 (String d1 (String d2 (String s2
      (String y1 (String y2 (String y3 (String y4 "")))))))))  =>
      if month_group m1 m2 && Ascii.eqb s1 "/" && day_group d1 d2 &&
         Ascii.eqb s2 "/" && PyStr.isdecimal y1 && PyStr.isdecimal y2 &&
         PyStr.isdecimal y3 && PyStr.isdecimal y4
      then Some (String m1 (String m2 ""), String d1 (String d2 ""),
                 String y1 (String y2 (String y3 (String y4 ""))))
      else None
  | _ => None
  end.

(** [re.match(r'^(0[1-9]|1[0-2])/(0[1-9]|[12][0-9]|3[01])/(\d{4})$', s)] *)
Definition date (s : string) : option (string * string * string) :=
  match date_full s with
  | Some g => Some g
  | None => match chomp s with Some t => date_full t | None => None end
  end.

End Re.

Module Validator.

Local Open Scope Z_scope.

Definition state_map : list (string * string) :=
  [ ("de", "Delaware"); ("ca", "California"); ("ny", "New York");
    ("tx", "Texas"); ("fl", "Florida"); ("il", "Illinois");
    ("nv", "Nevada"); ("wy", "Wyoming") ].

Fixpoint assoc (k : string) (l : list (string * string)) : option string :=
  match l with
  | [] => None
  | (a, b) :: r => if String.eqb a k then Some b else assoc k r
  end.

Definition is_email_field (name ptype : string) : bool :=
  String.eqb ptype "contact" || PyStr.contains "email" name.

Definition is_month_number_field (name ptype : string) : bool :=
  String.eqb ptype "number" ||
  (PyStr.contains "month" name &&
   PyStr.contains_any ["term"; "number"; "count"; "quantity"; "duration"; "period"] name) ||
  PyStr.contains "term month" name ||
  (PyStr.contains "months" name && negb (PyStr.contains "date" name)).

Definition is_date_field (name ptype : string) : bool :=
  String.eqb ptype "date" ||
  (PyStr.contains "date" name && negb (PyStr.contains "month" name)).

Definition is_address_field (name ptype : string) : bool :=
  String.eqb ptype "address" || PyStr.contains "state" name ||
  PyStr.contains "jurisdiction" name.

Definition is_amount_field (name ptype : string) : bool :=
  String.eqb ptype "amount" ||
  PyStr.contains_any ["amount"; "price"; "valuation"; "fee"; "$"] name.

Definition is_percentage_field (name ptype : string) : bool :=
  String.eqb ptype "percentage" ||
  PyStr.contains_any ["rate"; "discount"; "percent"; "%"] name.

Definition is_phone_field (name : string) : bool :=
  PyStr.contains "phone" name || PyStr.contains "telephone" name.

Definition is_number_field (name ptype : string) : bool :=
  String.eqb ptype "number" || PyStr.contains "number" name ||
  PyStr.contains "shares" name || PyStr.contains "quantity" name.

Definition validate_email (value : string) : validation :=
  if Re.email value then Valid value else Invalid Msg.email.

(** [display_name] is [placeholder.get('name', 'Term Months')]. *)
Definition validate_month_number (display_name value : string) : validation :=
  let cleaned_value := PyStr.strip (PyStr.replace_all "," "" value) in
  match PyFloat.of_string cleaned_value with
  | None => Invalid (Msg.month_number display_name)
  | Some number =>
      if PyFloat.leb number (PyFloat.of_Z 0)
      then Invalid (Msg.month_positive display_name)
      else match PyFloat.to_int number with
           | inr z =>
               Valid (if PyFloat.eq_int number z
                      then PyFloat.str_int z else PyFloat.repr number)
           | inl ValueError => Invalid (Msg.month_number display_name)
           | inl OverflowError => Raised OverflowError
           end
  end.

Definition validate_date (value : string) : validation :=
  match Re.date value with
  | Some (g1, g2, _) =>
      let month := PyFloat.digits_val g1 in
      let day := PyFloat.digits_val g2 in
      if (month <? 1) || (12 <? month) then Invalid Msg.bad_month
      else if (day <? 1) || (31 <? day) then Invalid Msg.bad_day
      else Valid value
  | None => Invalid Msg.bad_format
  end.

Definition validate_address (name value : string) : validation :=
  if PyStr.contains "state" name || PyStr.contains "jurisdiction" name then
    let value_lower := PyStr.strip (PyStr.lower value) in
    match assoc value_lower state_map with
    | Some full => Valid full
    | None =>
        if (String.length value =? 2)%nat then Valid (PyStr.upper value)
        else Valid (PyStr.title value)
    end
  else Valid (PyStr.normalize_ws value).

Definition is_comma_or_dollar (c : ascii) : bool :=
  Ascii.eqb c "," || Ascii.eqb c "$".

Definition validate_amount (value : string) : validation :=
  let cleaned_value := PyStr.filter (fun c => negb (is_comma_or_dollar c)) value in
  match PyFloat.of_string cleaned_value with
  | None => Invalid Msg.amount
  | Some amount =>
      let formatted_amount :=
        if PyFloat.leb (PyFloat.of_Z 1000) amount
        then "$" +:+ PyFloat.format_fixed true 0 amount
        else "$" +:+ PyFloat.format_fixed false 2 amount in
      if negb (PyStr.startswith value "$") then Valid formatted_amount
      else
        let value := PyStr.replace_all "," "" value in
        if PyFloat.leb (PyFloat.of_Z 1000) amount then Valid formatted_amount
        else Valid value
  end.

Definition validate_percentage (value : string) : validation :=
  let cleaned_value := PyStr.strip (PyStr.replace_all "%" "" value) in
  match PyFloat.of_string cleaned_value with
  | None => Invalid Msg.percentage
  | Some percentage =>
      if PyFloat.ltb (PyFloat.of_Z 1) percentage &&
         PyFloat.leb percentage (PyFloat.of_Z 100)
      then Valid (PyFloat.repr percentage +:+ "%")
      else if PyFloat.leb percentage (PyFloat.of_Z 1)
      then Valid (PyFloat.repr (PyFloat.mul percentage (PyFloat.of_Z 100)) +:+ "%")
      else Valid (PyFloat.repr percentage +:+ "%")
  end.

Definition is_phone_punct (c : ascii) : bool :=
  PyStr.isspace c || PyStr.existsb (Ascii.eqb c) "-()+".

Definition validate_phone (value : string) : validation :=
  let cleaned_phone := PyStr.filter (fun c => negb (is_phone_punct c)) value in
  let n := String.length cleaned_phone in
  if negb (PyStr.str_isdigit cleaned_phone) || (n <? 10)%nat || (15 <? n)%nat
  then Invalid Msg.phone
  else if (n =? 10)%nat
  then Valid ("(" +:+ PyStr.take 3 cleaned_phone +:+ ") " +:+
              PyStr.take 3 (PyStr.drop 3 cleaned_phone) +:+ "-" +:+
              PyStr.drop 6 cleaned_phone)
  else Valid value.

Definition validate_number (value : string) : validation :=
  let cleaned_value := PyStr.replace_all "," "" value in
  match PyFloat.of_string cleaned_value with
  | None => Invalid Msg.number
  | Some number =>
      if PyFloat.leb (PyFloat.of_Z 1000) number then
        match PyFloat.to_int number with
        | inr z =>
            if PyFloat.eq_int number z
            then Valid (PyFloat.format_int_grouped z) else Valid value
        | inl ValueError => Invalid Msg.number
        | inl OverflowError => Raised OverflowError
        end
      else Valid value
  end.

(** [_validate_placeholder_value(value, placeholder)] *)
Definition _validate_placeholder_value (value : string) (p : placeholder)
  : validation :=
  let name := PyStr.lower (p_name p) in
  let placeholder_type := p_type p in
  let value := PyStr.strip value in
  if String.eqb value "" then Invalid Msg.required
  else if is_email_field name placeholder_type then validate_email value
  else if is_month_number_field name placeholder_type
  then validate_month_number (p_name p) value
  else if is_date_field name placeholder_type then validate_date value
  else if is_address_field name placeholder_type then validate_address name value
  else if is_amount_field name placeholder_type then validate_amount value
  else if is_percentage_field name placeholder_type then validate_percentage value
  else if is_phone_field name then validate_phone value
  else if is_number_field name placeholder_type then validate_number value
  else Valid (PyStr.normalize_ws value).

(** [_normalize_field_name(name)] *)
Definition is_space_or_underscore (c : ascii) : bool :=
  PyStr.isspace c || Ascii.eqb c "_".

Fixpoint collapse_gaps (in_gap : bool) (s : string) : string :=
  match s with
  | "" => ""
  | String c s' =>
      if is_space_or_underscore c
      then if in_gap then collapse_gaps true s'
           else String " " (collapse_gaps true s')
      else String c (collapse_gaps false s')
  end.

Definition is_word_or_space (c : ascii) : bool :=
  PyStr.isword c || PyStr.isspace c.

Definition _normalize_field_name (name : string) : string :=
  if String.eqb name "" then ""
  else
    let normalized := PyStr.strip (PyStr.lower name) in
    let normalized := collapse_gaps false normalized in
    PyStr.filter is_word_or_space normalized.

End Validator.

(** ** TypeClassifier: [PlaceholderDetector._identify_placeholder_type] *)

Module Classifier.

Definition type_indicators : list (string * list string) :=
  [ ("company", ["company"; "corporation"; "entity"; "business"; "firm";
                 "organization"; "llc"; "inc"; "corp"]);
    ("person", ["name"; "person"; "individual"; "party"; "signatory";
                "representative"; "employee"]);
    ("date", ["date"; "day"; "month"; "year"; "effective"; "expiration";
              "deadline"; "due"; "termination"]);
    ("amount", ["amount"; "price"; "fee"; "cost"; "payment"; "sum"; "total";
                "valuation"; "cap"; "$"; "dollar"; "usd"]);
    ("percentage", ["percentage"; "percent"; "rate"; "discount"; "interest";
                    "commission"; "%"]);
    ("address", ["address"; "location"; "street"; "city"; "state"; "zip";
                 "country"; "jurisdiction"]);
    ("contact", ["email"; "phone"; "telephone"; "fax"; "contact"; "mobile"; "tel"]);
    ("number", ["number"; "count"; "quantity"; "shares"; "units"; "#"; "no."]);
    ("signature", ["signature"; "signed"; "authorized"; "executed"; "acknowledged"]);
    ("title", ["title"; "position"; "role"; "designation"; "office"]) ].

Fixpoint scan_indicators (name_lower : string)
  (l : list (string * list string)) : string :=
  match l with
  | [] => "text"
  | (type_name, indicators) :: rest =>
      if PyStr.contains_any indicators name_lower then
        if String.eqb type_name "company" &&
           (PyStr.contains "state" name_lower &&
            PyStr.contains "incorporation" name_lower)
        then scan_indicators name_lower rest
        else type_name
      else scan_indicators name_lower rest
  end.

Definition _identify_placeholder_type (name : string) : string :=
  let name_lower := PyStr.lower name in
  if PyStr.contains "address" name_lower then "address"
  else if PyStr.contains "state of incorporation" name_lower then "address"
  else if PyStr.contains "governing law" name_lower ||
          PyStr.contains "governing law jurisdiction" name_lower then "address"
  else if PyStr.contains "valuation cap" name_lower then "amount"
  else if PyStr.contains "discount rate" name_lower then "percentage"
  else if PyStr.contains "purchase amount" name_lower then "amount"
  else if PyStr.contains "date of safe" name_lower ||
          PyStr.contains "safe date" name_lower then "date"
  else if PyStr.contains "investor name" name_lower then "person"
  else if PyStr.contains "company name" name_lower then "company"
  else if (PyStr.contains "term" name_lower && PyStr.contains "month" name_lower) ||
          PyStr.contains "number of month" name_lower ||
          (PyStr.contains "month" name_lower &&
           PyStr.contains_any
             ["term"; "number"; "count"; "quantity"; "duration"; "period"]
             name_lower)
  then "number"
  else scan_indicators name_lower type_indicators.

End Classifier.

(** ** FillProgressTracker: sessions and the handlers of [app.py]

    A session holds the PlaceholderIndex, the FilledValues dictionary and
    the index of the field being asked.  A handler is a function from the
    request and the session to the response and the session it saves.
    The preview markup sent back with each response is produced by
    [generate_preview] from the same data. *)

Record session := {
  placeholders : list placeholder;
  filled_values : gmap string string;
  current_placeholder_index : nat;
}.

(** [k in d] for a dictionary and for a set of keys *)
Definition in_dict (k : string) (d : gmap string string) : bool :=
  match d !! k with Some _ => true | None => false end.

Definition in_set (k : string) (s : gset string) : bool := bool_decide (k ∈ s).

(** [ph_id in filled_values or ph_key in filled_values] *)
Definition is_filled (fv : gmap string string) (p : placeholder) : bool :=
  in_dict (ident p) fv || in_dict (p_key p) fv.

(** [next((i for i, p in enumerate(l) if f(p)), None)] *)
Fixpoint find_index {A : Type} (f : A -> bool) (l : list A) : option nat :=
  match l with
  | [] => None
  | x :: r => if f x then Some 0 else option_map S (find_index f r)
  end.

(** Python numbers that a response carries: [0] or a float. *)
Inductive number := NInt (z : Z) | NFloat (x : spec_float).

(** [round((len(filled_values) / len(placeholders) * 100), 1) if placeholders else 0] *)
Definition progress_percentage_of (fv : gmap string string)
  (ps : list placeholder) : number :=
  match ps with
  | [] => NInt 0
  | _ =>
      NFloat (PyFloat.round_nd 1
                (PyFloat.mul
                   (PyFloat.int_truediv (Z.of_nat (size fv)) (Z.of_nat (length ps)))
                   (PyFloat.of_Z 100)))
  end.

(** [x > 100] for such a number *)
Definition number_gt_100 (x : number) : bool :=
  match x with
  | NInt z => (100 <? z)%Z
  | NFloat f => PyFloat.ltb (PyFloat.of_Z 100) f
  end.

Module AIService.

Record auto_fill := {
  af_key : string;
  af_value : string;
  af_name : string;
}.

Inductive response :=
| Filled (placeholder_key value : string) (auto_fills : list auto_fill)
         (next_index : option nat)
| Rejected (error_message : string)
| AllFilled
| Crashed (e : py_exn).

(** The [while] loop at the head of [process_message]: the first index
    from [i] on whose placeholder is not filled. *)
Fixpoint advance (fv : gmap string string) (l : list placeholder) (i : nat) : nat :=
  match l with
  | [] => i
  | p :: r => if is_filled fv p then advance fv r (S i) else i
  end.

Definition actual_index (fv : gmap string string) (ps : list placeholder)
  (current_index : nat) : nat :=
  advance fv (drop current_index ps) current_index.

Definition name_matches (current_name ph_name : string) : bool :=
  String.eqb (PyStr.lower ph_name) (PyStr.lower current_name) ||
  String.eqb (Validator._normalize_field_name ph_name)
             (Validator._normalize_field_name current_name).

Fixpoint collect_auto_fills (fv : gmap string string) (placeholder_id : string)
  (current_name value : string) (ps : list placeholder) : list auto_fill :=
  match ps with
  | [] => []
  | ph :: rest =>
      let tail := collect_auto_fills fv placeholder_id current_name value rest in
      if String.eqb (ident ph) placeholder_id then tail
      else if name_matches current_name (p_name ph) && negb (is_filled fv ph)
      then {| af_key := ident ph; af_value := value; af_name := p_name ph |} :: tail
      else tail
  end.

(** The set [all_filled_keys]. *)
Fixpoint add_auto_fill_keys (ps : list placeholder) (afs : list auto_fill)
  (acc : gset string) : gset string :=
  match afs with
  | [] => acc
  | af :: rest =>
      let acc := {[ af_key af ]} ∪ acc in
      let acc :=
        match List.find (fun p => String.eqb (ident p) (af_key af)) ps with
        | Some q => {[ p_key q ]} ∪ acc
        | None => acc
        end in
      add_auto_fill_keys ps rest acc
  end.

Definition all_filled_keys (fv : gmap string string) (placeholder_id : string)
  (ps : list placeholder) (afs : list auto_fill) : gset string :=
  add_auto_fill_keys ps afs ({[ placeholder_id ]} ∪ dom fv).

(** The test of the next-pointer scan of [process_message]. *)
Definition scan_is_filled (keys : gset string) (fv : gmap string string)
  (ph : placeholder) : bool :=
  in_set (ident ph) keys || in_set (p_key ph) keys ||
  in_dict (ident ph) fv || in_dict (p_key ph) fv.

Definition next_index_of (keys : gset string) (fv : gmap string string)
  (ps : list placeholder) : option nat :=
  find_index (fun ph => negb (scan_is_filled keys fv ph)) ps.

(** [process_message(user_message, placeholders, filled_values, current_index, _)] *)
Definition process_message (user_message : string) (ps : list placeholder)
  (fv : gmap string string) (current_index : nat) : response :=
  let i := actual_index fv ps current_index in
  match nth_error ps i with
  | None => AllFilled
  | Some current_placeholder =>
      match Validator._validate_placeholder_value user_message current_placeholder with
      | Invalid msg => Rejected msg
      | Raised e => Crashed e
      | Valid value =>
          let placeholder_id := ident current_placeholder in
          let afs := collect_auto_fills fv placeholder_id
                       (p_name current_placeholder) value ps in
          let keys := all_filled_keys fv placeholder_id ps afs in
          Filled placeholder_id value afs (next_index_of keys fv ps)
      end
  end.

End AIService.

Module App.

(** *** [/api/chat] *)

Record chat_response := {
  cr_placeholder_filled : bool;
  cr_current_progress : nat;
  cr_total_placeholders : nat;
  cr_progress_percentage : number;
  cr_all_filled : bool;
  cr_filled_values : gmap string string;
  cr_preview_index : option nat;
}.

Definition apply_auto_fills (afs : list AIService.auto_fill)
  (fv : gmap string string) : gmap string string :=
  fold_left (fun d af => <[ AIService.af_key af := AIService.af_value af ]> d) afs fv.

(** [None] is the 500 response of the handler's [except Exception]. *)
Definition chat (message : string) (s : session)
  : option (chat_response * session) :=
  let user_message := PyStr.strip message in
  let ps := placeholders s in
  let current_index := current_placeholder_index s in
  let finish (filled : bool) (next : option nat) (s' : session) :=
    let fv := filled_values s' in
    let all_filled := (size fv =? length ps)%nat in
    let preview_index :=
      match next with
      | Some n => Some n
      | None =>
          if negb all_filled
          then if (length ps <=? current_placeholder_index s')%nat
               then None else Some (current_placeholder_index s')
          else None
      end in
    Some ({| cr_placeholder_filled := filled;
             cr_current_progress := current_placeholder_index s';
             cr_total_placeholders := length ps;
             cr_progress_percentage := progress_percentage_of fv ps;
             cr_all_filled := all_filled;
             cr_filled_values := fv;
             cr_preview_index := preview_index |}, s') in
  match AIService.process_message user_message ps (filled_values s) current_index with
  | AIService.Crashed _ => None
  | AIService.Rejected _ | AIService.AllFilled => finish false None s
  | AIService.Filled placeholder_key value afs next_index =>
      let fv := apply_auto_fills afs (<[ placeholder_key := value ]> (filled_values s)) in
      finish true next_index
        {| placeholders := ps;
           filled_values := fv;
           current_placeholder_index :=
             match next_index with
             | Some n => n
             | None => current_index + 1
             end |}
  end.

(** The placeholder a request names: [p.get('id') == field_key or
    p['key'] == field_key], first match. *)
Definition matches_field (field_key : string) (p : placeholder) : bool :=
  match p_id p with
  | Some i => String.eqb i field_key
  | None => false
  end || String.eqb (p_key p) field_key.

Inductive http (A : Type) :=
| Ok200 (body : A)
| Err400 (error message : string)
| Err500.
Arguments Ok200 {A} body.
Arguments Err400 {A} error message.
Arguments Err500 {A}.

(** *** [/api/edit] *)

Record edit_response := {
  er_filled_count : nat;
  er_total_count : nat;
  er_progress_percentage : number;
  er_filled_values : gmap string string;
  er_current_index : option nat;
}.

(** The auto-fill loop of [edit_field]. *)
Fixpoint edit_auto_fill (placeholder_id current_name value : string)
  (ps : list placeholder) (fv : gmap string string) : gmap string string :=
  match ps with
  | [] => fv
  | ph :: rest =>
      if negb (String.eqb (ident ph) placeholder_id) &&
         String.eqb (p_name ph) current_name
      then edit_auto_fill placeholder_id current_name value rest
             (<[ ident ph := value ]> fv)
      else edit_auto_fill placeholder_id current_name value rest fv
  end.

Definition edit_field (field_key value : string) (s : session)
  : http edit_response * session :=
  let new_value := PyStr.strip value in
  let ps := placeholders s in
  if String.eqb field_key ""
  then (Err400 "No field specified" "Please specify which field to edit.", s)
  else
    match List.find (matches_field field_key) ps with
    | None => (Err400 "Field not found" "The specified field does not exist.", s)
    | Some placeholder =>
        let placeholder_id := ident placeholder in
        match Validator._validate_placeholder_value new_value placeholder with
        | Raised _ => (Err500, s)
        | Invalid msg => (Err400 "Invalid value" msg, s)
        | Valid processed_value =>
            let fv := <[ placeholder_id := processed_value ]> (filled_values s) in
            let fv :=
              if negb (String.eqb placeholder_id field_key)
              then <[ field_key := processed_value ]> fv else fv in
            let fv := edit_auto_fill placeholder_id (p_name placeholder)
                        processed_value ps fv in
            let field_index :=
              find_index (fun p => String.eqb (p_key p) field_key) ps in
            let s' :=
              {| placeholders := ps;
                 filled_values := fv;
                 current_placeholder_index :=
                   match field_index with
                   | Some i => i
                   | None => current_placeholder_index s
                   end |} in
            (Ok200 {| er_filled_count := size fv;
                      er_total_count := length ps;
                      er_progress_percentage := progress_percentage_of fv ps;
                      er_filled_values := fv;
                      er_current_index :=
                        if (size fv <? length ps)%nat then Some (size fv) else None |},
             s')
        end
    end.

(** *** [/api/fill] *)

Record fill_response := {
  fr_filled_count : nat;
  fr_total_count : nat;
  fr_progress_percentage : number;
  fr_filled_values : gmap string string;
  fr_next_index : option nat;
  fr_auto_filled : list string;
}.

(** The auto-fill loop of [fill_field_directly]: the dictionary and the
    names appended to [auto_filled]. *)
Fixpoint fill_auto_fill (placeholder_id current_name value : string)
  (ps : list placeholder) (fv : gmap string string)
  : gmap string string * list string :=
  match ps with
  | [] => (fv, [])
  | ph :: rest =>
      if negb (String.eqb (ident ph) placeholder_id) &&
         String.eqb (p_name ph) current_name &&
         negb (in_dict (ident ph) fv)
      then
        let '(fv', names) :=
          fill_auto_fill placeholder_id current_name value rest
            (<[ ident ph := value ]> fv) in
        (fv', p_name ph :: names)
      else fill_auto_fill placeholder_id current_name value rest fv
  end.

(** The next-pointer scan of [fill_field_directly]. *)
Definition next_unfilled (all_filled_keys : gset string)
  (ps : list placeholder) : option nat :=
  find_index
    (fun ph => negb (in_set (ident ph) all_filled_keys) &&
               negb (in_set (p_key ph) all_filled_keys)) ps.

Definition fill_field_directly (field_key value : string) (s : session)
  : http fill_response * session :=
  let value := PyStr.strip value in
  let ps := placeholders s in
  if String.eqb field_key ""
  then (Err400 "No field specified" "Field identifier is required.", s)
  else
    match List.find (matches_field field_key) ps with
    | None => (Err400 "Field not found" "The specified field does not exist.", s)
    | Some placeholder =>
        let placeholder_id := ident placeholder in
        match Validator._validate_placeholder_value value placeholder with
        | Raised _ => (Err500, s)
        | Invalid msg => (Err400 "Invalid value" msg, s)
        | Valid processed_value =>
            let fv := <[ placeholder_id := processed_value ]> (filled_values s) in
            let '(fv, auto_filled) :=
              fill_auto_fill placeholder_id (p_name placeholder)
                processed_value ps fv in
            let next_index := next_unfilled (dom fv) ps in
            (Ok200 {| fr_filled_count := size fv;
                      fr_total_count := length ps;
                      fr_progress_percentage := progress_percentage_of fv ps;
                      fr_filled_values := fv;
                      fr_next_index := next_index;
                      fr_auto_filled := auto_filled |},
             {| placeholders := ps;
                filled_values := fv;
                current_placeholder_index := current_placeholder_index s |})
        end
    end.

(** *** [/api/complete] *)

Inductive complete_response :=
| IncompleteDocument (message : string) (unfilled_count : nat)
                     (unfilled_placeholders : list placeholder)
| Compose (ps : list placeholder) (fv : gmap string string).

Definition complete_document (s : session) : complete_response :=
  let ps := placeholders s in
  let fv := filled_values s in
  if (size fv <? length ps)%nat then
    let unfilled := List.filter (fun p => negb (in_dict (p_key p) fv)) ps in
    let unfilled_names := List.map p_name (firstn 5 unfilled) in
    IncompleteDocument
      ("Please fill all placeholders before downloading. Still missing: " +:+
       PyStr.join ", " unfilled_names +:+
       (if (5 <? length unfilled)%nat then "..." else ""))
      (length unfilled) unfilled
  else Compose ps fv.

End App.

(** ** PreviewRenderer and FinalDocumentComposer: [document_processor.py]

    Both walk the document unit by unit.  The model has one function per
    unit: it takes the unit's address and text and returns the text that
    the source appends to the preview or writes back to the document. *)

Module Render.

Definition dq : string := Msg.dq.

(** [str(z)] for an integer *)
Definition str_Z (z : Z) : string := PyFloat.str_int z.

(** [str(p['location'])] *)
Definition str_location (l : location_t) : string :=
  match l with
  | LocInt n => str_Z n
  | LocStr s => s
  end.

(** [filled_values.get(placeholder_id, filled_values.get(placeholder_key, ''))] *)
Definition lookup_value (fv : gmap string string) (p : placeholder) : string :=
  match fv !! ident p with
  | Some v => v
  | None => default "" (fv !! p_key p)
  end.

(** [p.get('location_type') == 'paragraph' and p.get('location') == i] *)
Definition in_paragraph (i : Z) (p : placeholder) : bool :=
  String.eqb (p_location_type p) "paragraph" &&
  match p_location p with
  | LocInt n => (n =? i)%Z
  | LocStr _ => false
  end.

(** [f"{table_idx}-{row_idx}-{col_idx}"] *)
Definition table_location (t r c : nat) : string :=
  str_Z (Z.of_nat t) +:+ "-" +:+ str_Z (Z.of_nat r) +:+ "-" +:+ str_Z (Z.of_nat c).

(** [p.get('location_type') == 'table' and str(p.get('location')) == table_location] *)
Definition in_cell (table_loc : string) (p : placeholder) : bool :=
  String.eqb (p_location_type p) "table" &&
  String.eqb (str_location (p_location p)) table_loc.

(** [enumerate(l)] from [start] *)
Fixpoint enumerate_from {A : Type} (start : nat) (l : list A) : list (nat * A) :=
  match l with
  | [] => []
  | x :: r => (start, x) :: enumerate_from (S start) r
  end.

(** *** [generate_preview] *)

Definition indent : string := PyStr.repeat " " 39.

(** The three-quoted span templates of [generate_preview]. *)
Definition span_markup (css title_tail body : string)
  (placeholder_name placeholder_id placeholder_key : string) (idx : nat) : string :=
  "<span class=" +:+ dq +:+ css +:+ dq +:+ " " +:+ PyStr.nl +:+
  indent +:+ "title=" +:+ dq +:+ "Field: " +:+ placeholder_name +:+ title_tail +:+ dq +:+ PyStr.nl +:+
  indent +:+ "data-ph=" +:+ dq +:+ placeholder_id +:+ dq +:+ PyStr.nl +:+
  indent +:+ "data-key=" +:+ dq +:+ placeholder_key +:+ dq +:+ PyStr.nl +:+
  indent +:+ "data-index=" +:+ dq +:+ str_Z (Z.of_nat idx) +:+ dq +:+ ">" +:+ PyStr.nl +:+
  indent +:+ body +:+ "</span>".

Definition preview_replacement (fv : gmap string string)
  (current_index : option nat) (idx : nat) (p : placeholder) : string :=
  let placeholder_key := p_key p in
  let placeholder_text := p_original p in
  let placeholder_name := p_name p in
  let placeholder_id := ident p in
  let is_current :=
    match current_index with
    | Some c => (idx =? c)%nat
    | None => false
    end in
  if is_current then
    span_markup "placeholder-current" " - Currently filling this field"
      ("[" +:+ placeholder_name +:+ "]")
      placeholder_name placeholder_id placeholder_key idx
  else if is_filled fv p then
    let field_value := lookup_value fv p in
    span_markup "placeholder-filled"
      (" - Click to edit (Value: " +:+ field_value +:+ ")") field_value
      placeholder_name placeholder_id placeholder_key idx
  else
    span_markup "placeholder-unfilled" " - Not yet filled" placeholder_text
      placeholder_name placeholder_id placeholder_key idx.

(** [para_placeholders]: the placeholders of this paragraph with their
    indices in the whole PlaceholderIndex. *)
Definition para_placeholders (para_location : Z) (ps : list placeholder)
  : list (nat * placeholder) :=
  List.filter (fun ip => in_paragraph para_location (snd ip)) (enumerate_from 0 ps).

(** The state of the paragraph loop: the text so far and
    [replaced_in_this_para], most recent addition first. *)
Definition para_state : Type := string * list string.

Definition in_list (x : string) (l : list string) : bool :=
  List.existsb (String.eqb x) l.

(** One turn of the loop over [para_placeholders]. *)
Definition preview_step (fv : gmap string string) (current_index : option nat)
  (st : para_state) (ip : nat * placeholder) : para_state :=
  let '(para_text, replaced_in_this_para) := st in
  let '(idx, p) := ip in
  let placeholder_text := p_original p in
  if negb (PyStr.contains placeholder_text para_text) then st
  else if in_list placeholder_text replaced_in_this_para then st
  else
    (PyStr.replace_first placeholder_text
       (preview_replacement fv current_index idx p) para_text,
     placeholder_text :: replaced_in_this_para).

Definition preview_para_loop (fv : gmap string string) (current_index : option nat)
  (para_location : Z) (para_text : string) (ps : list placeholder) : para_state :=
  fold_left (preview_step fv current_index)
    (para_placeholders para_location ps) (para_text, []).

Definition style_class (style : string) : string :=
  if PyStr.contains "heading" (PyStr.lower style) then "heading"
  else if PyStr.contains "title" (PyStr.lower style) then "title"
  else "paragraph".

(** The markup appended for one paragraph. *)
Definition preview_paragraph (fv : gmap string string) (current_index : option nat)
  (para_location : Z) (para_text style : string) (ps : list placeholder) : string :=
  "<p class=" +:+ dq +:+ style_class style +:+ dq +:+ ">" +:+
  fst (preview_para_loop fv current_index para_location para_text ps) +:+ "</p>".

(** One turn of the loop over a table cell: every placeholder, every
    occurrence. *)
Definition preview_cell_step (fv : gmap string string) (cell_text : string)
  (p : placeholder) : string :=
  if is_filled fv p then
    PyStr.replace_all (p_original p)
      ("<span class=" +:+ dq +:+ "placeholder-filled" +:+ dq +:+ ">" +:+
       lookup_value fv p +:+ "</span>") cell_text
  else
    PyStr.replace_all (p_original p)
      ("<span class=" +:+ dq +:+ "placeholder-unfilled" +:+ dq +:+ ">" +:+
       p_original p +:+ "</span>") cell_text.

(** The markup appended for one table cell of row [row_idx]. *)
Definition preview_cell (fv : gmap string string) (row_idx : nat)
  (cell_text : string) (ps : list placeholder) : string :=
  let tag := if (row_idx =? 0)%nat then "th" else "td" in
  "<" +:+ tag +:+ ">" +:+ fold_left (preview_cell_step fv) ps cell_text +:+
  "</" +:+ tag +:+ ">".

(** *** [generate_final_document] *)

(** One turn of the loop over the placeholders of paragraph [i]:
    the text and [text_changed]. *)
Definition final_step (fv : gmap string string) (st : string * bool)
  (p : placeholder) : string * bool :=
  let '(paragraph_text, text_changed) := st in
  if is_filled fv p && PyStr.contains (p_original p) paragraph_text
  then (PyStr.replace_first (p_original p) (lookup_value fv p) paragraph_text, true)
  else st.

Definition final_para_loop (fv : gmap string string) (i : Z)
  (paragraph_text : string) (ps : list placeholder) : string * bool :=
  fold_left (final_step fv) (List.filter (in_paragraph i) ps) (paragraph_text, false).

(** "Handle auto-fill for header Company Name". *)
Definition header_auto_fill (fv : gmap string string) (ps : list placeholder)
  (st : string * bool) : string * bool :=
  let '(paragraph_text, text_changed) := st in
  if PyStr.contains "[Company Name]" paragraph_text then
    match List.find (fun ph => String.eqb (p_name ph) "Company Name" && is_filled fv ph) ps with
    | Some ph =>
        (PyStr.replace_first "[Company Name]" (lookup_value fv ph) paragraph_text, true)
    | None => st
    end
  else st.

(** Paragraph [i] of the final document: [None] when the source leaves
    the paragraph as it is, the new text otherwise. *)
Definition final_paragraph (fv : gmap string string) (i : Z)
  (paragraph_text : string) (ps : list placeholder) : option string :=
  if String.eqb (PyStr.strip paragraph_text) "" then None
  else
    let '(text, changed) :=
      header_auto_fill fv ps (final_para_loop fv i paragraph_text ps) in
    if changed then Some text else None.

Definition final_cell_step (fv : gmap string string) (table_loc : string)
  (st : string * bool) (p : placeholder) : string * bool :=
  let '(paragraph_text, text_changed) := st in
  if in_cell table_loc p && PyStr.contains (p_original p) paragraph_text &&
     is_filled fv p
  then (PyStr.replace_first (p_original p) (lookup_value fv p) paragraph_text, true)
  else st.

(** One paragraph of the table cell [(t, r, c)] in the final document. *)
Definition final_cell (fv : gmap string string) (t r c : nat)
  (paragraph_text : string) (ps : list placeholder) : option string :=
  let '(text, changed) :=
    fold_left (final_cell_step fv (table_location t r c)) ps (paragraph_text, false) in
  if changed then Some text else None.

End Render.

(** ** ContextDisambiguator: [PlaceholderDetector._smart_deduplicate] *)

Module Detector.

Local Open Scope Z_scope.

(** The grouping key of one candidate. *)
Definition signature (p : placeholder) : string :=
  let name_lower := PyStr.strip (PyStr.lower (p_name p)) in
  let context_lower := PyStr.lower (p_context p) in
  let original := p_original p in
  let location := Render.str_location (p_location p) in
  let location_type := p_location_type p in
  if PyStr.startswith original "$[" ||
     (PyStr.startswith original "[" && (10 <? String.length original)%nat)
  then
    let is_blank_dollar :=
      PyStr.startswith original "$[" &&
      (PyStr.contains "_" original || (8 <? String.length original)%nat) in
    if is_blank_dollar then
      if PyStr.contains "purchase amount" context_lower ||
         PyStr.contains "payment by" context_lower ||
         PyStr.contains "exchange for" context_lower
      then "purchase_amount" +:+ "_" +:+ location_type +:+ "_" +:+ location
      else if PyStr.contains "post-money valuation cap" context_lower ||
              PyStr.contains "valuation cap" context_lower
      then "valuation_cap" +:+ "_" +:+ location_type +:+ "_" +:+ location
      else if PyStr.contains "post money" context_lower
      then "valuation_cap" +:+ "_" +:+ location_type +:+ "_" +:+ location
      else "amount_field" +:+ "_" +:+ location_type +:+ "_" +:+ location
    else name_lower +:+ "_" +:+ location_type +:+ "_" +:+ location
  else p_normalized_key p +:+ "_" +:+ location_type +:+ "_" +:+ location.

(** [groups]: a dictionary in insertion order, each value a list in
    append order. *)
Fixpoint group_add (sig : string) (p : placeholder)
  (groups : list (string * list placeholder)) : list (string * list placeholder) :=
  match groups with
  | [] => [(sig, [p])]
  | (s, g) :: rest =>
      if String.eqb s sig then (s, (g ++ [p])%list) :: rest
      else (s, g) :: group_add sig p rest
  end.

Definition build_groups (all_placeholders : list placeholder)
  : list (string * list placeholder) :=
  fold_left (fun groups p => group_add (signature p) p groups) all_placeholders [].

(** [group.sort(key=lambda x: x['position'][0])]: a stable sort. *)
Fixpoint insert_by_start (p : placeholder) (l : list placeholder) : list placeholder :=
  match l with
  | [] => [p]
  | q :: r =>
      if fst (p_position p) <=? fst (p_position q) then p :: q :: r
      else q :: insert_by_start p r
  end.

Fixpoint sort_by_start (l : list placeholder) : list placeholder :=
  match l with
  | [] => []
  | p :: r => insert_by_start p (sort_by_start r)
  end.

(** [abs(pos_key[0] - seen_pos[0]) < 10] for some seen position *)
Definition near_seen (pos_key : Z * Z) (seen_positions : list (Z * Z)) : bool :=
  List.existsb (fun seen_pos => Z.abs (fst pos_key - fst seen_pos) <? 10) seen_positions.

(** The loop that builds [filtered_group]. *)
Fixpoint filter_group (seen_positions : list (Z * Z)) (group : list placeholder)
  : list placeholder :=
  match group with
  | [] => []
  | p :: r =>
      if near_seen (p_position p) seen_positions
      then filter_group seen_positions r
      else p :: filter_group (p_position p :: seen_positions) r
  end.

Definition dedup_group (group : list placeholder) : list placeholder :=
  match group with
  | [p] => [p]
  | _ => filter_group [] (sort_by_start group)
  end.

(** [_smart_deduplicate(all_placeholders)] *)
Definition _smart_deduplicate (all_placeholders : list placeholder)
  : list placeholder :=
  match all_placeholders with
  | [] => []
  | _ => List.concat (List.map (fun sg => dedup_group (snd sg))
                        (build_groups all_placeholders))
  end.

(** [_filter_placeholders(placeholders, _)] *)
Definition is_blank_name (name : string) : bool :=
  String.eqb name "" ||
  String.eqb name (PyStr.repeat "_" (String.length name)).

Definition _filter_placeholders (ps : list placeholder) : list placeholder :=
  List.filter (fun p => negb (is_blank_name (p_name p))) ps.

(** *** The end of [detect_placeholders]

    [all_placeholders] holds what the scanner found in the paragraphs
    and then in the table cells, each candidate with the id that the
    scanner drew for it ([uuid4().hex[:8]]).  The list is deduplicated,
    sorted and filtered; the sequence number that the source then
    writes into the entry at position [i] is [i + 1]. *)

(** The sort key [(location_type, location, position[0])].  The location
    of a paragraph is an int and that of a cell a str, so the locations
    of one location type compare; an int and a str are never compared
    in such a list. *)
Definition location_compare (a b : location_t) : comparison :=
  match a, b with
  | LocInt x, LocInt y => Z.compare x y
  | LocStr x, LocStr y => String.compare x y
  | LocInt _, LocStr _ => Lt
  | LocStr _, LocInt _ => Gt
  end.

Definition key_le (p q : placeholder) : bool :=
  match String.compare (p_location_type p) (p_location_type q) with
  | Lt => true
  | Gt => false
  | Eq =>
      match location_compare (p_location p) (p_location q) with
      | Lt => true
      | Gt => false
      | Eq => fst (p_position p) <=? fst (p_position q)
      end
  end.

(** [placeholders.sort(key=...)]: a stable sort. *)
Fixpoint insert_by_key (p : placeholder) (l : list placeholder) : list placeholder :=
  match l with
  | [] => [p]
  | q :: r => if key_le p q then p :: q :: r else q :: insert_by_key p r
  end.

Fixpoint sort_index (l : list placeholder) : list placeholder :=
  match l with
  | [] => []
  | p :: r => insert_by_key p (sort_index r)
  end.

Definition detect_placeholders (all_placeholders : list placeholder)
  : list placeholder :=
  _filter_placeholders (sort_index (_smart_deduplicate all_placeholders)).

(** The locations that [detect_placeholders] hands to the scanner. *)
Definition from_paragraph (p : placeholder) : Prop :=
  p_location_type p = "paragraph" /\
  exists i, 0 <= i /\ p_location p = LocInt i.

Definition from_table (p : placeholder) : Prop :=
  p_location_type p = "table" /\
  exists t r c, p_location p = LocStr (Render.table_location t r c).

Definition located_by_detector (p : placeholder) : Prop :=
  from_paragraph p \/ from_table p.

Definition no_underscore (s : string) : Prop :=
  PyStr.existsb (Ascii.eqb "_") s = false.

(** [q] is kept within ten characters of [p]. *)
Definition close_to (p q : placeholder) : Prop :=
  (Z.abs (fst (p_position p) - fst (p_position q)) < 10)%Z.

(** What the grouping loop maintains: a group holds candidates of its
    own signature that were read, and each candidate read is in the group
    of its signature. *)
Definition groups_ok (seen : list placeholder)
  (groups : list (string * list placeholder)) : Prop :=
  (forall s g q, In (s, g) groups -> In q g -> signature q = s /\ In q seen) /\
  (forall p, In p seen -> exists g, In (signature p, g) groups /\ In p g).

End Detector.

(** ** Which branch of the validator a field reaches

    The validator is one chain of [if]/[elif]; a field reaches a branch
    when its name and type fail every test before it. *)

Module Route.

Definition name_of (p : placeholder) : string := PyStr.lower (p_name p).

Definition month_number (p : placeholder) : bool :=
  negb (Validator.is_email_field (name_of p) (p_type p)) &&
  Validator.is_month_number_field (name_of p) (p_type p).

Definition date (p : placeholder) : bool :=
  negb (Validator.is_email_field (name_of p) (p_type p)) &&
  negb (Validator.is_month_number_field (name_of p) (p_type p)) &&
  Validator.is_date_field (name_of p) (p_type p).

Definition amount (p : placeholder) : bool :=
  negb (Validator.is_email_field (name_of p) (p_type p)) &&
  negb (Validator.is_month_number_field (name_of p) (p_type p)) &&
  negb (Validator.is_date_field (name_of p) (p_type p)) &&
  negb (Validator.is_address_field (name_of p) (p_type p)) &&
  Validator.is_amount_field (name_of p) (p_type p).

Definition percentage (p : placeholder) : bool :=
  negb (Validator.is_email_field (name_of p) (p_type p)) &&
  negb (Validator.is_month_number_field (name_of p) (p_type p)) &&
  negb (Validator.is_date_field (name_of p) (p_type p)) &&
  negb (Validator.is_address_field (name_of p) (p_type p)) &&
  negb (Validator.is_amount_field (name_of p) (p_type p)) &&
  Validator.is_percentage_field (name_of p) (p_type p).

(** [cleaned_value] of the amount branch *)
Definition amount_cleaned (value : string) : string :=
  PyStr.filter (fun c => negb (Validator.is_comma_or_dollar c)) value.

(** [cleaned_value] of the percentage branch *)
Definition percentage_cleaned (value : string) : string :=
  PyStr.strip (PyStr.replace_all "%" "" value).

(** The number the percentage branch prints for the parsed value [x]. *)
Definition percentage_shown (x : spec_float) : spec_float :=
  if PyFloat.ltb (PyFloat.of_Z 1) x && PyFloat.leb x (PyFloat.of_Z 100) then x
  else if PyFloat.leb x (PyFloat.of_Z 1) then PyFloat.mul x (PyFloat.of_Z 100)
  else x.

(** The messages the date branch was written to tell apart. *)
Definition date_messages : list string :=
  [Msg.bad_format; Msg.bad_month; Msg.bad_day].

End Route.

(** A placeholder as the scanner builds it for a bracketed field [name]
    found in paragraph 0; its type is the classifier's. *)
Definition field (name : string) : placeholder :=
  {| p_id := Some "ph_00000001";
     p_key := "field_0";
     p_normalized_key := "field";
     p_name := name;
     p_original := "[" +:+ name +:+ "]";
     p_type := Classifier._identify_placeholder_type name;
     p_pattern_type := "square_bracket";
     p_location := LocInt 0;
     p_location_type := "paragraph";
     p_position := (0, 2 + Z.of_nat (String.length name))%Z;
     p_context := "[" +:+ name +:+ "]" |}.

(** ** Reachable sessions

    [upload_document] stores the PlaceholderIndex with no value and index
    0; afterwards only the three handlers below change a session. *)

Definition initial_session (ps : list placeholder) : session :=
  {| placeholders := ps; filled_values := ∅; current_placeholder_index := 0 |}.

Inductive reachable (ps : list placeholder) : session -> Prop :=
| reach_upload : reachable ps (initial_session ps)
| reach_chat s message r s' :
    reachable ps s -> App.chat message s = Some (r, s') -> reachable ps s'
| reach_edit s field_key value r s' :
    reachable ps s -> App.edit_field field_key value s = (r, s') -> reachable ps s'
| reach_fill s field_key value r s' :
    reachable ps s -> App.fill_field_directly field_key value s = (r, s') ->
    reachable ps s'.

(** "Filled" and "unfilled" with respect to a set of recorded keys: a
    placeholder is filled when its id or its key is recorded. *)
Definition recorded (keys : gset string) (p : placeholder) : Prop :=
  ident p ∈ keys \/ p_key p ∈ keys.

(** What a next pointer [next] must satisfy over the index [ps]: it
    points at an unfilled entry with no unfilled entry before it, or it
    is [None] and no entry is unfilled. *)
Definition first_unfilled (keys : gset string) (ps : list placeholder)
  (next : option nat) : Prop :=
  match next with
  | Some n =>
      (exists p, ps !! n = Some p /\ ~ recorded keys p) /\
      (forall j q, j < n -> ps !! j = Some q -> recorded keys q)
  | None => forall q, q ∈ ps -> recorded keys q
  end.

(** The keys recorded for the auto-filled placeholders: the id of each,
    and the key of the first placeholder that carries that id. *)
Definition auto_fill_keys (ps : list placeholder)
  (afs : list AIService.auto_fill) : gset string :=
  AIService.add_auto_fill_keys ps afs ∅.

(** ** Sample documents *)

Module Sample.

(** A bracketed field [name] found at offset [start] of paragraph [loc],
    as the scanner records it. *)
Definition bracketed (i key name : string) (loc start : Z) : placeholder :=
  {| p_id := Some i;
     p_key := key;
     p_normalized_key := PyStr.take (String.length key - 2) key;
     p_name := name;
     p_original := "[" +:+ name +:+ "]";
     p_type := Classifier._identify_placeholder_type name;
     p_pattern_type := "square_bracket";
     p_location := LocInt loc;
     p_location_type := "paragraph";
     p_position := (start, start + 2 + Z.of_nat (String.length name))%Z;
     p_context := "[" +:+ name +:+ "]" |}.

Definition company : placeholder :=
  bracketed "ph_3f9a1c02" "company_name_0" "Company Name" 0 0.
Definition investor : placeholder :=
  bracketed "ph_77b0e4d1" "investor_name_1" "Investor Name" 1 4.

(** A one-field document. *)
Definition one_field : list placeholder := [company].

(** A two-field document. *)
Definition two_fields : list placeholder := [company; investor].

(** The same field name in two paragraphs. *)
Definition notice_3 : placeholder :=
  bracketed "ph_a0000003" "notice_3" "Notice" 3 0.
Definition notice_9 : placeholder :=
  bracketed "ph_a0000009" "notice_9" "Notice" 9 0.
Definition twice : list placeholder := [notice_3; notice_9].

(** Ten fields, one per paragraph. *)
Definition party (n : Z) : placeholder :=
  bracketed ("ph_0000000" +:+ PyFloat.str_int n)
            ("party_" +:+ PyFloat.str_int n +:+ "_" +:+ PyFloat.str_int n)
            ("Party " +:+ PyFloat.str_int n) n 0.
Definition ten_fields : list placeholder :=
  List.map party [0; 1; 2; 3; 4; 5; 6; 7; 8; 9]%Z.

(** The session after [fill_field_directly] on each of the given ids. *)
Definition fill_all (ids : list string) (s : session) : session :=
  fold_left (fun s i => snd (App.fill_field_directly i "Acme LLC" s)) ids s.

Definition nine_of_ten : session :=
  fill_all (List.map (fun p => ident p) (firstn 9 ten_fields))
           (initial_session ten_fields).

(** The session after the one company field of [two_fields] was edited
    through its key. *)
Definition edited_by_key : session :=
  snd (App.edit_field "company_name_0" "Acme Inc" (initial_session two_fields)).

(** The session after the one field of [one_field] was edited through
    its key. *)
Definition one_edited_by_key : session :=
  snd (App.edit_field "company_name_0" "Acme Inc" (initial_session one_field)).

(** [twice] with both occurrences answered, the second one changed
    afterwards. *)
Definition twice_filled : session :=
  snd (App.fill_field_directly "ph_a0000009" "12 Elm Road"
         (snd (App.fill_field_directly "ph_a0000003" "1 Main Street"
                 (initial_session twice)))).

End Sample.

(** ** Auxiliary notions for the statements

    [map_chars f s] rewrites [s] character by character. *)
Fixpoint map_chars (f : ascii -> string) (s : string) : string :=
  match s with
  | "" => ""
  | String c s' => f c +:+ map_chars f s'
  end.

(** A character that is not white space. *)
Definition nonspace (c : ascii) : bool := negb (PyStr.isspace c).

(** A word of [s.split()]: not empty and free of white space. *)
Definition is_word (w : string) : Prop :=
  w <> "" /\ PyStr.forallb nonspace w = true.

Fixpoint concat_s (l : list string) : string :=
  match l with
  | [] => ""
  | x :: r => x +:+ concat_s r
  end.

(** White space only; a gap between two words is such a text that is
    not empty. *)
Definition blank_text (g : string) : Prop := PyStr.forallb PyStr.isspace g = true.

Definition is_gap (g : string) : Prop := g <> "" /\ blank_text g.

(** The text [g1 w1 g2 w2 ...] of the gaps and words in [rest]. *)
Fixpoint gaps_and_words (rest : list (string * string)) : string :=
  match rest with
  | [] => ""
  | (g, w) :: r => g +:+ w +:+ gaps_and_words r
  end.

(** A text as it is laid out: white space, a word, then gaps and words
    in turn, then white space. *)
Definition laid_out (lead w : string) (rest : list (string * string))
  (trail : string) : string :=
  lead +:+ w +:+ gaps_and_words rest +:+ trail.

Definition well_laid (lead w : string) (rest : list (string * string))
  (trail : string) : Prop :=
  blank_text lead /\ is_word w /\
  Forall (fun gw => is_gap (fst gw) /\ is_word (snd gw)) rest /\
  blank_text trail.

(** ** What a reachable session holds *)

(** The ids and the keys of the PlaceholderIndex. *)
Definition known_keys (ps : list placeholder) : gset string :=
  list_to_set (List.map ident ps) ∪ list_to_set (List.map p_key ps).

(** [v] is what [_validate_placeholder_value] returned for some input
    and some placeholder of the index. *)
Definition validated (ps : list placeholder) (v : string) : Prop :=
  exists p input,
    In p ps /\ Validator._validate_placeholder_value input p = Valid v.

(** The last branch of the validator: a field that no test claims. *)
Definition plain_text_field (p : placeholder) : bool :=
  let name := Route.name_of p in
  let t := p_type p in
  negb (Validator.is_email_field name t) &&
  negb (Validator.is_month_number_field name t) &&
  negb (Validator.is_date_field name t) &&
  negb (Validator.is_address_field name t) &&
  negb (Validator.is_amount_field name t) &&
  negb (Validator.is_percentage_field name t) &&
  negb (Validator.is_phone_field name) &&
  negb (Validator.is_number_field name t).

(** A character other than the thousands separator. *)
Definition not_comma (c : ascii) : bool := negb (Ascii.eqb "," c).

(** A character that the phone branch keeps when it cleans an answer. *)
Definition phone_kept (c : ascii) : bool := negb (Validator.is_phone_punct c).

(** The placeholder [p] recorded at another location. *)
Definition moved (location : location_t) (location_type : string)
  (p : placeholder) : placeholder :=
  {| p_id := p_id p;
     p_key := p_key p;
     p_normalized_key := p_normalized_key p;
     p_name := p_name p;
     p_original := p_original p;
     p_type := p_type p;
     p_pattern_type := p_pattern_type p;
     p_location := location;
     p_location_type := location_type;
     p_position := p_position p;
     p_context := p_context p |}.

(** ** The language of the e-mail pattern

    The texts that [[a-zA-Z0-9._%+-]+@[a-zA-Z0-9.-]+\.[a-zA-Z]{2,}]
    matches from end to end: a local part, [@], a domain, a dot and a
    top-level name of two letters or more. *)
Definition email_shape (s : string) : Prop :=
  exists loc dom tld,
    s = loc +:+ "@" +:+ dom +:+ "." +:+ tld /\
    loc <> "" /\ PyStr.forallb Re.email_local_char loc = true /\
    dom <> "" /\ PyStr.forallb Re.email_domain_char dom = true /\
    (2 <= String.length tld)%nat /\ PyStr.forallb PyStr.isalpha tld = true.

(** ** Keys, contexts and groups: [placeholder_detector.py] *)

Module DetectorTools.

Local Open Scope Z_scope.

(** *** [_generate_normalized_key] *)

(** A character of [[a-z0-9]]. *)
Definition is_key_alnum (c : ascii) : bool := PyStr.islower_c c || PyStr.isdecimal c.

(** [re.sub(r'[^a-z0-9]+', '_', key)]; [in_run] tells that the character
    before belongs to the run being replaced. *)
Fixpoint squash (in_run : bool) (s : string) : string :=
  match s with
  | "" => ""
  | String c s' =>
      if is_key_alnum c then String c (squash false s')
      else if in_run then squash true s'
      else String "_" (squash true s')
  end.

(** [s.lstrip(x)], [s.rstrip(x)] and [s.strip(x)] for a one-character [x] *)
Fixpoint lstrip_char (x : ascii) (s : string) : string :=
  match s with
  | String c s' => if Ascii.eqb c x then lstrip_char x s' else s
  | "" => ""
  end.

Fixpoint rstrip_char (x : ascii) (s : string) : string :=
  match s with
  | "" => ""
  | String c s' =>
      match rstrip_char x s' with
      | "" => if Ascii.eqb c x then "" else String c ""
      | r => String c r
      end
  end.

Definition strip_char (x : ascii) (s : string) : string :=
  rstrip_char x (lstrip_char x s).

Definition key_mappings : list (string * string) :=
  [ ("company_name", "company_name");
    ("company", "company_name");
    ("investor_name", "investor_name");
    ("investor", "investor_name");
    ("purchase_amount", "purchase_amount");
    ("date_of_safe", "date_of_safe");
    ("safe_date", "date_of_safe");
    ("state_of_incorporation", "state_of_incorporation");
    ("valuation_cap", "valuation_cap");
    ("valuation_cap_amount", "valuation_cap");
    ("post_money_valuation_cap", "valuation_cap");
    ("postmoney_valuation_cap", "valuation_cap");
    ("governing_law_jurisdiction", "governing_law_jurisdiction");
    ("governing_law", "governing_law_jurisdiction");
    ("name", "signatory_name");
    ("title", "signatory_title") ].

(** The key before the table of variations is consulted. *)
Definition clean_key (name : string) : string :=
  let key := PyStr.strip (PyStr.lower name) in
  let key := squash false key in
  strip_char "_" key.

(** [_generate_normalized_key(name)] *)
Definition _generate_normalized_key (name : string) : string :=
  let key := clean_key name in
  default key (Validator.assoc key key_mappings).

(** [unique_key = f"{normalized_key}_{location}"] of
    [_find_placeholders_in_text] *)
Definition unique_key (normalized_key : string) (location : location_t) : string :=
  normalized_key +:+ "_" +:+ Render.str_location location.

(** [_generate_placeholder_key(name, location)] *)
Definition _generate_placeholder_key (name : string) (location : option location_t)
  : string :=
  let key := PyStr.lower name in
  let key := squash false key in
  let key := strip_char "_" key in
  let key := if String.eqb key "" then "placeholder" else key in
  match location with
  | Some l => key +:+ "_" +:+ Render.str_location l
  | None => key
  end.

(** *** [_extract_context] *)

(** [s[a:b]] for integers [a] and [b] *)
Definition py_slice (s : string) (a b : Z) : string :=
  let n := Z.of_nat (String.length s) in
  let clip i := if i <? 0 then Z.max 0 (i + n) else Z.min i n in
  PyStr.take (Z.to_nat (clip b - clip a)) (PyStr.drop (Z.to_nat (clip a)) s).

(** [_extract_context(text, position, context_size)] *)
Definition _extract_context (text : string) (position : Z * Z) (context_size : Z)
  : string :=
  let '(start, end_) := position in
  let context_start := Z.max 0 (start - context_size) in
  let context_end := Z.min (Z.of_nat (String.length text)) (end_ + context_size) in
  let context := py_slice text context_start context_end in
  let context := if 0 <? context_start then "..." +:+ context else context in
  if context_end <? Z.of_nat (String.length text) then context +:+ "..." else context.

(** *** [validate_placeholder_format] *)

(** The four entries the function reads; [None] when the dictionary has
    no such key. *)
Record format_input := {
  f_key : option string;
  f_name : option string;
  f_original : option string;
  f_type : option string;
}.

Definition of_placeholder (p : placeholder) : format_input :=
  {| f_key := Some (p_key p);
     f_name := Some (p_name p);
     f_original := Some (p_original p);
     f_type := Some (p_type p) |}.

Record format_result := {
  valid : bool;
  issues : list string;
  warnings : list string;
}.

Definition valid_types : list string :=
  ["company"; "person"; "date"; "amount"; "percentage";
   "address"; "contact"; "number"; "signature"; "text"].

Definition is_key_char (c : ascii) : bool := is_key_alnum c || Ascii.eqb c "_".

(** [re.match(r'^[a-z0-9_]+$', key)] *)
Definition key_format (key : string) : bool :=
  Re.dollar (fun s => negb (String.eqb s "") && PyStr.forallb is_key_char s) key.

Definition missing (field_name : string) (entry : option string) : list string :=
  match entry with
  | None => ["Missing required field: " +:+ field_name]
  | Some _ => []
  end.

Definition validate_placeholder_format (x : format_input) : format_result :=
  let issues :=
    (missing "key" (f_key x) ++ missing "name" (f_name x) ++
     missing "original" (f_original x) ++ missing "type" (f_type x))%list in
  let key_warnings :=
    match f_key x with
    | Some key =>
        if negb (key_format key)
        then ["Key contains invalid characters: " +:+ key] else []
    | None => []
    end in
  let name_warnings :=
    match f_name x with
    | Some name =>
        ((if (String.length name <? 2)%nat
          then ["Placeholder name is too short"] else []) ++
         (if (50 <? String.length name)%nat
          then ["Placeholder name is too long"] else []))%list
    | None => []
    end in
  let type_warnings :=
    match f_type x with
    | Some t =>
        if negb (Render.in_list t valid_types)
        then ["Unknown type: " +:+ t] else []
    | None => []
    end in
  {| valid := match issues with [] => true | _ => false end;
     issues := issues;
     warnings := (key_warnings ++ name_warnings ++ type_warnings)%list |}.

(** *** [group_related_placeholders] *)

Definition group_names : list string :=
  ["company_info"; "personal_info"; "dates"; "financial";
   "contact"; "addresses"; "legal_terms"; "other"].

(** The group that the chain of tests picks for a placeholder. *)
Definition group_of (p : placeholder) : string :=
  let placeholder_type := p_type p in
  let name_lower := PyStr.lower (p_name p) in
  if String.eqb placeholder_type "company" then "company_info"
  else if String.eqb placeholder_type "person" then "personal_info"
  else if String.eqb placeholder_type "date" then "dates"
  else if Render.in_list placeholder_type ["amount"; "percentage"; "number"]
  then "financial"
  else if String.eqb placeholder_type "contact" then "contact"
  else if String.eqb placeholder_type "address" then "addresses"
  else if PyStr.contains_any ["governing"; "jurisdiction"; "law"; "notice"] name_lower
  then "legal_terms"
  else "other".

(** [groups[k].append(p)] *)
Fixpoint append_to (k : string) (p : placeholder)
  (groups : list (string * list placeholder)) : list (string * list placeholder) :=
  match groups with
  | [] => []
  | (k', l) :: rest =>
      if String.eqb k' k then (k', (l ++ [p])%list) :: rest
      else (k', l) :: append_to k p rest
  end.

Definition is_empty_group (kv : string * list placeholder) : bool :=
  match snd kv with [] => true | _ => false end.

Definition group_related_placeholders (ps : list placeholder)
  : list (string * list placeholder) :=
  let groups :=
    fold_left (fun groups p => append_to (group_of p) p groups) ps
      (List.map (fun k => (k, [])) group_names) in
  List.filter (fun kv => negb (is_empty_group kv)) groups.

End DetectorTools.

(** A text over [[a-z0-9_]] in which no underscore follows another;
    [in_run] tells that the character before is an underscore. *)
Fixpoint well_squashed (in_run : bool) (s : string) : bool :=
  match s with
  | "" => true
  | String c s' =>
      if DetectorTools.is_key_alnum c then well_squashed false s'
      else Ascii.eqb c "_" && negb in_run && well_squashed true s'
  end.

(** The placeholders of [ps] that the chain of tests sends to group [k],
    in the order of [ps]. *)
Definition members (k : string) (ps : list placeholder) : list placeholder :=
  List.filter (fun p => String.eqb (DetectorTools.group_of p) k) ps.

(** ** Upload names and markup *)

Module Web.

(** [ALLOWED_EXTENSIONS] of [app.py] *)
Definition ALLOWED_EXTENSIONS : list string := ["docx"; "doc"].

(** [allowed_file(filename)]:
    ['.' in filename and filename.rsplit('.', 1)[1].lower() in ALLOWED_EXTENSIONS] *)
Definition allowed_file (filename : string) : bool :=
  PyStr.contains "." filename &&
  match Re.split_last "." filename with
  | Some (_, extension) => Render.in_list (PyStr.lower extension) ALLOWED_EXTENSIONS
  | None => false
  end.

(** [DocumentProcessor._escape_html(text, preserve_spans)] *)
Definition _escape_html (text : string) (preserve_spans : bool) : string :=
  if negb preserve_spans then
    let text := PyStr.replace_all "&" "&amp;" text in
    let text := PyStr.replace_all "<" "&lt;" text in
    let text := PyStr.replace_all ">" "&gt;" text in
    let text := PyStr.replace_all Msg.dq "&quot;" text in
    PyStr.replace_all "'" "&#39;" text
  else text.

(** The entity that stands for one character. *)
Definition entity (c : ascii) : string :=
  if Ascii.eqb c "&" then "&amp;"
  else if Ascii.eqb c "<" then "&lt;"
  else if Ascii.eqb c ">" then "&gt;"
  else if Ascii.eqb c (ascii_of_nat 34) then "&quot;"
  else if Ascii.eqb c "'" then "&#39;"
  else String c "".

(** A character that markup gives a meaning to, the ampersand apart. *)
Definition is_markup (c : ascii) : bool :=
  Ascii.eqb c "<" || Ascii.eqb c ">" || Ascii.eqb c (ascii_of_nat 34) ||
  Ascii.eqb c "'".

(** [get_token_from_request(request)], from the [Authorization] header
    ([None] when the request has none) *)
Fixpoint split_sep_go (sep : string) (cur : string) (s : string) (skip : nat)
  : list string :=
  match s with
  | "" => [String.rev cur]
  | String c s' =>
      match skip with
      | S k => split_sep_go sep cur s' k
      | O =>
          if PyStr.startswith s sep
          then String.rev cur :: split_sep_go sep "" s' (String.length sep - 1)
          else split_sep_go sep (String c cur) s' 0
      end
  end.

(** [s.split(sep)] for a non-empty [sep] *)
Definition split_sep (sep s : string) : list string := split_sep_go sep "" s 0.

Definition get_token_from_request (auth_header : option string) : option string :=
  match auth_header with
  | None => None
  | Some h =>
      if String.eqb h "" then None
      else if PyStr.startswith h "Bearer "
      then nth_error (split_sep "Bearer " h) 1
      else None
  end.

End Web.

(** ** SessionManager: the in-memory store of [session_manager.py]

    The model is the manager with [use_redis] false.  A session
    dictionary is an object: [get_session] hands out the stored object,
    the handlers change it in place and [save_session] stores the object
    it is given, so the model keeps a heap of objects and the store
    holds references.  The store is the dictionary [fallback_store] in
    insertion order; besides the sessions it holds, under the key
    ['history'], the dictionary of the history lists.  A session id
    equal to that key is outside the model: every operation returns
    [None] for it.  Time stamps are arguments: each is one reading of
    [datetime.now().isoformat()]. *)

Module SessionManager.

Definition ref := nat.

(** A session dictionary as [upload_document] builds it. *)
Record sdata := {
  sd_session : session;
  sd_filename : string;
  sd_status : string;
  sd_created_at : option string;
  sd_last_accessed_at : option string;
  sd_user_id : option string;
}.

(** The ['data'] of a history entry. *)
Inductive hdata :=
| HSession (r : ref)
| HCreated (filename : string) (placeholders_count : nat)
           (session_id : string) (user_id : option string)
| HEmpty.

Record hentry := {
  h_timestamp : string;
  h_event_type : string;
  h_data : hdata;
}.

Inductive slot :=
| SHistory (h : gmap string (list hentry))
| SSession (r : ref).

Record manager := {
  heap : gmap ref sdata;
  fallback_store : list (string * slot);
}.

Definition empty : manager := {| heap := ∅; fallback_store := [] |}.

(** *** Dictionaries in insertion order *)

Fixpoint dict_get {A : Type} (k : string) (d : list (string * A)) : option A :=
  match d with
  | [] => None
  | (k', v) :: r => if String.eqb k' k then Some v else dict_get k r
  end.

Fixpoint dict_set {A : Type} (k : string) (v : A) (d : list (string * A))
  : list (string * A) :=
  match d with
  | [] => [(k, v)]
  | (k', v') :: r =>
      if String.eqb k' k then (k', v) :: r else (k', v') :: dict_set k v r
  end.

Fixpoint dict_del {A : Type} (k : string) (d : list (string * A))
  : list (string * A) :=
  match d with
  | [] => []
  | (k', v') :: r => if String.eqb k' k then r else (k', v') :: dict_del k r
  end.

(** [l[:limit]] *)
Definition py_take {A : Type} (limit : Z) (l : list A) : list A :=
  if (limit <? 0)%Z then firstn (Z.to_nat (Z.of_nat (length l) + limit)) l
  else firstn (Z.to_nat limit) l.

(** *** [add_history(session_id, event_type, data)] *)

Definition history_of (m : manager) : option (gmap string (list hentry)) :=
  match dict_get "history" (fallback_store m) with
  | None => Some ∅
  | Some (SHistory h) => Some h
  | Some (SSession _) => None
  end.

Definition add_history (session_id event_type : string) (data : hdata)
  (now : string) (m : manager) : option manager :=
  if String.eqb session_id "history" then None
  else
    match history_of m with
    | None => None
    | Some h =>
        let history_entry :=
          {| h_timestamp := now; h_event_type := event_type; h_data := data |} in
        let history_list := history_entry :: default [] (h !! session_id) in
        let history_list :=
          if (100 <? length history_list)%nat
          then firstn 100 history_list else history_list in
        Some {| heap := heap m;
                fallback_store :=
                  dict_set "history" (SHistory (<[ session_id := history_list ]> h))
                    (fallback_store m) |}
    end.

(** *** [save_session(session_id, data, user_id)]

    [data] is the object [r]; [now] is read first, [now_h] inside
    [add_history].  The result is the manager and the value returned. *)
Definition save_session (session_id : string) (r : ref) (user_id : option string)
  (now now_h : string) (m : manager) : option (manager * bool) :=
  match heap m !! r with
  | None => None
  | Some d =>
      let d :=
        {| sd_session := sd_session d;
           sd_filename := sd_filename d;
           sd_status := sd_status d;
           sd_created_at :=
             match sd_created_at d with Some t => Some t | None => Some now end;
           sd_last_accessed_at := Some now;
           sd_user_id :=
             match user_id with
             | Some u => if String.eqb u "" then sd_user_id d else Some u
             | None => sd_user_id d
             end |} in
      let m := {| heap := <[ r := d ]> (heap m); fallback_store := fallback_store m |} in
      match add_history session_id "session_updated" (HSession r) now_h m with
      | None => None
      | Some m =>
          Some ({| heap := heap m;
                   fallback_store := dict_set session_id (SSession r) (fallback_store m) |},
                true)
      end
  end.

(** *** [get_session(session_id)] *)
Definition get_session (session_id : string) (now : string) (m : manager)
  : option (manager * option ref) :=
  if String.eqb session_id "history" then None
  else
    match dict_get session_id (fallback_store m) with
    | Some (SSession r) =>
        match heap m !! r with
        | Some d =>
            let d :=
              {| sd_session := sd_session d;
                 sd_filename := sd_filename d;
                 sd_status := sd_status d;
                 sd_created_at := sd_created_at d;
                 sd_last_accessed_at := Some now;
                 sd_user_id := sd_user_id d |} in
            Some ({| heap := <[ r := d ]> (heap m);
                     fallback_store := fallback_store m |}, Some r)
        | None => None
        end
    | Some (SHistory _) => None
    | None => Some (m, None)
    end.

(** *** [delete_session(session_id)] *)
Definition delete_session (session_id : string) (now : string) (m : manager)
  : option (manager * bool) :=
  match add_history session_id "session_deleted" HEmpty now m with
  | None => None
  | Some m =>
      Some ({| heap := heap m;
               fallback_store := dict_del session_id (fallback_store m) |}, true)
  end.

(** *** [get_session_history(session_id, limit)] *)
Definition get_session_history (session_id : string) (limit : Z) (m : manager)
  : option (list hentry) :=
  if String.eqb session_id "history" then None
  else
    match history_of m with
    | None => None
    | Some h => Some (py_take limit (default [] (h !! session_id)))
    end.

(** *** [get_all_sessions(limit, user_id)] *)










(** *** The manager in use

    What [app.py] does with the manager: [upload_document] builds a new
    dictionary with both time stamps; the handlers assign
    ['filled_values'], ['current_placeholder_index'] and ['status'] of
    the dictionary that [get_session] gave them; all of them call the
    methods above.  ([cleanup_expired_sessions] is called nowhere.) *)
Definition fresh (now : string) (filename : string) (ps : list placeholder) : sdata :=
  {| sd_session :=
       {| placeholders := ps; filled_values := ∅; current_placeholder_index := 0 |};
     sd_filename := filename;
     sd_status := "active";
     sd_created_at := Some now;
     sd_last_accessed_at := Some now;
     sd_user_id := None |}.

Definition assign (body : session) (status : string) (d : sdata) : sdata :=
  {| sd_session := body;
     sd_filename := sd_filename d;
     sd_status := status;
     sd_created_at := sd_created_at d;
     sd_last_accessed_at := sd_last_accessed_at d;
     sd_user_id := sd_user_id d |}.

Inductive step : manager -> manager -> Prop :=
| step_new r now filename ps m :
    heap m !! r = None ->
    step m {| heap := <[ r := fresh now filename ps ]> (heap m);
              fallback_store := fallback_store m |}
| step_assign r d body status m :
    heap m !! r = Some d ->
    step m {| heap := <[ r := assign body status d ]> (heap m);
              fallback_store := fallback_store m |}
| step_save session_id r user_id now now_h m m' b :
    save_session session_id r user_id now now_h m = Some (m', b) -> step m m'
| step_get session_id now m m' o :
    get_session session_id now m = Some (m', o) -> step m m'
| step_delete session_id now m m' b :
    delete_session session_id now m = Some (m', b) -> step m m'
| step_history session_id event_type data now m m' :
    add_history session_id event_type data now m = Some m' -> step m m'.

(** The managers that a run of the server goes through. *)
Inductive runs : manager -> Prop :=
| runs_empty : runs empty
| runs_step m m' : runs m -> step m m' -> runs m'.


(** What every run keeps: the store is empty or starts with the history
    slot, every history list has at most 100 entries, no key is stored
    twice, and every other slot is a session dictionary that carries
    its time of last access. *)
Definition stamped (m : manager) (it : string * slot) : Prop :=
  fst it <> "history" /\
  exists r d, snd it = SSession r /\ heap m !! r = Some d /\
              sd_last_accessed_at d <> None.

Definition store_ok (m : manager) : Prop :=
  fallback_store m = [] \/
  exists h rest,
    fallback_store m = ("history", SHistory h) :: rest /\
    (forall sid l, h !! sid = Some l -> (length l <= 100)%nat) /\
    List.NoDup (List.map fst rest) /\
    Forall (stamped m) rest.

(** The entry that [add_history] writes. *)
Definition entry (now event_type : string) (data : hdata) : hentry :=
  {| h_timestamp := now; h_event_type := event_type; h_data := data |}.

End SessionManager.

(** ** Upload: the end of [upload_document]

    The handler from the point where the placeholders have been
    detected: it builds the session dictionary, saves it, reads it back,
    adds the ['session_created'] entry and prepares the answer, whose
    ['initial_message'] is the greeting.  Text outside ASCII is held as
    its UTF-8 bytes. *)

Module Upload.

Section WithQuestions.

(** [_generate_placeholder_question(placeholder, current, total)]; with
    the Groq provider its text comes from the language model. *)
Variable _generate_placeholder_question : placeholder -> nat -> nat -> string.

Definition plural (b : bool) : string := if b then "s" else "".

Definition greeting (num_fields : nat) : string :=
  let estimated_time := Nat.max 1 (num_fields / 2) in
  "👋 **Welcome to Lexsy Document Assistant!**" +:+ PyStr.nl +:+ PyStr.nl +:+
  "I've detected **" +:+ Render.str_Z (Z.of_nat num_fields) +:+ " field" +:+
  plural (negb (num_fields =? 1)%nat) +:+ "** in your document that need" +:+
  plural (num_fields =? 1)%nat +:+ " to be completed." +:+ PyStr.nl +:+ PyStr.nl +:+
  "⏱️ Estimated time: " +:+ Render.str_Z (Z.of_nat estimated_time) +:+ " minute" +:+
  plural (negb (estimated_time =? 1)%nat) +:+ PyStr.nl +:+ PyStr.nl +:+
  "I'll guide you through each field, validate your responses, and help ensure everything is filled correctly." +:+
  PyStr.nl +:+ PyStr.nl +:+ "---" +:+ PyStr.nl +:+ PyStr.nl.

(** [get_greeting_message(placeholders)]; [None] is the IndexError of
    [placeholders[0]]. *)
Definition get_greeting_message (ps : list placeholder) : option string :=
  let num_fields := length ps in
  match ps with
  | [] => None
  | first :: _ =>
      Some (greeting num_fields +:+ _generate_placeholder_question first 0 num_fields)
  end.

Record upload_response := {
  ur_session_id : string;
  ur_filename : string;
  ur_placeholders_count : nat;
  ur_placeholders : list placeholder;
  ur_message : string;
  ur_initial_message : string;
}.

(** The handler; [user_id] is what the token of the request verified
    to, [t0] to [t4] are the readings of the clock.  The new dictionary
    is a new object.  [None] is a session id outside the model of the
    manager; an exception of the handler is answered with 500. *)
Definition upload_document (session_id filename : string) (ps : list placeholder)
  (user_id : option string) (t0 t1 t2 t3 t4 : string) (m : SessionManager.manager)
  : option (SessionManager.manager * App.http upload_response) :=
  let r := fresh (dom (SessionManager.heap m)) in
  let m :=
    {| SessionManager.heap :=
         <[ r := SessionManager.fresh t0 filename ps ]> (SessionManager.heap m);
       SessionManager.fallback_store := SessionManager.fallback_store m |} in
  match SessionManager.save_session session_id r user_id t1 t2 m with
  | None => None
  | Some (m, _) =>
      match SessionManager.get_session session_id t3 m with
      | None => None
      | Some (m, _) =>
          match SessionManager.add_history session_id "session_created"
                  (SessionManager.HCreated filename (length ps) session_id user_id)
                  t4 m with
          | None => None
          | Some m =>
              match get_greeting_message ps with
              | None => Some (m, App.Err500)
              | Some initial_message =>
                  Some (m,
                        App.Ok200
                          {| ur_session_id := session_id;
                             ur_filename := filename;
                             ur_placeholders_count := length ps;
                             ur_placeholders := ps;
                             ur_message :=
                               "Document uploaded successfully. Found " +:+
                               Render.str_Z (Z.of_nat (length ps)) +:+ " placeholder" +:+
                               plural (negb (length ps =? 1)%nat) +:+ " to fill.";
                             ur_initial_message := initial_message |})
              end
          end
      end
  end.

End WithQuestions.

End Upload.

(** ** More sample sessions *)

Module Scenario.

(** The second field of [Sample.two_fields] is filled in the preview and
    then edited through its key: the pointer moves to it while the first
    field is still open. *)
Definition second_first : session :=
  snd (App.edit_field "investor_name_1" "Jane Roe"
         (snd (App.fill_field_directly "ph_77b0e4d1" "Jane Roe"
                 (initial_session Sample.two_fields)))).

(** A document whose one field counts months. *)
Definition term_months : list placeholder := [field "Term Months"].

(** A document whose one field counts shares. *)
Definition shares : list placeholder := [field "Number of Shares"].

End Scenario.

Module Markup.

(** A one-field document; the answer is a piece of markup. *)
Definition signatory : placeholder :=
  Sample.bracketed "ph_5a1d0c3e" "signatory_4" "Signatory" 4 4.

Definition answer : string := "<img src=x onerror=alert(1)>".

Definition answered : session :=
  match App.chat answer (initial_session [signatory]) with
  | Some (_, s) => s
  | None => initial_session [signatory]
  end.

(** The same field after the company field of paragraph 0; the answer
    is given through [/api/fill]. *)
Definition contract : list placeholder := [Sample.company; signatory].

Definition signed : session :=
  snd (App.fill_field_directly "ph_5a1d0c3e" answer (initial_session contract)).

End Markup.

Module Served.

(** One upload in a fresh server: the dictionary is built, saved under
    its id, read back, and the explicit history entry is added. *)
Definition built : SessionManager.manager :=
  {| SessionManager.heap :=
       <[ 0%nat := SessionManager.fresh "2025-11-01T11:44:52" "nda.docx"
                     Sample.two_fields ]> ∅;
     SessionManager.fallback_store := [] |}.

Definition saved : SessionManager.manager :=
  match SessionManager.save_session "0b9e6a52" 0%nat None
          "2025-11-01T11:44:53" "2025-11-01T11:44:54" built with
  | Some (m, _) => m
  | None => built
  end.

End Served.

(** ** Candidates as the scanner records them

    [_find_placeholders_in_text] on the text of a paragraph: the key is
    the normalised key and the location, the type comes from the
    classifier and the context is cut out of the text. *)
Module Scan.

Definition candidate_at (i name original pattern_type text : string)
  (location : location_t) (location_type : string) (start : Z) : placeholder :=
  let span := (start, start + Z.of_nat (String.length original))%Z in
  let normalized_key := DetectorTools._generate_normalized_key name in
  {| p_id := Some i;
     p_key := DetectorTools.unique_key normalized_key location;
     p_normalized_key := normalized_key;
     p_name := name;
     p_original := original;
     p_type := Classifier._identify_placeholder_type name;
     p_pattern_type := pattern_type;
     p_location := location;
     p_location_type := location_type;
     p_position := span;
     p_context := DetectorTools._extract_context text span 50 |}.

Definition candidate (i name original pattern_type text : string)
  (loc start : Z) : placeholder :=
  candidate_at i name original pattern_type text (LocInt loc) "paragraph" start.

(** [[name]] at offset [start] of paragraph [loc]. *)
Definition bracket (i name text : string) (loc start : Z) : placeholder :=
  candidate i name ("[" +:+ name +:+ "]") "square_bracket" text loc start.

(** *** A blank in square brackets, in two paragraphs

    The name of [[____]] is the text between the brackets. *)
Definition signed_by : string := "Signed by [____] for the Company".

Definition underscores_2 : placeholder := bracket "ph_41c07d9e" "____" signed_by 2 10.
Definition underscores_5 : placeholder := bracket "ph_b2a96f03" "____" signed_by 5 10.

Definition two_blanks : list placeholder := [underscores_2; underscores_5].

(** *** A dollar blank, in two paragraphs

    [$[___]] is found twice in its paragraph: by the dollar pattern,
    which infers the name from the context, and, from the bracket on,
    by the bracket pattern. *)
Definition payment : string :=
  "in exchange for the payment of $[___] by the Investor".

Definition dollar (i : string) (loc : Z) : placeholder :=
  candidate i "Purchase Amount" "$[___]" "dollar_bracket" payment loc 31.

Definition inner (i : string) (loc : Z) : placeholder :=
  bracket i "___" payment loc 32.

Definition dollar_2 : placeholder := dollar "ph_5d0c7e11" 2.
Definition dollar_5 : placeholder := dollar "ph_9e41b0a6" 5.

Definition two_dollars : list placeholder :=
  [dollar_2; inner "ph_0a6e11f4" 2; dollar_5; inner "ph_7c3d2b90" 5].

(** *** A dollar blank in a paragraph and one in a table cell

    The blank of paragraph 2 is the purchase amount; the blank in cell
    (1, 1) of table 0 is named after the valuation cap of its context. *)
Definition cap_cell : string := "Post-Money Valuation Cap: $[___]".

Definition cap : placeholder :=
  candidate_at "ph_e47a0c58" "Post-Money Valuation Cap" "$[___]" "dollar_bracket"
    cap_cell (LocStr "0-1-1") "table" 26.

Definition safe_candidates : list placeholder :=
  [dollar_2; inner "ph_0a6e11f4" 2; cap;
   candidate_at "ph_19f3c6d2" "___" "[___]" "square_bracket" cap_cell
     (LocStr "0-1-1") "table" 27].

Definition safe_index : list placeholder := [dollar_2; cap].

(** Both amounts are given through [/api/fill]. *)
Definition safe_filled : session :=
  snd (App.fill_field_directly "ph_e47a0c58" "5000000"
         (snd (App.fill_field_directly "ph_5d0c7e11" "100000"
                 (initial_session safe_index)))).

(** *** Two names with one key

    "Company" and "Company Name" normalise to the same key, so the two
    fields of paragraph 1 share the key [company_name_1]. *)
Definition parties : string := "[Company] and [Company Name] agree as follows.".

Definition title_company : placeholder :=
  bracket "ph_3f9a1c02" "Company Name" "[Company Name]" 0 0.
Definition short_company : placeholder :=
  bracket "ph_8e20b7aa" "Company" parties 1 0.
Definition long_company : placeholder :=
  bracket "ph_c51d4f36" "Company Name" parties 1 14.
Definition the_investor : placeholder :=
  bracket "ph_77b0e4d1" "Investor Name" "Investor: [Investor Name]" 2 10.

Definition shared_key : list placeholder :=
  [title_company; short_company; long_company; the_investor].

End Scan.

(** * Properties *)

Local Arguments String.append !_ _ / : simpl nomatch.

(** Two messages are told apart by their first bytes. *)
Ltac differ n :=
  let H := fresh in
  intros H; apply (f_equal (PyStr.take n)) in H; vm_compute in H; discriminate H.

(** ** The primitives on sample inputs *)

Example lower_example : PyStr.lower "Term Months" = "term months".
Proof. reflexivity. Qed.

Example strip_example : PyStr.strip "  12/31/2024 " = "12/31/2024".
Proof. reflexivity. Qed.

Example normalize_ws_example : PyStr.normalize_ws "Acme   Holdings  LLC" = "Acme Holdings LLC".
Proof. reflexivity. Qed.

Example title_example : PyStr.title "new york" = "New York".
Proof. reflexivity. Qed.

Example replace_first_example :
  PyStr.replace_first "$[_]" "X" "a $[_] b $[_]" = "a X b $[_]".
Proof. reflexivity. Qed.

Example replace_all_example : PyStr.replace_all "aa" "b" "aaaaa" = "bba".
Proof. reflexivity. Qed.

(** The cross mark of the messages is three bytes of UTF-8. *)
Example cross_mark_bytes : String.length "❌" = 3.
Proof. reflexivity. Qed.

(** [float], [repr] and the format specifications on sample inputs. *)

Example repr_examples :
  float_repr "20" = Some "20.0" /\
  float_repr "0.1" = Some "0.1" /\
  float_repr "1e16" = Some "1e+16" /\
  float_repr "123456789.123456789" = Some "123456789.12345679" /\
  float_repr "0.00001" = Some "1e-05" /\
  float_repr "1_000.5" = Some "1000.5" /\
  float_repr " -inf " = Some "-inf" /\
  float_repr "1,000" = None /\
  float_repr "12/31" = None.
Proof. repeat split; vm_compute; reflexivity. Qed.

Example product_examples :
  (fun x => PyFloat.repr (PyFloat.mul x (PyFloat.of_Z 100))) <$> PyFloat.of_string "0.2"
    = Some "20.0" /\
  (fun x => PyFloat.repr (PyFloat.mul x (PyFloat.of_Z 100))) <$> PyFloat.of_string "0.07"
    = Some "7.000000000000001".
Proof. repeat split; vm_compute; reflexivity. Qed.

Example format_examples :
  PyFloat.format_fixed false 2 <$> PyFloat.of_string "250.5" = Some "250.50" /\
  PyFloat.format_fixed true 0 <$> PyFloat.of_string "1234567.5" = Some "1,234,568" /\
  PyFloat.format_fixed true 0 <$> PyFloat.of_string "1000.5" = Some "1,000" /\
  PyFloat.format_int_grouped 1000000 = "1,000,000" /\
  PyFloat.repr (PyFloat.round_nd 1
                  (PyFloat.mul (PyFloat.int_truediv 2 3) (PyFloat.of_Z 100))) = "66.7".
Proof. repeat split; vm_compute; reflexivity. Qed.

(** ** Facts about strings *)


Lemma forallb_app (f : ascii -> bool) (a b : string) :
  PyStr.forallb f (a +:+ b) = PyStr.forallb f a && PyStr.forallb f b.
Proof.
  induction a as [|c a IH]; simpl; [reflexivity|].
  rewrite IH. now rewrite andb_assoc.
Qed.

Lemma existsb_app (f : ascii -> bool) (a b : string) :
  PyStr.existsb f (a +:+ b) = PyStr.existsb f a || PyStr.existsb f b.
Proof.
  induction a as [|c a IH]; simpl; [reflexivity|].
  rewrite IH. now rewrite orb_assoc.
Qed.

Lemma app_empty_r (a : string) : a +:+ "" = a.
Proof. induction a as [|c a IH]; simpl; congruence. Qed.

Lemma app_assoc_s (a b c : string) : (a +:+ b) +:+ c = a +:+ (b +:+ c).
Proof. induction a as [|x a IH]; simpl; congruence. Qed.

Lemma app_length_s (a b : string) :
  String.length (a +:+ b) = String.length a + String.length b.
Proof. induction a as [|x a IH]; simpl; congruence. Qed.

Lemma app_inv_tail_s (a b c : string) : a +:+ c = b +:+ c -> a = b.
Proof.
  revert b. induction a as [|x a IH]; intros [|y b] H; simpl in *.
  - reflexivity.
  - apply (f_equal String.length) in H. simpl in H.
    rewrite app_length_s in H. lia.
  - apply (f_equal String.length) in H. simpl in H.
    rewrite app_length_s in H. lia.
  - injection H as -> H. f_equal. now apply IH.
Qed.

Lemma startswith_app (p s : string) : PyStr.startswith (p +:+ s) p = true.
Proof.
  induction p as [|c p IH]; simpl; [reflexivity|].
  rewrite Ascii.eqb_refl. exact IH.
Qed.

Lemma startswith_spec (s p : string) :
  PyStr.startswith s p = true <-> exists r, s = p +:+ r.
Proof.
  revert s. induction p as [|c p IH]; intros s; simpl.
  - split; [intros _; now exists s | reflexivity].
  - destruct s as [|d s].
    + split; [discriminate | intros [r Hr]; discriminate].
    + rewrite andb_true_iff, Ascii.eqb_eq, IH. split.
      * intros [-> [r ->]]. now exists r.
      * intros [r Hr]. injection Hr as -> ->. split; [reflexivity | now exists r].
Qed.

Lemma drop_app_length (p s : string) : PyStr.drop (String.length p) (p +:+ s) = s.
Proof. induction p as [|c p IH]; simpl; [reflexivity | exact IH]. Qed.

(** A text that does not hold [old] is left alone by [replace(old, new, 1)]. *)
Lemma replace_first_absent (old new s : string) :
  PyStr.contains old s = false -> PyStr.replace_first old new s = s.
Proof.
  unfold PyStr.replace_first.
  induction s as [|c s IH]; simpl; intros H.
  - apply orb_false_iff in H as [H _].
    destruct old; [discriminate | reflexivity].
  - apply orb_false_iff in H as [H1 H2].
    rewrite H1. f_equal. now apply IH.
Qed.


(** ** ValueValidator *)


(** [repr] of a float always shows a decimal point, an exponent, or is
    [inf] or [nan]: it is never a bare run of digits. *)
Lemma repr_has_point (x : spec_float) :
  PyStr.forallb PyStr.isdecimal (PyFloat.repr x) = false.
Proof.
  destruct x as [s|s| |s m e]; simpl.
  - destruct s; reflexivity.
  - destruct s; reflexivity.
  - reflexivity.
  - destruct (PyFloat.shortest s m e) as [ds decpt].
    repeat match goal with
           | |- context [if ?c then _ else _] => destruct c
           end;
    rewrite ?forallb_app; simpl;
    repeat (rewrite ?forallb_app; simpl; rewrite ?andb_false_r);
    try reflexivity; destruct s; simpl; rewrite ?andb_false_r; reflexivity.
Qed.

Lemma percentage_output (value : string) :
  Validator.validate_percentage value =
  match PyFloat.of_string (Route.percentage_cleaned value) with
  | Some x => Valid (PyFloat.repr (Route.percentage_shown x) +:+ "%")
  | None => Invalid Msg.percentage
  end.
Proof.
  unfold Validator.validate_percentage, Route.percentage_cleaned, Route.percentage_shown.
  destruct (PyFloat.of_string _) as [x|]; [|reflexivity].
  destruct (_ && _); [reflexivity|].
  destruct (PyFloat.leb x _); reflexivity.
Qed.

(** The whole chain, branch by branch. *)
Lemma validate_unfold (value : string) (p : placeholder) :
  Validator._validate_placeholder_value value p =
  let name := Route.name_of p in
  let t := p_type p in
  let v := PyStr.strip value in
  if String.eqb v "" then Invalid Msg.required
  else if Validator.is_email_field name t then Validator.validate_email v
  else if Validator.is_month_number_field name t
  then Validator.validate_month_number (p_name p) v
  else if Validator.is_date_field name t then Validator.validate_date v
  else if Validator.is_address_field name t then Validator.validate_address name v
  else if Validator.is_amount_field name t then Validator.validate_amount v
  else if Validator.is_percentage_field name t then Validator.validate_percentage v
  else if Validator.is_phone_field name then Validator.validate_phone v
  else if Validator.is_number_field name t then Validator.validate_number v
  else Valid (PyStr.normalize_ws v).
Proof. reflexivity. Qed.

Lemma month_group_range (a b : ascii) :
  Re.month_group a b = true ->
  (1 <= PyFloat.digits_val (String a (String b "")) <= 12)%Z.
Proof.
  unfold Re.month_group, Re.in_range, PyFloat.digits_val, PyFloat.digit_val.
  simpl PyFloat.digits_val_go.
  rewrite orb_true_iff, !andb_true_iff, !Ascii.eqb_eq, !Nat.leb_le.
  intros [[-> H]|[-> H]]; unfold PyFloat.digit_val;
    change (nat_of_ascii "0") with 48%nat; change (nat_of_ascii "1") with 49%nat; lia.
Qed.

Lemma day_group_range (a b : ascii) :
  Re.day_group a b = true ->
  (1 <= PyFloat.digits_val (String a (String b "")) <= 31)%Z.
Proof.
  unfold Re.day_group, Re.in_range, PyFloat.digits_val, PyFloat.digit_val.
  simpl PyFloat.digits_val_go.
  rewrite !orb_true_iff, !andb_true_iff, !Ascii.eqb_eq, !Nat.leb_le.
  intros [[[-> H]|[H1 H2]]|[-> H]]; unfold PyFloat.digit_val;
    change (nat_of_ascii "0") with 48%nat; change (nat_of_ascii "3") with 51%nat; lia.
Qed.

Lemma date_full_groups (s g1 g2 g3 : string) :
  Re.date_full s = Some (g1, g2, g3) ->
  (1 <= PyFloat.digits_val g1 <= 12)%Z /\ (1 <= PyFloat.digits_val g2 <= 31)%Z.
Proof.
  unfold Re.date_full.
  do 10 (destruct s as [|? s]; [discriminate|]).
  destruct s; [|discriminate].
  destruct (_ && _) eqn:E; [|discriminate].
  intros [= <- <- <-].
  rewrite !andb_true_iff in E.
  destruct E as [[[[[[[Hm _] Hd] _] _] _] _] _].
  split; [now apply month_group_range | now apply day_group_range].
Qed.

Lemma date_groups (s g1 g2 g3 : string) :
  Re.date s = Some (g1, g2, g3) ->
  (1 <= PyFloat.digits_val g1 <= 12)%Z /\ (1 <= PyFloat.digits_val g2 <= 31)%Z.
Proof.
  unfold Re.date.
  destruct (Re.date_full s) as [[[a b] c]|] eqn:E.
  - intros [= <- <- <-]. eapply date_full_groups, E.
  - destruct (Re.chomp s) as [t|]; [|discriminate].
    apply date_full_groups.
Qed.

(** Whatever the text, the date branch accepts it or answers with the
    format message: the month and day tests that follow the pattern
    never fire. *)
Lemma validate_date_outcomes (value : string) :
  Validator.validate_date value = Valid value \/
  Validator.validate_date value = Invalid Msg.bad_format.
Proof.
  unfold Validator.validate_date.
  destruct (Re.date value) as [[[g1 g2] g3]|] eqn:E; [|now right].
  apply date_groups in E as [Hm Hd].
  destruct (Z.ltb_spec (PyFloat.digits_val g1) 1); [lia|].
  destruct (Z.ltb_spec 12 (PyFloat.digits_val g1)); [lia|].
  destruct (Z.ltb_spec (PyFloat.digits_val g2) 1); [lia|].
  destruct (Z.ltb_spec 31 (PyFloat.digits_val g2)); [lia|].
  now left.
Qed.

(** Every error message the validator can return. *)
Lemma validate_messages (value : string) (p : placeholder) (msg : string) :
  Validator._validate_placeholder_value value p = Invalid msg ->
  In msg [Msg.required; Msg.email; Msg.month_number (p_name p);
          Msg.month_positive (p_name p); Msg.bad_format; Msg.amount;
          Msg.percentage; Msg.phone; Msg.number].
Proof.
  rewrite validate_unfold. cbv zeta.
  set (v := PyStr.strip value).
  destruct (String.eqb v ""); [intros [= <-]; simpl; tauto|].
  destruct (Validator.is_email_field _ _).
  { unfold Validator.validate_email. destruct (Re.email v); [discriminate|].
    intros [= <-]; simpl; tauto. }
  destruct (Validator.is_month_number_field _ _).
  { unfold Validator.validate_month_number.
    destruct (PyFloat.of_string _) as [x|]; [|intros [= <-]; simpl; tauto].
    destruct (PyFloat.leb x _); [intros [= <-]; simpl; tauto|].
    destruct (PyFloat.to_int x) as [[]|z]; try discriminate.
    intros [= <-]; simpl; tauto. }
  destruct (Validator.is_date_field _ _).
  { destruct (validate_date_outcomes v) as [-> | ->]; [discriminate|].
    intros [= <-]; simpl; tauto. }
  destruct (Validator.is_address_field _ _).
  { unfold Validator.validate_address.
    destruct (_ || _); [|discriminate].
    destruct (Validator.assoc _ _); [discriminate|].
    destruct (_ =? _)%nat; discriminate. }
  destruct (Validator.is_amount_field _ _).
  { unfold Validator.validate_amount.
    destruct (PyFloat.of_string _) as [x|]; [|intros [= <-]; simpl; tauto].
    destruct (negb _); [discriminate|].
    destruct (PyFloat.leb _ x); discriminate. }
  destruct (Validator.is_percentage_field _ _).
  { unfold Validator.validate_percentage.
    destruct (PyFloat.of_string _) as [x|]; [|intros [= <-]; simpl; tauto].
    destruct (_ && _); [discriminate|].
    destruct (PyFloat.leb x _); discriminate. }
  destruct (Validator.is_phone_field _).
  { unfold Validator.validate_phone.
    destruct (_ || _); [intros [= <-]; simpl; tauto|].
    destruct (_ =? _)%nat; discriminate. }
  destruct (Validator.is_number_field _ _).
  { unfold Validator.validate_number.
    destruct (PyFloat.of_string _) as [x|]; [|intros [= <-]; simpl; tauto].
    destruct (PyFloat.leb _ x); [|discriminate].
    destruct (PyFloat.to_int x) as [[]|z]; try discriminate.
    - intros [= <-]; simpl; tauto.
    - destruct (PyFloat.eq_int x z); discriminate. }
  discriminate.
Qed.

Lemma bad_month_not_returned (name : string) :
  ~ In Msg.bad_month
      [Msg.required; Msg.email; Msg.month_number name; Msg.month_positive name;
       Msg.bad_format; Msg.amount; Msg.percentage; Msg.phone; Msg.number].
Proof.
  simpl. intros [H|[H|[H|[H|[H|[H|[H|[H|[H|[]]]]]]]]]]; revert H;
    first [differ 6 | differ 12].
Qed.

Lemma bad_day_not_returned (name : string) :
  ~ In Msg.bad_day
      [Msg.required; Msg.email; Msg.month_number name; Msg.month_positive name;
       Msg.bad_format; Msg.amount; Msg.percentage; Msg.phone; Msg.number].
Proof.
  simpl. intros [H|[H|[H|[H|[H|[H|[H|[H|[H|[]]]]]]]]]]; revert H;
    first [differ 6 | differ 12].
Qed.



Lemma route_month_number (value : string) (p : placeholder) :
  Route.month_number p = true ->
  Validator._validate_placeholder_value value p =
  if String.eqb (PyStr.strip value) "" then Invalid Msg.required
  else Validator.validate_month_number (p_name p) (PyStr.strip value).
Proof.
  unfold Route.month_number. rewrite andb_true_iff, negb_true_iff.
  intros [He Hm]. rewrite validate_unfold. cbv zeta.
  now rewrite He, Hm.
Qed.

Lemma route_amount (value : string) (p : placeholder) :
  Route.amount p = true ->
  Validator._validate_placeholder_value value p =
  if String.eqb (PyStr.strip value) "" then Invalid Msg.required
  else Validator.validate_amount (PyStr.strip value).
Proof.
  unfold Route.amount. rewrite !andb_true_iff, !negb_true_iff.
  intros [[[[He Hm] Hd] Ha] Hamt]. rewrite validate_unfold. cbv zeta.
  now rewrite He, Hm, Hd, Ha, Hamt.
Qed.

Lemma route_percentage (value : string) (p : placeholder) :
  Route.percentage p = true ->
  Validator._validate_placeholder_value value p =
  if String.eqb (PyStr.strip value) "" then Invalid Msg.required
  else Validator.validate_percentage (PyStr.strip value).
Proof.
  unfold Route.percentage. rewrite !andb_true_iff, !negb_true_iff.
  intros [[[[[He Hm] Hd] Ha] Hamt] Hp]. rewrite validate_unfold. cbv zeta.
  now rewrite He, Hm, Hd, Ha, Hamt, Hp.
Qed.

(** C6.  Percentage validation strips the per-cent sign, keeps a value in
    (1,100] and multiplies a value of at most 1 by 100, and suffixes the
    per-cent sign; but the number is printed as Python prints a float.
    The raw inputs 20 and 0.2 on the field Discount Rate are both stored
    as [20.0%], and no input at all is stored as a bare run of digits
    followed by the per-cent sign. *)
Theorem percentage_is_printed_as_float :
  Route.percentage (field "Discount Rate") = true /\
  Validator._validate_placeholder_value "20" (field "Discount Rate") = Valid "20.0%" /\
  Validator._validate_placeholder_value "0.2" (field "Discount Rate") = Valid "20.0%" /\
  Validator._validate_placeholder_value "20%" (field "Discount Rate") = Valid "20.0%" /\
  (forall value,
      Validator.validate_percentage value =
      match PyFloat.of_string (Route.percentage_cleaned value) with
      | Some x => Valid (PyFloat.repr (Route.percentage_shown x) +:+ "%")
      | None => Invalid Msg.percentage
      end) /\
  (forall value digits,
      Validator.validate_percentage value = Valid (digits +:+ "%") ->
      PyStr.forallb PyStr.isdecimal digits = false).
Proof.
  do 4 (split; [vm_compute; reflexivity|]).
  split; [apply percentage_output|].
  intros value digits. rewrite percentage_output.
  destruct (PyFloat.of_string _) as [x|]; [|discriminate].
  intros [= H]. apply app_inv_tail_s in H. rewrite <-H. apply repr_has_point.
Qed.

(** C7.  The date pattern is strict MM/DD/YYYY and nothing is
    autocorrected: a text is stored as it stands or rejected.  But a
    rejected date gets one message whatever is wrong with it: month 13 and
    day 32 get the format message, and the validator never returns the
    month message or the day message. *)
Theorem date_rejection_has_one_message :
  Route.date (field "Effective Date") = true /\
  Validator._validate_placeholder_value "13/01/2024" (field "Effective Date")
    = Invalid Msg.bad_format /\
  Validator._validate_placeholder_value "12/32/2024" (field "Effective Date")
    = Invalid Msg.bad_format /\
  Validator._validate_placeholder_value "1/5/2024" (field "Effective Date")
    = Invalid Msg.bad_format /\
  Validator._validate_placeholder_value "12/31/2024" (field "Effective Date")
    = Valid "12/31/2024" /\
  (forall value,
      Validator.validate_date value = Valid value \/
      Validator.validate_date value = Invalid Msg.bad_format) /\
  (forall value p,
      Validator._validate_placeholder_value value p <> Invalid Msg.bad_month /\
      Validator._validate_placeholder_value value p <> Invalid Msg.bad_day).
Proof.
  do 5 (split; [vm_compute; reflexivity|]).
  split; [apply validate_date_outcomes|].
  intros value p. split; intros H; apply validate_messages in H.
  - exact (bad_month_not_returned _ H).
  - exact (bad_day_not_returned _ H).
Qed.

Lemma month_number_never_date_message (name value msg : string) :
  Validator.validate_month_number name value = Invalid msg ->
  ~ In msg Route.date_messages.
Proof.
  unfold Validator.validate_month_number, Route.date_messages.
  assert (Hn : ~ In (Msg.month_number name) [Msg.bad_format; Msg.bad_month; Msg.bad_day]).
  { simpl. intros [H|[H|[H|[]]]]; revert H; differ 12. }
  assert (Hp : ~ In (Msg.month_positive name) [Msg.bad_format; Msg.bad_month; Msg.bad_day]).
  { simpl. intros [H|[H|[H|[]]]]; revert H; differ 12. }
  destruct (PyFloat.of_string _) as [x|]; [|intros [= <-]; exact Hn].
  destruct (PyFloat.leb x _); [intros [= <-]; exact Hp|].
  destruct (PyFloat.to_int x) as [[]|z]; try discriminate.
  intros [= <-]; exact Hn.
Qed.

(** C8.  The month/number test comes before the date test.  The field
    Term Months is typed number and accepts 12 as [12]; the field
    Effective Date is typed date and rejects 12 with the format message;
    and a field that reaches the month/number test is decided by the
    number rule alone, so none of its answers is a date message, even for
    a text that is a well-formed date. *)
Theorem month_number_is_checked_before_date :
  Classifier._identify_placeholder_type "Term Months" = "number" /\
  Validator._validate_placeholder_value "12" (field "Term Months") = Valid "12" /\
  Classifier._identify_placeholder_type "Effective Date" = "date" /\
  Validator._validate_placeholder_value "12" (field "Effective Date")
    = Invalid Msg.bad_format /\
  Validator._validate_placeholder_value "12/31/2024" (field "Term Months")
    = Invalid (Msg.month_number "Term Months") /\
  (forall value p,
      Route.month_number p = true ->
      Validator._validate_placeholder_value value p =
        (if String.eqb (PyStr.strip value) "" then Invalid Msg.required
         else Validator.validate_month_number (p_name p) (PyStr.strip value)) /\
      forall msg,
        Validator._validate_placeholder_value value p = Invalid msg ->
        ~ In msg Route.date_messages).
Proof.
  do 5 (split; [vm_compute; reflexivity|]).
  intros value p Hr. split; [now apply route_month_number|].
  intros msg. rewrite (route_month_number _ _ Hr).
  destruct (String.eqb _ _).
  - intros [= <-]. unfold Route.date_messages. simpl.
    intros [H|[H|[H|[]]]]; revert H; differ 6.
  - apply month_number_never_date_message.
Qed.

(** Amount validation removes the dollar sign and the commas, rejects a
    text that [float] cannot read, and prints every accepted amount of
    at least 1000 with a leading dollar sign through the format
    [,.0f]. *)
Lemma amount_outcomes :
  (forall value,
      PyFloat.of_string (Route.amount_cleaned value) = None <->
      Validator.validate_amount value = Invalid Msg.amount) /\
  (forall value amount,
      PyFloat.of_string (Route.amount_cleaned value) = Some amount ->
      PyFloat.leb (PyFloat.of_Z 1000) amount = true ->
      Validator.validate_amount value
        = Valid ("$" +:+ PyFloat.format_fixed true 0 amount)) /\
  (forall value amount,
      PyFloat.of_string (Route.amount_cleaned value) = Some amount ->
      exists out, Validator.validate_amount value = Valid out /\
                  PyStr.startswith out "$" = true).
Proof.
  unfold Validator.validate_amount, Route.amount_cleaned.
  split; [|split].
  - intros value. split.
    + intros ->. reflexivity.
    + destruct (PyFloat.of_string _); [|reflexivity].
      destruct (negb _); [discriminate|]. destruct (PyFloat.leb _ _); discriminate.
  - intros value amount -> ->. now destruct (negb _).
  - intros value amount ->.
    destruct (negb (PyStr.startswith value "$")) eqn:E.
    + eexists; split; [reflexivity|]. now destruct (PyFloat.leb _ _).
    + destruct (PyFloat.leb _ _); eexists; (split; [reflexivity|]); [reflexivity|].
      apply negb_false_iff in E.
      apply startswith_spec in E as [r ->]. reflexivity.
Qed.

(** C9.  Amount validation accepts what [float] reads, and [float] reads
    more than numbers: [nan] is stored as [$nan], and [inf], [Infinity]
    and [1e999], which are at least 1000, as [$inf] with no separator.
    The amounts 100000, [$100,000] and 250.5 are stored as [$100,000],
    [$100,000] and [$250.50], and a text that [float] refuses gets the
    message that asks for numbers only. *)
Theorem amount_accepts_what_is_no_number :
  Route.amount (field "Purchase Amount") = true /\
  Validator._validate_placeholder_value "nan" (field "Purchase Amount")
    = Valid "$nan" /\
  Validator._validate_placeholder_value "inf" (field "Purchase Amount")
    = Valid "$inf" /\
  Validator._validate_placeholder_value "Infinity" (field "Purchase Amount")
    = Valid "$inf" /\
  Validator._validate_placeholder_value "1e999" (field "Purchase Amount")
    = Valid "$inf" /\
  Validator._validate_placeholder_value "$nan" (field "Purchase Amount")
    = Valid "$nan" /\
  (exists amount,
      PyFloat.of_string "inf" = Some amount /\
      PyFloat.leb (PyFloat.of_Z 1000) amount = true) /\
  Validator._validate_placeholder_value "100000" (field "Purchase Amount")
    = Valid "$100,000" /\
  Validator._validate_placeholder_value "$100,000" (field "Purchase Amount")
    = Valid "$100,000" /\
  Validator._validate_placeholder_value "250.5" (field "Purchase Amount")
    = Valid "$250.50" /\
  Validator._validate_placeholder_value "one hundred" (field "Purchase Amount")
    = Invalid Msg.amount /\
  Validator._validate_placeholder_value
    ("$" +:+ String (ascii_of_nat 160) "100") (field "Purchase Amount")
    = Valid ("$" +:+ String (ascii_of_nat 160) "100").
Proof.
  do 6 (split; [vm_compute; reflexivity|]).
  split. { eexists. split; vm_compute; reflexivity. }
  do 4 (split; [vm_compute; reflexivity|]).
  vm_compute. reflexivity.
Qed.


(** ** FillProgressTracker *)


Lemma in_dict_dom (k : string) (fv : gmap string string) :
  in_dict k fv = true <-> k ∈ dom fv.
Proof.
  unfold in_dict. rewrite elem_of_dom.
  destruct (fv !! k); split; intros H; try done; eauto; by destruct H.
Qed.

Lemma in_set_true (k : string) (s : gset string) : in_set k s = true <-> k ∈ s.
Proof. unfold in_set. apply bool_decide_eq_true. Qed.

Lemma in_set_false (k : string) (s : gset string) : in_set k s = false <-> k ∉ s.
Proof. unfold in_set. apply bool_decide_eq_false. Qed.

(** [find_index] returns the first position that passes the test. *)
Lemma find_index_some {A : Type} (f : A -> bool) (l : list A) (n : nat) :
  find_index f l = Some n ->
  (exists x, l !! n = Some x /\ f x = true) /\
  (forall j y, j < n -> l !! j = Some y -> f y = false).
Proof.
  revert n. induction l as [|x l IH]; intros n; simpl; [discriminate|].
  destruct (f x) eqn:E.
  - intros [= <-]. split; [eauto|]. intros j y Hj. lia.
  - destruct (find_index f l) as [m|]; [|discriminate].
    intros [= <-]. destruct (IH m eq_refl) as [[y [Hy Hf]] Hlt].
    split; [exists y; auto|].
    intros [|j] z Hj; simpl.
    + by intros [= <-].
    + apply Hlt. lia.
Qed.

Lemma find_index_none {A : Type} (f : A -> bool) (l : list A) :
  find_index f l = None -> forall y, y ∈ l -> f y = false.
Proof.
  induction l as [|x l IH]; simpl; intros H y Hy.
  - by apply elem_of_nil in Hy.
  - destruct (f x) eqn:E; [discriminate|].
    destruct (find_index f l); [discriminate|].
    apply elem_of_cons in Hy as [-> | Hy]; auto.
Qed.

(** The scan of [fill_field_directly]. *)
Lemma next_unfilled_spec (keys : gset string) (ps : list placeholder) :
  first_unfilled keys ps (App.next_unfilled keys ps).
Proof.
  unfold first_unfilled, App.next_unfilled, recorded.
  destruct (find_index _ ps) as [n|] eqn:E.
  - apply find_index_some in E as [[p [Hp Hf]] Hlt].
    rewrite andb_true_iff, !negb_true_iff, !in_set_false in Hf.
    split; [exists p; split; [done|tauto]|].
    intros j q Hj Hq. specialize (Hlt j q Hj Hq).
    rewrite andb_false_iff, !negb_false_iff, !in_set_true in Hlt. tauto.
  - intros q Hq. pose proof (find_index_none _ _ E q Hq) as Hf.
    rewrite andb_false_iff, !negb_false_iff, !in_set_true in Hf. tauto.
Qed.

Lemma add_auto_fill_keys_mono ps afs (acc : gset string) :
  acc ⊆ AIService.add_auto_fill_keys ps afs acc.
Proof.
  revert acc. induction afs as [|af afs IH]; intros acc; simpl; [done|].
  etrans; [|apply IH].
  destruct (List.find _ ps); set_solver.
Qed.

Lemma add_auto_fill_keys_union ps afs (acc : gset string) :
  AIService.add_auto_fill_keys ps afs acc = auto_fill_keys ps afs ∪ acc.
Proof.
  unfold auto_fill_keys.
  revert acc. induction afs as [|af afs IH]; intros acc; simpl.
  - set_solver.
  - rewrite IH. symmetry. rewrite IH.
    destruct (List.find _ ps); set_solver.
Qed.

(** The set that [process_message] scans against: the keys already
    stored, the id just answered, and the keys of the auto-fills. *)
Lemma all_filled_keys_eq fv placeholder_id ps afs :
  AIService.all_filled_keys fv placeholder_id ps afs
  = dom fv ∪ {[ placeholder_id ]} ∪ auto_fill_keys ps afs.
Proof.
  unfold AIService.all_filled_keys. rewrite add_auto_fill_keys_union. set_solver.
Qed.

(** The scan of [process_message]. *)
Lemma next_index_of_spec fv placeholder_id ps afs :
  first_unfilled (AIService.all_filled_keys fv placeholder_id ps afs) ps
    (AIService.next_index_of (AIService.all_filled_keys fv placeholder_id ps afs) fv ps).
Proof.
  set (keys := AIService.all_filled_keys fv placeholder_id ps afs).
  assert (Hsub : dom fv ⊆ keys).
  { unfold keys. rewrite all_filled_keys_eq. set_solver. }
  assert (Hscan : forall p, AIService.scan_is_filled keys fv p = true <-> recorded keys p).
  { intros p. unfold AIService.scan_is_filled, recorded.
    rewrite !orb_true_iff, !in_set_true, !in_dict_dom. set_solver. }
  unfold first_unfilled, AIService.next_index_of.
  destruct (find_index _ ps) as [n|] eqn:E.
  - apply find_index_some in E as [[p [Hp Hf]] Hlt].
    split.
    + exists p. split; [done|]. rewrite <-Hscan.
      apply negb_true_iff in Hf. by rewrite Hf.
    + intros j q Hj Hq. apply Hscan.
      specialize (Hlt j q Hj Hq). by apply negb_false_iff in Hlt.
  - intros q Hq. apply Hscan.
    pose proof (find_index_none _ _ E q Hq) as Hf. by apply negb_false_iff in Hf.
Qed.



Lemma apply_auto_fills_dom ps afs (fv : gmap string string) :
  dom (App.apply_auto_fills afs fv) ⊆ dom fv ∪ auto_fill_keys ps afs.
Proof.
  unfold App.apply_auto_fills, auto_fill_keys.
  revert fv. induction afs as [|af afs IH]; intros fv; simpl; [set_solver|].
  etrans; [apply IH|]. rewrite dom_insert.
  destruct (List.find _ ps); rewrite !add_auto_fill_keys_union; set_solver.
Qed.

Lemma fill_field_directly_next field_key value s r s' :
  App.fill_field_directly field_key value s = (App.Ok200 r, s') ->
  placeholders s' = placeholders s /\
  App.fr_filled_values r = filled_values s' /\
  App.fr_next_index r = App.next_unfilled (dom (filled_values s')) (placeholders s).
Proof.
  unfold App.fill_field_directly.
  destruct (String.eqb field_key ""); [discriminate|].
  destruct (List.find _ _) as [p|]; [|discriminate].
  destruct (Validator._validate_placeholder_value _ p) as [v|m|e]; try discriminate.
  destruct (App.fill_auto_fill _ _ _ _ _) as [fv names].
  intros [= <- <-]. simpl. auto.
Qed.

(** Both scans start at position 0 and stop at the first entry whose id
    and key are absent from a set of keys.  For [fill_field_directly]
    the set holds the keys of the updated dictionary; for
    [process_message] it holds the stored keys, the id just answered,
    and the id and the key of every auto-filled placeholder, which is
    more than [chat] stores. *)
Lemma next_pointer_scans_from_zero :
  (forall field_key value s r s',
      App.fill_field_directly field_key value s = (App.Ok200 r, s') ->
      first_unfilled (dom (filled_values s')) (placeholders s') (App.fr_next_index r)) /\
  (forall message ps fv current_index placeholder_id value afs next,
      AIService.process_message message ps fv current_index
        = AIService.Filled placeholder_id value afs next ->
      let keys := dom fv ∪ {[ placeholder_id ]} ∪ auto_fill_keys ps afs in
      first_unfilled keys ps next /\
      dom (App.apply_auto_fills afs (<[ placeholder_id := value ]> fv)) ⊆ keys) /\
  App.fr_next_index <$>
    (match fst (App.fill_field_directly "ph_77b0e4d1" "Jane Roe"
                  (initial_session Sample.two_fields)) with
     | App.Ok200 r => Some r
     | _ => None
     end) = Some (Some 0).
Proof.
  split; [|split].
  - intros field_key value s r s' H.
    apply fill_field_directly_next in H as (Hps & _ & ->).
    rewrite Hps. apply next_unfilled_spec.
  - intros message ps fv ci pid value afs next H keys.
    unfold AIService.process_message in H.
    destruct (nth_error ps _) as [p|]; [|discriminate].
    destruct (Validator._validate_placeholder_value _ p) as [v|m|e]; try discriminate.
    injection H as <- <- <- <-.
    split.
    + unfold keys. rewrite <-all_filled_keys_eq. apply next_index_of_spec.
    + etrans; [apply (apply_auto_fills_dom ps)|].
      unfold keys. rewrite dom_insert. set_solver.
  - vm_compute. reflexivity.
Qed.

(** C3.  After a chat answer the pointer is not always the first
    unfilled field.  In the index of a document whose paragraph 1 reads
    "[Company] and [Company Name] ...", the two fields of that paragraph
    share the key [company_name_1].  The answer to the company field of
    paragraph 0 fills the "Company Name" of paragraph 1 with it;
    [process_message] counts the key of that field as filled, while
    [chat] stores the value under its id only, and the pointer goes to
    entry 3 past "Company" at entry 1, which has no value.  On the same
    input [fill_field_directly] returns 1.  What holds of both scans: an
    entry that the pointer selects has no value in the updated
    dictionary. *)
Theorem chat_pointer_skips_a_shared_key :
  Detector.detect_placeholders Scan.shared_key = Scan.shared_key /\
  List.map p_key Scan.shared_key
    = ["company_name_0"; "company_name_1"; "company_name_1"; "investor_name_2"] /\
  AIService.process_message "Acme Inc" Scan.shared_key ∅ 0
    = AIService.Filled "ph_3f9a1c02" "Acme Inc"
        [ {| AIService.af_key := "ph_c51d4f36";
             AIService.af_value := "Acme Inc";
             AIService.af_name := "Company Name" |} ]
        (Some 3%nat) /\
  option_map
    (fun rs => (current_placeholder_index (snd rs),
                map_to_list (filled_values (snd rs)),
                is_filled (filled_values (snd rs)) Scan.short_company))
    (App.chat "Acme Inc" (initial_session Scan.shared_key))
    = Some (3%nat,
            [("ph_3f9a1c02", "Acme Inc"); ("ph_c51d4f36", "Acme Inc")],
            false) /\
  nth_error Scan.shared_key 1 = Some Scan.short_company /\
  (match App.fill_field_directly "ph_3f9a1c02" "Acme Inc"
           (initial_session Scan.shared_key) with
   | (App.Ok200 r, s') =>
       Some (App.fr_next_index r, map_to_list (filled_values s'))
   | _ => None
   end)
    = Some (Some 1%nat,
            [("ph_3f9a1c02", "Acme Inc"); ("ph_c51d4f36", "Acme Inc")]) /\
  (forall message ps fv current_index placeholder_id value afs n,
      AIService.process_message message ps fv current_index
        = AIService.Filled placeholder_id value afs (Some n) ->
      exists p,
        ps !! n = Some p /\
        is_filled (App.apply_auto_fills afs (<[ placeholder_id := value ]> fv)) p
          = false) /\
  (forall field_key value s r s',
      App.fill_field_directly field_key value s = (App.Ok200 r, s') ->
      first_unfilled (dom (filled_values s')) (placeholders s') (App.fr_next_index r)).
Proof.
  do 6 (split; [vm_compute; reflexivity|]).
  split.
  - intros message ps fv ci pid value afs n H.
    destruct (proj1 (proj2 next_pointer_scans_from_zero)
                message ps fv ci pid value afs (Some n) H) as [[(p & Hp & Hr) _] Hsub].
    exists p. split; [exact Hp|].
    unfold is_filled. apply orb_false_iff.
    split; apply not_true_is_false; rewrite in_dict_dom; intros Hin; apply Hr;
      [left | right]; apply Hsub; exact Hin.
  - exact (proj1 next_pointer_scans_from_zero).
Qed.


Lemma reachable_fill_all ps ids s :
  reachable ps s -> reachable ps (Sample.fill_all ids s).
Proof.
  unfold Sample.fill_all. revert s.
  induction ids as [|i ids IH]; intros s Hs; simpl; [done|].
  apply IH. eapply reach_fill; [exact Hs|]. apply surjective_pairing.
Qed.

Lemma complete_document_gate s :
  (exists m n u, App.complete_document s = App.IncompleteDocument m n u) <->
  size (filled_values s) < length (placeholders s).
Proof.
  unfold App.complete_document.
  destruct (Nat.ltb_spec (size (filled_values s)) (length (placeholders s))).
  - split; [done|]. intros _. eauto.
  - split; [|lia]. intros (m & n & u & Hd). discriminate.
Qed.

(** C1.  [complete_document] compares the number of dictionary entries
    with the number of placeholders, and lists as missing every
    placeholder whose key is not a dictionary key.  After one field of a
    two-field document is edited through its key, the dictionary has two
    entries and the document is composed although the other field is
    unfilled.  With nine of ten fields filled through their ids the
    request is refused, but the message names five filled fields and not
    the missing one, and all ten are reported unfilled. *)
Theorem completion_gate_counts_entries :
  (reachable Sample.two_fields Sample.edited_by_key /\
   is_filled (filled_values Sample.edited_by_key) Sample.investor = false /\
   App.complete_document Sample.edited_by_key
     = App.Compose Sample.two_fields (filled_values Sample.edited_by_key)) /\
  (reachable Sample.ten_fields Sample.nine_of_ten /\
   List.filter (fun p => negb (is_filled (filled_values Sample.nine_of_ten) p))
     Sample.ten_fields = [Sample.party 9] /\
   App.complete_document Sample.nine_of_ten
     = App.IncompleteDocument
         ("Please fill all placeholders before downloading. Still missing: " +:+
          "Party 0, Party 1, Party 2, Party 3, Party 4...")
         10 Sample.ten_fields) /\
  (forall s,
      (exists m n u, App.complete_document s = App.IncompleteDocument m n u) <->
      size (filled_values s) < length (placeholders s)).
Proof.
  split; [|split].
  - split; [|split].
    + eapply reach_edit; [apply reach_upload|]. apply surjective_pairing.
    + vm_compute. reflexivity.
    + vm_compute. reflexivity.
  - split; [|split].
    + apply reachable_fill_all, reach_upload.
    + vm_compute. reflexivity.
    + vm_compute. reflexivity.
  - apply complete_document_gate.
Qed.

(** The auto-fill loop of [edit_field] writes the value under the id of
    every other placeholder of the same name, filled or not. *)
Lemma edit_auto_fill_lookup pid name v ps (fv : gmap string string) k :
  App.edit_auto_fill pid name v ps fv !! k =
  if List.existsb (fun q => negb (String.eqb (ident q) pid) &&
                            String.eqb (p_name q) name &&
                            String.eqb (ident q) k) ps
  then Some v else fv !! k.
Proof.
  revert fv. induction ps as [|q ps IH]; intros fv; simpl; [done|].
  destruct (negb (String.eqb (ident q) pid) && String.eqb (p_name q) name) eqn:E; simpl.
  - rewrite IH. destruct (List.existsb _ ps); [by rewrite orb_true_r|].
    rewrite orb_false_r. destruct (String.eqb_spec (ident q) k) as [->|Hne].
    + by rewrite lookup_insert_eq.
    + by rewrite lookup_insert_ne.
  - apply IH.
Qed.

(** The auto-fill loop of [fill_field_directly] leaves every key that is
    already in the dictionary as it is. *)
Lemma fill_auto_fill_frame pid name v ps (fv : gmap string string) k :
  k ∈ dom fv ->
  (App.fill_auto_fill pid name v ps fv).1 !! k = fv !! k.
Proof.
  revert fv. induction ps as [|q ps IH]; intros fv Hk; simpl; [done|].
  destruct (_ && _) eqn:E.
  - rewrite !andb_true_iff, !negb_true_iff in E. destruct E as [_ Hq].
    assert (Hne : ident q <> k).
    { intros <-. apply in_dict_dom in Hk. congruence. }
    specialize (IH (<[ident q := v]> fv)).
    destruct (App.fill_auto_fill _ _ _ ps _) as [fv' names]. simpl in *.
    rewrite IH; [by rewrite lookup_insert_ne|].
    rewrite dom_insert. set_solver.
  - by apply IH.
Qed.

Lemma fill_field_directly_frame field_key value s r s' k :
  App.fill_field_directly field_key value s = (App.Ok200 r, s') ->
  k ∈ dom (filled_values s) ->
  (forall p, List.find (App.matches_field field_key) (placeholders s) = Some p ->
             k <> ident p) ->
  filled_values s' !! k = filled_values s !! k.
Proof.
  unfold App.fill_field_directly.
  destruct (String.eqb field_key ""); [discriminate|].
  destruct (List.find _ _) as [p|]; [|discriminate].
  destruct (Validator._validate_placeholder_value _ p) as [v|m|e]; try discriminate.
  intros H Hk Hne.
  pose proof (fill_auto_fill_frame (ident p) (p_name p) v (placeholders s)
                (<[ident p := v]> (filled_values s)) k) as Hf.
  destruct (App.fill_auto_fill _ _ _ _ _) as [fv names].
  injection H as <- <-. simpl in *.
  rewrite Hf; [|rewrite dom_insert; set_solver].
  apply lookup_insert_ne. symmetry. by apply Hne.
Qed.

Lemma edit_field_changes field_key value s r s' p k :
  App.edit_field field_key value s = (App.Ok200 r, s') ->
  List.find (App.matches_field field_key) (placeholders s) = Some p ->
  filled_values s' !! k <> filled_values s !! k ->
  k = ident p \/ k = field_key \/
  exists q, In q (placeholders s) /\ p_name q = p_name p /\ ident q = k.
Proof.
  unfold App.edit_field.
  destruct (String.eqb field_key ""); [discriminate|].
  intros H Hp. rewrite Hp in H.
  destruct (Validator._validate_placeholder_value _ p) as [v|m|e]; try discriminate.
  injection H as <- <-. simpl. rewrite edit_auto_fill_lookup.
  destruct (List.existsb _ _) eqn:E.
  - intros _. right; right.
    apply List.existsb_exists in E as (q & Hq & Hc).
    rewrite !andb_true_iff, !String.eqb_eq in Hc.
    exists q. tauto.
  - intros Hk.
    destruct (decide (k = ident p)) as [->|H1]; [by left|].
    destruct (decide (k = field_key)) as [->|H2]; [by right; left|].
    exfalso. apply Hk.
    destruct (negb _); rewrite ?lookup_insert_ne; auto.
Qed.

(** C4.  [edit_field] re-validates and overwrites, and touches no key
    but the id of the edited field, the identifier it was addressed by,
    and the ids of the placeholders of the same name; but it writes the
    new value to every same-named sibling, filled or not.  In a document
    whose two Notice fields hold different values, editing the first one
    overwrites the second, where [fill_field_directly] on the same
    request keeps it, as it keeps every key already in the dictionary
    other than the id of the field it fills. *)
Theorem edit_overwrites_filled_siblings :
  (reachable Sample.twice Sample.twice_filled /\
   filled_values Sample.twice_filled !! "ph_a0000009" = Some "12 Elm Road" /\
   filled_values (App.edit_field "ph_a0000003" "5 Oak Lane" Sample.twice_filled).2
     !! "ph_a0000009" = Some "5 Oak Lane" /\
   filled_values (App.fill_field_directly "ph_a0000003" "5 Oak Lane" Sample.twice_filled).2
     !! "ph_a0000009" = Some "12 Elm Road") /\
  (forall field_key value s r s' p k,
      App.edit_field field_key value s = (App.Ok200 r, s') ->
      List.find (App.matches_field field_key) (placeholders s) = Some p ->
      filled_values s' !! k <> filled_values s !! k ->
      k = ident p \/ k = field_key \/
      exists q, In q (placeholders s) /\ p_name q = p_name p /\ ident q = k) /\
  (forall field_key value s r s' k,
      App.fill_field_directly field_key value s = (App.Ok200 r, s') ->
      k ∈ dom (filled_values s) ->
      (forall p, List.find (App.matches_field field_key) (placeholders s) = Some p ->
                 k <> ident p) ->
      filled_values s' !! k = filled_values s !! k).
Proof.
  split; [|split].
  - split; [|split; [|split]]; try (vm_compute; reflexivity).
    eapply reach_fill; [eapply reach_fill; [apply reach_upload|]|];
      apply surjective_pairing.
  - apply edit_field_changes.
  - apply fill_field_directly_frame.
Qed.

Lemma edit_field_stores_both field_key value s r s' p :
  App.edit_field field_key value s = (App.Ok200 r, s') ->
  List.find (App.matches_field field_key) (placeholders s) = Some p ->
  exists v,
    Validator._validate_placeholder_value (PyStr.strip value) p = Valid v /\
    filled_values s' !! ident p = Some v /\
    filled_values s' !! field_key = Some v /\
    App.er_filled_count r = size (filled_values s') /\
    App.er_total_count r = length (placeholders s).
Proof.
  unfold App.edit_field.
  destruct (String.eqb field_key ""); [discriminate|].
  intros H Hp. rewrite Hp in H.
  destruct (Validator._validate_placeholder_value _ p) as [v|m|e]; try discriminate.
  injection H as <- <-. simpl. exists v.
  rewrite !edit_auto_fill_lookup.
  split; [done|]. split; [|split; [|done]].
  - destruct (List.existsb _ _); [done|].
    destruct (String.eqb_spec (ident p) field_key) as [->|Hne]; simpl.
    + by rewrite lookup_insert_eq.
    + rewrite lookup_insert_ne by done. by rewrite lookup_insert_eq.
  - destruct (List.existsb _ _); [done|].
    destruct (String.eqb_spec (ident p) field_key) as [->|Hne]; simpl;
      by rewrite lookup_insert_eq.
Qed.

(** C10.  When [edit_field] is addressed by a key that differs from the
    id, the accepted value is stored under the id and under the key, and
    the counts sent back are the number of dictionary entries over the
    number of placeholders.  A one-field document edited through its key
    is a reachable session that reports 2 filled of 1 and a progress of
    200.0 per cent, and [fill_field_directly] on that session reports the
    same. *)
Theorem filled_count_can_exceed_total :
  (forall field_key value s r s' p,
      App.edit_field field_key value s = (App.Ok200 r, s') ->
      List.find (App.matches_field field_key) (placeholders s) = Some p ->
      exists v,
        Validator._validate_placeholder_value (PyStr.strip value) p = Valid v /\
        filled_values s' !! ident p = Some v /\
        filled_values s' !! field_key = Some v /\
        App.er_filled_count r = size (filled_values s') /\
        App.er_total_count r = length (placeholders s)) /\
  (exists r,
      reachable Sample.one_field Sample.one_edited_by_key /\
      App.edit_field "company_name_0" "Acme Inc" (initial_session Sample.one_field)
        = (App.Ok200 r, Sample.one_edited_by_key) /\
      App.er_filled_count r = 2 /\ App.er_total_count r = 1 /\
      App.er_progress_percentage r = NFloat (PyFloat.of_Z 200) /\
      number_gt_100 (App.er_progress_percentage r) = true) /\
  (exists r s',
      App.fill_field_directly "ph_3f9a1c02" "Acme Inc" Sample.one_edited_by_key
        = (App.Ok200 r, s') /\
      App.fr_filled_count r = 2 /\ App.fr_total_count r = 1 /\
      number_gt_100 (App.fr_progress_percentage r) = true).
Proof.
  split; [apply edit_field_stores_both|]. split.
  - eexists. split; [|split].
    + eapply reach_edit; [apply reach_upload|]. apply surjective_pairing.
    + vm_compute. reflexivity.
    + repeat split; vm_compute; reflexivity.
  - eexists _, _. split; [vm_compute; reflexivity|].
    repeat split; vm_compute; reflexivity.
Qed.


(** ** ContextDisambiguator *)

Import Detector.



Lemma no_underscore_app (a b : string) :
  no_underscore a -> no_underscore b -> no_underscore (a +:+ b).
Proof.
  unfold no_underscore. rewrite existsb_app. now intros -> ->.
Qed.

Lemma string_of_uint_no_underscore (d : Decimal.uint) :
  no_underscore (NilEmpty.string_of_uint d).
Proof. unfold no_underscore. induction d; simpl; auto. Qed.

Lemma dec_of_Z_no_underscore (z : Z) : no_underscore (PyFloat.dec_of_Z z).
Proof.
  unfold PyFloat.dec_of_Z, NilZero.string_of_uint.
  destruct (N.to_uint _); try apply string_of_uint_no_underscore; reflexivity.
Qed.

Lemma str_int_no_underscore (z : Z) : no_underscore (PyFloat.str_int z).
Proof.
  unfold PyFloat.str_int. apply no_underscore_app.
  - now destruct (z <? 0)%Z.
  - apply dec_of_Z_no_underscore.
Qed.

Lemma table_location_no_underscore (t r c : nat) :
  no_underscore (Render.table_location t r c).
Proof.
  unfold Render.table_location, Render.str_Z.
  apply no_underscore_app; [apply str_int_no_underscore|].
  apply no_underscore_app; [reflexivity|].
  apply no_underscore_app; [apply str_int_no_underscore|].
  apply no_underscore_app; [reflexivity|].
  apply str_int_no_underscore.
Qed.

Lemma string_of_uint_inj (d d' : Decimal.uint) :
  NilEmpty.string_of_uint d = NilEmpty.string_of_uint d' -> d = d'.
Proof.
  intros H. apply (f_equal NilEmpty.uint_of_string) in H.
  rewrite !NilEmpty.usu in H. congruence.
Qed.

Lemma N_to_uint_nonnil (n : N) : N.to_uint n <> Decimal.Nil.
Proof.
  destruct n; simpl; [discriminate|]. apply DecimalPos.Unsigned.to_uint_nonnil.
Qed.

Lemma dec_of_Z_inj (a b : Z) :
  (0 <= a)%Z -> (0 <= b)%Z -> PyFloat.dec_of_Z a = PyFloat.dec_of_Z b -> a = b.
Proof.
  unfold PyFloat.dec_of_Z, NilZero.string_of_uint. intros Ha Hb H.
  pose proof (N_to_uint_nonnil (Z.to_N a)) as Na.
  pose proof (N_to_uint_nonnil (Z.to_N b)) as Nb.
  assert (E : N.to_uint (Z.to_N a) = N.to_uint (Z.to_N b)).
  { destruct (N.to_uint (Z.to_N a)) eqn:Ea; [congruence|..];
      destruct (N.to_uint (Z.to_N b)) eqn:Eb; try congruence;
      apply string_of_uint_inj; exact H. }
  apply DecimalN.Unsigned.to_uint_inj in E. lia.
Qed.

Lemma str_int_nonneg (z : Z) : (0 <= z)%Z -> PyFloat.str_int z = PyFloat.dec_of_Z z.
Proof.
  intros H. unfold PyFloat.str_int.
  destruct (Z.ltb_spec z 0); [lia|]. simpl. now rewrite Z.abs_eq.
Qed.

(** The text after the last underscore. *)
Lemma split_last_none (a : string) :
  no_underscore a -> Re.split_last "_" a = None.
Proof.
  unfold no_underscore. induction a as [|c a IH]; [reflexivity|].
  cbn [PyStr.existsb Re.split_last].
  intros H. apply orb_false_iff in H as [Hc Ha].
  rewrite (IH Ha). rewrite Ascii.eqb_sym in Hc. rewrite Hc. reflexivity.
Qed.

Lemma split_last_app (s a : string) :
  no_underscore a -> Re.split_last "_" (s +:+ String "_" a) = Some (s, a).
Proof.
  intros Ha. induction s as [|c s IH]; cbn [String.append Re.split_last].
  - rewrite (split_last_none a Ha). rewrite Ascii.eqb_refl. reflexivity.
  - rewrite IH. reflexivity.
Qed.




Lemma signature_shape (p : placeholder) :
  exists pre,
    signature p =
    (pre +:+ String "_" (p_location_type p)) +:+
    String "_" (Render.str_location (p_location p)).
Proof.
  unfold signature. cbv zeta.
  destruct (_ || _).
  - destruct (_ && _).
    + destruct (_ || _).
      { exists "purchase_amount". rewrite app_assoc_s. reflexivity. }
      destruct (_ || _).
      { exists "valuation_cap". rewrite app_assoc_s. reflexivity. }
      destruct (PyStr.contains _ _).
      { exists "valuation_cap". rewrite app_assoc_s. reflexivity. }
      exists "amount_field". rewrite app_assoc_s. reflexivity.
    + eexists. rewrite app_assoc_s. reflexivity.
  - eexists. rewrite app_assoc_s. reflexivity.
Qed.

Lemma located_no_underscore (p : placeholder) :
  located_by_detector p ->
  no_underscore (p_location_type p) /\
  no_underscore (Render.str_location (p_location p)).
Proof.
  intros [[Ht (i & Hi & Hl)] | [Ht (t & r & c & Hl)]]; rewrite Ht, Hl; simpl.
  - split; [reflexivity | apply str_int_no_underscore].
  - split; [reflexivity | apply table_location_no_underscore].
Qed.

(** Candidates with one signature stand in one paragraph or one cell. *)
Lemma signature_location (p q : placeholder) :
  located_by_detector p -> located_by_detector q ->
  signature p = signature q ->
  p_location_type p = p_location_type q /\ p_location p = p_location q.
Proof.
  intros Hp Hq E.
  destruct (signature_shape p) as [a Ea], (signature_shape q) as [b Eb].
  destruct (located_no_underscore p Hp) as [Tp Lp].
  destruct (located_no_underscore q Hq) as [Tq Lq].
  rewrite Ea, Eb in E.
  apply (f_equal (Re.split_last "_")) in E.
  rewrite !split_last_app in E by assumption.
  injection E as E1 E2.
  apply (f_equal (Re.split_last "_")) in E1.
  rewrite !split_last_app in E1 by assumption.
  injection E1 as _ E1.
  split; [exact E1|].
  destruct Hp as [[Ht (i & Hi & Hl)] | [Ht (t & r & c & Hl)]];
    destruct Hq as [[Ht' (i' & Hi' & Hl')] | [Ht' (t' & r' & c' & Hl')]];
    try (rewrite Ht, Ht' in E1; discriminate E1);
    rewrite Hl, Hl' in *; simpl in E2.
  - unfold Render.str_Z in E2. rewrite !str_int_nonneg in E2 by assumption.
    f_equal. now apply dec_of_Z_inj.
  - now f_equal.
Qed.

(** *** Grouping *)

Lemma group_add_member sg p groups :
  exists g, In (sg, g) (group_add sg p groups) /\ In p g.
Proof.
  induction groups as [|[s g] rest IH]; simpl.
  - exists [p]. simpl. auto.
  - destruct (String.eqb s sg) eqn:E.
    + apply String.eqb_eq in E as ->. exists (g ++ [p])%list. split; [now left|].
      apply in_or_app. right. now left.
    + destruct IH as (g' & H1 & H2). exists g'. auto with datatypes.
Qed.

Lemma group_add_keeps sg p groups s g :
  In (s, g) groups ->
  exists g', In (s, g') (group_add sg p groups) /\ incl g g'.
Proof.
  induction groups as [|[s0 g0] rest IH]; simpl; [tauto|].
  intros [H|H].
  - injection H as -> ->. destruct (String.eqb s sg).
    + exists (g ++ [p])%list. split; [now left|]. apply incl_appl, incl_refl.
    + exists g. split; [now left | apply incl_refl].
  - destruct (String.eqb s0 sg).
    + exists g. split; [now right | apply incl_refl].
    + destruct (IH H) as (g' & H1 & H2). exists g'. auto with datatypes.
Qed.

Lemma group_add_origin sg p groups s g :
  In (s, g) (group_add sg p groups) ->
  forall q, In q g -> (q = p /\ s = sg) \/ exists g0, In (s, g0) groups /\ In q g0.
Proof.
  induction groups as [|[s0 g0] rest IH]; simpl.
  - intros [H|[]] q Hq. injection H as <- <-. destruct Hq as [<-|[]]. now left.
  - destruct (String.eqb s0 sg) eqn:E.
    + apply String.eqb_eq in E as ->.
      intros [H|H] q Hq.
      * injection H as <- <-. apply in_app_or in Hq as [Hq|[<-|[]]].
        -- right. exists g0. auto.
        -- now left.
      * right. exists g. auto.
    + intros [H|H] q Hq.
      * injection H as <- <-. right. exists g0. auto.
      * destruct (IH H q Hq) as [?|(g1 & H1 & H2)]; [now left|].
        right. exists g1. auto.
Qed.


Lemma groups_ok_step seen groups p :
  groups_ok seen groups ->
  groups_ok (seen ++ [p]) (group_add (signature p) p groups).
Proof.
  intros [H1 H2]. split.
  - intros s g q Hin Hq.
    destruct (group_add_origin _ _ _ _ _ Hin q Hq) as [[-> ->]|(g0 & Hg0 & Hq0)].
    + split; [reflexivity|]. apply in_or_app. right. now left.
    + destruct (H1 _ _ _ Hg0 Hq0). split; [assumption|]. apply in_or_app. now left.
  - intros q Hq. apply in_app_or in Hq as [Hq|[<-|[]]].
    + destruct (H2 q Hq) as (g & Hg & Hqg).
      destruct (group_add_keeps (signature p) p groups _ _ Hg) as (g' & Hg' & Hincl).
      exists g'. auto.
    + apply group_add_member.
Qed.

Lemma build_groups_ok_gen l seen groups :
  groups_ok seen groups ->
  groups_ok (seen ++ l)
    (fold_left (fun groups p => group_add (signature p) p groups) l groups).
Proof.
  revert seen groups. induction l as [|p l IH]; intros seen groups H; simpl.
  - now rewrite app_nil_r.
  - replace (seen ++ p :: l)%list with ((seen ++ [p]) ++ l)%list
      by (rewrite <-app_assoc; reflexivity).
    apply IH, groups_ok_step, H.
Qed.

Lemma build_groups_ok all : groups_ok all (build_groups all).
Proof.
  apply (build_groups_ok_gen all [] []). split; [intros ? ? ? []|intros ? []].
Qed.

(** *** Sorting and the proximity loop *)

Lemma insert_by_start_in p l q :
  In q (insert_by_start p l) <-> q = p \/ In q l.
Proof.
  induction l as [|x l IH]; simpl.
  - intuition congruence.
  - destruct (_ <=? _)%Z; simpl; [intuition congruence|].
    rewrite IH. intuition congruence.
Qed.

Lemma sort_by_start_in l q : In q (sort_by_start l) <-> In q l.
Proof.
  induction l as [|x l IH]; simpl; [tauto|].
  rewrite insert_by_start_in, IH. intuition congruence.
Qed.


Lemma filter_group_in seen l q : In q (filter_group seen l) -> In q l.
Proof.
  revert seen. induction l as [|x l IH]; intros seen; simpl; [tauto|].
  destruct (near_seen _ _); simpl; [eauto|]. intros [->|H]; eauto.
Qed.

Lemma filter_group_seen_mono seen l pos :
  near_seen pos seen = true ->
  near_seen pos seen = true \/
  exists q, In q (filter_group seen l) /\
            (Z.abs (fst pos - fst (p_position q)) < 10)%Z.
Proof. auto. Qed.

(** Every candidate of a group is kept, or stands within ten characters
    of a position seen before or of a candidate that is kept. *)
Lemma filter_group_covers seen l p :
  In p l ->
  In p (filter_group seen l) \/
  near_seen (p_position p) seen = true \/
  exists q, In q (filter_group seen l) /\ close_to p q.
Proof.
  revert seen. induction l as [|x l IH]; intros seen; simpl; [tauto|].
  intros [->|Hp].
  - destruct (near_seen (p_position p) seen) eqn:E; [auto|]. left. now left.
  - destruct (near_seen (p_position x) seen) eqn:E.
    + apply IH, Hp.
    + destruct (IH (p_position x :: seen) Hp) as [H|[H|(q & Hq & Hc)]].
      * left. now right.
      * simpl in H. apply orb_true_iff in H as [H|H].
        -- right; right. exists x. split; [now left|].
           unfold close_to. now apply Z.ltb_lt.
        -- auto.
      * right; right. exists q. split; [now right | exact Hc].
Qed.

Lemma dedup_group_in g q : In q (dedup_group g) -> In q g.
Proof.
  destruct g as [|a [|b g]]; [simpl; tauto | simpl; tauto |].
  change (dedup_group (a :: b :: g))
    with (filter_group [] (sort_by_start (a :: b :: g))).
  intros H. apply filter_group_in in H.
  apply (proj1 (sort_by_start_in _ _)) in H. exact H.
Qed.

Lemma dedup_group_covers g p :
  In p g -> In p (dedup_group g) \/ exists q, In q (dedup_group g) /\ close_to p q.
Proof.
  intros Hp.
  assert (H : In p (filter_group [] (sort_by_start g)) \/
              exists q, In q (filter_group [] (sort_by_start g)) /\ close_to p q).
  { destruct (filter_group_covers [] (sort_by_start g) p) as [H|[H|H]]; auto.
    - apply (proj2 (sort_by_start_in _ _)). exact Hp.
    - discriminate. }
  unfold dedup_group. destruct g as [|a [|b g]]; exact H.
Qed.

(** *** The whole pass *)

Lemma smart_deduplicate_in all q :
  In q (_smart_deduplicate all) -> In q all.
Proof.
  unfold _smart_deduplicate. destruct all as [|a all]; [tauto|].
  set (l := a :: all). intros H.
  apply in_concat in H as (x & Hx & Hq).
  apply in_map_iff in Hx as ([s g] & <- & Hg). simpl in Hq.
  apply dedup_group_in in Hq.
  destruct (build_groups_ok l) as [H1 _]. now destruct (H1 _ _ _ Hg Hq).
Qed.

(** A candidate is kept, or a candidate of the same signature is kept
    within ten characters of it. *)
Lemma smart_deduplicate_covers all p :
  In p all ->
  exists q, In q (_smart_deduplicate all) /\ signature q = signature p /\
            (q = p \/ close_to p q).
Proof.
  intros Hp. unfold _smart_deduplicate.
  destruct all as [|a all]; [destruct Hp|]. set (l := a :: all) in *.
  destruct (build_groups_ok l) as [H1 H2].
  destruct (H2 p Hp) as (g & Hg & Hpg).
  assert (Hsub : forall q, In q (dedup_group g) ->
                           In q (concat (List.map (fun sg => dedup_group (snd sg))
                                           (build_groups l)))).
  { intros q Hq. apply in_concat. exists (dedup_group g). split; [|exact Hq].
    apply in_map_iff. exists (signature p, g). auto. }
  destruct (dedup_group_covers g p Hpg) as [H|(q & Hq & Hc)].
  - exists p. auto.
  - exists q. split; [auto|]. split; [|now right].
    apply dedup_group_in in Hq. now destruct (H1 _ _ _ Hg Hq).
Qed.


Lemma insert_by_key_in p l q :
  In q (insert_by_key p l) <-> q = p \/ In q l.
Proof.
  induction l as [|x l IH]; simpl.
  - intuition congruence.
  - destruct (key_le p x); simpl; [intuition congruence|].
    rewrite IH. intuition congruence.
Qed.

Lemma sort_index_in l q : In q (sort_index l) <-> In q l.
Proof.
  induction l as [|x l IH]; simpl; [tauto|].
  rewrite insert_by_key_in, IH. intuition congruence.
Qed.

(** The final index holds what deduplication keeps, but for the entries
    whose name is blank. *)
Lemma detect_placeholders_in all q :
  In q (detect_placeholders all) <->
  In q (_smart_deduplicate all) /\ is_blank_name (p_name q) = false.
Proof.
  unfold detect_placeholders, _filter_placeholders.
  rewrite filter_In, sort_index_in, negb_true_iff. reflexivity.
Qed.

(** C5.  Detection never merges candidates of different locations, but
    it drops blanks.  Two candidates that stand in different paragraphs
    or cells each leave a survivor of deduplication in their own
    location: the candidate itself, or a candidate of the same
    signature within ten characters of it.  The two survivors are
    different candidates of the input, and each of them is an entry of
    the final index exactly when its name is not blank, that is neither
    empty nor made of underscores only.  Every entry of the final index
    is a candidate with such a name; its id is the one that the scanner
    drew for it. *)
Theorem no_merge_across_locations_but_blanks_dropped
  (all : list placeholder) (p1 p2 : placeholder) :
  Forall located_by_detector all ->
  In p1 all -> In p2 all ->
  (p_location_type p1, p_location p1) <> (p_location_type p2, p_location p2) ->
  (exists q1 q2,
     In q1 (_smart_deduplicate all) /\ In q2 (_smart_deduplicate all) /\
     In q1 all /\ In q2 all /\
     (p_location_type q1, p_location q1) = (p_location_type p1, p_location p1) /\
     (p_location_type q2, p_location q2) = (p_location_type p2, p_location p2) /\
     signature q1 = signature p1 /\ signature q2 = signature p2 /\
     (q1 = p1 \/ close_to p1 q1) /\ (q2 = p2 \/ close_to p2 q2) /\
     q1 <> q2 /\
     (In q1 (detect_placeholders all) <-> is_blank_name (p_name q1) = false) /\
     (In q2 (detect_placeholders all) <-> is_blank_name (p_name q2) = false)) /\
  (forall q, In q (detect_placeholders all) ->
     In q all /\ is_blank_name (p_name q) = false).
Proof.
  intros Hall H1 H2 Hne.
  assert (S : forall p, In p all ->
            exists q, In q (_smart_deduplicate all) /\ In q all /\
              (p_location_type q, p_location q) = (p_location_type p, p_location p) /\
              signature q = signature p /\ (q = p \/ close_to p q)).
  { intros p Hp.
    destruct (smart_deduplicate_covers all p Hp) as (q & Hq & Hs & Hc).
    pose proof (smart_deduplicate_in all q Hq) as Hqa.
    exists q. split; [exact Hq|]. split; [exact Hqa|]. split; [|auto].
    rewrite List.Forall_forall in Hall.
    destruct (signature_location q p (Hall q Hqa) (Hall p Hp) Hs) as [-> ->].
    reflexivity. }
  split.
  - destruct (S p1 H1) as (q1 & Hq1 & Ha1 & Hl1 & Hs1 & Hc1).
    destruct (S p2 H2) as (q2 & Hq2 & Ha2 & Hl2 & Hs2 & Hc2).
    exists q1, q2.
    split; [exact Hq1|]. split; [exact Hq2|]. split; [exact Ha1|].
    split; [exact Ha2|]. split; [exact Hl1|]. split; [exact Hl2|].
    split; [exact Hs1|]. split; [exact Hs2|]. split; [exact Hc1|].
    split; [exact Hc2|]. split.
    + intros ->. apply Hne. rewrite <-Hl1, <-Hl2. reflexivity.
    + split; rewrite detect_placeholders_in; tauto.
  - intros q Hq. apply detect_placeholders_in in Hq as [Hq Hb].
    split; [|exact Hb]. exact (smart_deduplicate_in all q Hq).
Qed.

Lemma scan_located (i name original pattern_type text : string) (loc start : Z) :
  (0 <= loc)%Z ->
  located_by_detector (Scan.candidate i name original pattern_type text loc start).
Proof.
  intros Hl. left. split; [reflexivity|]. exists loc. split; [exact Hl | reflexivity].
Qed.

(** Two dollar blanks, in paragraphs 2 and 5. *)
Lemma no_merge_across_locations_but_blanks_dropped_witness :
  (exists q1 q2,
     In q1 (_smart_deduplicate Scan.two_dollars) /\
     In q2 (_smart_deduplicate Scan.two_dollars) /\
     In q1 Scan.two_dollars /\ In q2 Scan.two_dollars /\
     (p_location_type q1, p_location q1)
       = (p_location_type Scan.dollar_2, p_location Scan.dollar_2) /\
     (p_location_type q2, p_location q2)
       = (p_location_type Scan.dollar_5, p_location Scan.dollar_5) /\
     signature q1 = signature Scan.dollar_2 /\
     signature q2 = signature Scan.dollar_5 /\
     (q1 = Scan.dollar_2 \/ close_to Scan.dollar_2 q1) /\
     (q2 = Scan.dollar_5 \/ close_to Scan.dollar_5 q2) /\
     q1 <> q2 /\
     (In q1 (detect_placeholders Scan.two_dollars)
        <-> is_blank_name (p_name q1) = false) /\
     (In q2 (detect_placeholders Scan.two_dollars)
        <-> is_blank_name (p_name q2) = false)) /\
  (forall q, In q (detect_placeholders Scan.two_dollars) ->
     In q Scan.two_dollars /\ is_blank_name (p_name q) = false).
Proof.
  apply (no_merge_across_locations_but_blanks_dropped Scan.two_dollars
           Scan.dollar_2 Scan.dollar_5).
  - repeat (constructor; [apply scan_located; lia|]). constructor.
  - simpl; auto.
  - simpl; auto.
  - intros H. discriminate H.
Defined.

(** Two blanks in square brackets, in paragraphs 2 and 5: deduplication
    keeps both and the filter drops both. *)
Lemma bracket_blanks_are_dropped :
  p_original Scan.underscores_2 = "[____]" /\
  p_original Scan.underscores_5 = "[____]" /\
  p_location Scan.underscores_2 = LocInt 2 /\
  p_location Scan.underscores_5 = LocInt 5 /\
  _smart_deduplicate Scan.two_blanks = Scan.two_blanks /\
  detect_placeholders Scan.two_blanks = [].
Proof. repeat split; vm_compute; reflexivity. Qed.

Example dollar_blanks_both_kept :
  detect_placeholders Scan.two_dollars = [Scan.dollar_2; Scan.dollar_5] /\
  signature Scan.dollar_2 = "purchase_amount_paragraph_2" /\
  signature Scan.dollar_5 = "purchase_amount_paragraph_5".
Proof. repeat split; vm_compute; reflexivity. Qed.

(** The ids are not compared: two candidates for which the scanner drew
    the same id are both entries of the final index. *)
Example equal_ids_are_both_kept :
  List.map p_id
    (detect_placeholders [Scan.dollar "ph_5d0c7e11" 2; Scan.dollar "ph_5d0c7e11" 5])
  = [Some "ph_5d0c7e11"; Some "ph_5d0c7e11"].
Proof. vm_compute. reflexivity. Qed.

(** ** PreviewRenderer and FinalDocumentComposer *)

Lemma enumerate_from_app {A : Type} (n : nat) (a b : list A) :
  Render.enumerate_from n (a ++ b) =
  (Render.enumerate_from n a ++ Render.enumerate_from (n + length a) b)%list.
Proof.
  revert n. induction a as [|x a IH]; intros n; simpl.
  - now rewrite Nat.add_0_r.
  - rewrite IH. now rewrite Nat.add_succ_r.
Qed.

(** A placeholder of another location can be exchanged for any other
    placeholder of another location: the placeholders of the paragraph
    and their indices stay the same. *)
Lemma para_placeholders_frame (i : Z) (ps1 ps2 : list placeholder) (q q' : placeholder) :
  Render.in_paragraph i q = false -> Render.in_paragraph i q' = false ->
  Render.para_placeholders i (ps1 ++ q :: ps2) =
  Render.para_placeholders i (ps1 ++ q' :: ps2).
Proof.
  intros Hq Hq'. unfold Render.para_placeholders.
  rewrite !enumerate_from_app. simpl Render.enumerate_from.
  rewrite !List.filter_app. simpl List.filter. now rewrite Hq, Hq'.
Qed.

Lemma in_list_true (x : string) (l : list string) :
  Render.in_list x l = true <-> In x l.
Proof.
  unfold Render.in_list. rewrite List.existsb_exists. split.
  - intros (y & Hy & E). apply String.eqb_eq in E. now subst.
  - intros H. exists x. split; [exact H | apply String.eqb_refl].
Qed.

(** A literal that was consumed is never replaced again. *)
Lemma preview_step_consumed fv ci (st : Render.para_state) (ip : nat * placeholder) :
  Render.in_list (p_original (snd ip)) (snd st) = true ->
  Render.preview_step fv ci st ip = st.
Proof.
  destruct st as [text replaced], ip as [idx p]. simpl. intros H.
  unfold Render.preview_step. rewrite H.
  now destruct (negb _).
Qed.

(** One turn either leaves the state alone or replaces the first
    occurrence of a literal that was not consumed yet, and records it. *)
Lemma preview_step_cases fv ci (st : Render.para_state) (ip : nat * placeholder) :
  Render.preview_step fv ci st ip = st \/
  (Render.in_list (p_original (snd ip)) (snd st) = false /\
   PyStr.contains (p_original (snd ip)) (fst st) = true /\
   Render.preview_step fv ci st ip =
     (PyStr.replace_first (p_original (snd ip))
        (Render.preview_replacement fv ci (fst ip) (snd ip)) (fst st),
      p_original (snd ip) :: snd st)).
Proof.
  destruct st as [text replaced], ip as [idx p]. simpl.
  unfold Render.preview_step.
  destruct (PyStr.contains _ _); simpl; [|now left].
  destruct (Render.in_list _ _); [now left|]. right. auto.
Qed.

Lemma preview_step_nodup fv ci (st : Render.para_state) (ip : nat * placeholder) :
  List.NoDup (snd st) -> List.NoDup (snd (Render.preview_step fv ci st ip)).
Proof.
  intros H. destruct (preview_step_cases fv ci st ip) as [-> | (Hn & _ & ->)]; [exact H|].
  simpl. constructor; [|exact H].
  intros Hin. apply in_list_true in Hin. congruence.
Qed.

Lemma preview_fold_nodup fv ci (l : list (nat * placeholder)) (st : Render.para_state) :
  List.NoDup (snd st) ->
  List.NoDup (snd (fold_left (Render.preview_step fv ci) l st)).
Proof.
  revert st. induction l as [|ip l IH]; intros st H; simpl; [exact H|].
  apply IH, preview_step_nodup, H.
Qed.

(** Each literal is consumed at most once in a paragraph. *)
Lemma preview_para_loop_nodup fv ci i text ps :
  List.NoDup (snd (Render.preview_para_loop fv ci i text ps)).
Proof.
  unfold Render.preview_para_loop. apply preview_fold_nodup. constructor.
Qed.

Lemma final_para_loop_frame fv (i : Z) text (ps1 ps2 : list placeholder) (q : placeholder) :
  Render.in_paragraph i q = false ->
  Render.final_para_loop fv i text (ps1 ++ q :: ps2) =
  Render.final_para_loop fv i text (ps1 ++ ps2).
Proof.
  intros Hq. unfold Render.final_para_loop.
  rewrite !List.filter_app. simpl List.filter. now rewrite Hq.
Qed.

Lemma final_cell_frame fv (t r c : nat) text (ps1 ps2 : list placeholder) (q : placeholder) :
  Render.in_cell (Render.table_location t r c) q = false ->
  Render.final_cell fv t r c text (ps1 ++ q :: ps2) =
  Render.final_cell fv t r c text (ps1 ++ ps2).
Proof.
  intros Hq. unfold Render.final_cell.
  rewrite !fold_left_app. simpl fold_left.
  assert (E : forall st, Render.final_cell_step fv (Render.table_location t r c) st q = st).
  { intros [text' ch]. unfold Render.final_cell_step. now rewrite Hq. }
  now rewrite E.
Qed.

(** The header rule is the only part of a final paragraph that reads
    placeholders of other locations, and it acts only on a text that
    still holds its literal. *)
Lemma header_auto_fill_idle fv ps (st : string * bool) :
  PyStr.contains "[Company Name]" (fst st) = false ->
  Render.header_auto_fill fv ps st = st.
Proof.
  destruct st as [text ch]. simpl. intros H.
  unfold Render.header_auto_fill. now rewrite H.
Qed.

Lemma final_paragraph_frame fv (i : Z) text (ps1 ps2 : list placeholder) (q : placeholder) :
  Render.in_paragraph i q = false ->
  PyStr.contains "[Company Name]"
    (fst (Render.final_para_loop fv i text (ps1 ++ ps2))) = false ->
  Render.final_paragraph fv i text (ps1 ++ q :: ps2) =
  Render.final_paragraph fv i text (ps1 ++ ps2).
Proof.
  intros Hq Hc. unfold Render.final_paragraph.
  rewrite (final_para_loop_frame fv i text ps1 ps2 q Hq).
  now rewrite !header_auto_fill_idle.
Qed.

(** In a preview paragraph, and in a paragraph or table cell of the final
    document, the literals substituted are those of the placeholders
    whose location is that unit: a placeholder of another location can
    be exchanged or removed without changing the result, but for the
    header rule of the final composer, which reads a paragraph that
    still holds [[Company Name]] after its own substitutions.  In a
    preview paragraph consumed literals are recorded: each literal is
    consumed at most once, a turn whose literal was consumed changes
    nothing, and any other turn replaces the first occurrence only. *)
Lemma paragraphs_and_final_units_are_scoped :
  (forall fv ci i text style ps1 ps2 q q',
      Render.in_paragraph i q = false -> Render.in_paragraph i q' = false ->
      Render.preview_paragraph fv ci i text style (ps1 ++ q :: ps2) =
      Render.preview_paragraph fv ci i text style (ps1 ++ q' :: ps2)) /\
  (forall fv ci i text ps,
      List.NoDup (snd (Render.preview_para_loop fv ci i text ps))) /\
  (forall fv ci st ip,
      Render.preview_step fv ci st ip = st \/
      (Render.in_list (p_original (snd ip)) (snd st) = false /\
       PyStr.contains (p_original (snd ip)) (fst st) = true /\
       Render.preview_step fv ci st ip =
         (PyStr.replace_first (p_original (snd ip))
            (Render.preview_replacement fv ci (fst ip) (snd ip)) (fst st),
          p_original (snd ip) :: snd st))) /\
  (forall fv i text ps1 ps2 q,
      Render.in_paragraph i q = false ->
      Render.final_para_loop fv i text (ps1 ++ q :: ps2) =
      Render.final_para_loop fv i text (ps1 ++ ps2)) /\
  (forall fv i text ps1 ps2 q,
      Render.in_paragraph i q = false ->
      PyStr.contains "[Company Name]"
        (fst (Render.final_para_loop fv i text (ps1 ++ ps2))) = false ->
      Render.final_paragraph fv i text (ps1 ++ q :: ps2) =
      Render.final_paragraph fv i text (ps1 ++ ps2)) /\
  (forall fv t r c text ps1 ps2 q,
      Render.in_cell (Render.table_location t r c) q = false ->
      Render.final_cell fv t r c text (ps1 ++ q :: ps2) =
      Render.final_cell fv t r c text (ps1 ++ ps2)).
Proof.
  split; [|split; [|split; [|split; [|split]]]].
  - intros fv ci i text style ps1 ps2 q q' Hq Hq'.
    unfold Render.preview_paragraph, Render.preview_para_loop.
    now rewrite (para_placeholders_frame i ps1 ps2 q q' Hq Hq').
  - apply preview_para_loop_nodup.
  - apply preview_step_cases.
  - apply final_para_loop_frame.
  - apply final_paragraph_frame.
  - apply final_cell_frame.
Qed.

Lemma preview_cell_step_moved fv text l lt p :
  Render.preview_cell_step fv text (moved l lt p) = Render.preview_cell_step fv text p.
Proof. reflexivity. Qed.

Lemma preview_cell_fold_moved fv (f : placeholder -> location_t * string) ps text :
  fold_left (Render.preview_cell_step fv)
    (List.map (fun p => moved (fst (f p)) (snd (f p)) p) ps) text
  = fold_left (Render.preview_cell_step fv) ps text.
Proof.
  revert text. induction ps as [|p ps IH]; intros text; [reflexivity|].
  cbn [List.map fold_left]. rewrite preview_cell_step_moved. apply IH.
Qed.

(** C2.  The table cells of the preview are not substituted by
    location.  The cell loop of [generate_preview] goes through every
    placeholder of the index and replaces every occurrence of its
    literal, so its result is the same wherever the placeholders are
    recorded.  In a document with a dollar blank in paragraph 2 (the
    purchase amount) and one in cell (1, 1) of table 0 (the valuation
    cap), both filled, the cell shows the purchase amount; with neither
    filled the blank of the cell is wrapped twice.  The final document
    puts the valuation cap into the cell, and the preview of paragraph
    2 shows the purchase amount only. *)
Theorem preview_cell_ignores_location :
  Detector.detect_placeholders Scan.safe_candidates = Scan.safe_index /\
  reachable Scan.safe_index Scan.safe_filled /\
  map_to_list (filled_values Scan.safe_filled)
    = [("ph_5d0c7e11", "$100,000"); ("ph_e47a0c58", "$5,000,000")] /\
  Render.in_cell (Render.table_location 0 1 1) Scan.dollar_2 = false /\
  Render.in_cell (Render.table_location 0 1 1) Scan.cap = true /\
  Render.preview_cell (filled_values Scan.safe_filled) 1 Scan.cap_cell Scan.safe_index
    = "<td>Post-Money Valuation Cap: <span class=" +:+ Msg.dq +:+
      "placeholder-filled" +:+ Msg.dq +:+ ">$100,000</span></td>" /\
  Render.final_cell (filled_values Scan.safe_filled) 0 1 1 Scan.cap_cell
    Scan.safe_index
    = Some "Post-Money Valuation Cap: $5,000,000" /\
  Render.preview_cell ∅ 1 Scan.cap_cell Scan.safe_index
    = "<td>Post-Money Valuation Cap: <span class=" +:+ Msg.dq +:+
      "placeholder-unfilled" +:+ Msg.dq +:+ "><span class=" +:+ Msg.dq +:+
      "placeholder-unfilled" +:+ Msg.dq +:+ ">$[___]</span></span></td>" /\
  PyStr.contains "$5,000,000"
    (Render.preview_paragraph (filled_values Scan.safe_filled) None 2
       Scan.payment "Normal" Scan.safe_index) = false /\
  (forall fv row_idx cell_text ps (f : placeholder -> location_t * string),
      Render.preview_cell fv row_idx cell_text
        (List.map (fun p => moved (fst (f p)) (snd (f p)) p) ps)
      = Render.preview_cell fv row_idx cell_text ps).
Proof.
  split; [vm_compute; reflexivity|].
  split.
  { eapply reach_fill; [eapply reach_fill; [apply reach_upload|]|];
      apply surjective_pairing. }
  do 7 (split; [vm_compute; reflexivity|]).
  intros fv row_idx cell_text ps f. unfold Render.preview_cell.
  now rewrite preview_cell_fold_moved.
Qed.

(** ** Reachable sessions *)

Lemma size_list_to_set_le (l : list string) :
  size (list_to_set l : gset string) <= length l.
Proof.
  induction l as [|x l IH].
  - change (size (∅ : gset string) <= 0). by rewrite size_empty.
  - change (size ({[x]} ∪ (list_to_set l : gset string)) <= S (length l)).
    rewrite size_union_alt, size_singleton.
    assert (H : size ((list_to_set l : gset string) ∖ {[x]}) <= size (list_to_set l : gset string)).
    { apply subseteq_size. set_solver. }
    lia.
Qed.

Lemma known_keys_size (ps : list placeholder) : size (known_keys ps) <= 2 * length ps.
Proof.
  unfold known_keys.
  rewrite size_union_alt.
  pose proof (size_list_to_set_le (List.map ident ps)) as H1.
  pose proof (size_list_to_set_le (List.map p_key ps)) as H2.
  rewrite length_map in H1, H2.
  assert (H3 : size ((list_to_set (List.map p_key ps) : gset string) ∖
                     list_to_set (List.map ident ps)) <=
               size (list_to_set (List.map p_key ps) : gset string)).
  { apply subseteq_size. set_solver. }
  lia.
Qed.

Lemma ident_known (ps : list placeholder) (p : placeholder) :
  In p ps -> ident p ∈ known_keys ps.
Proof.
  intros H. unfold known_keys. apply elem_of_union_l, elem_of_list_to_set.
  apply list_elem_of_In, in_map_iff. eauto.
Qed.

Lemma key_known (ps : list placeholder) (p : placeholder) :
  In p ps -> p_key p ∈ known_keys ps.
Proof.
  intros H. unfold known_keys. apply elem_of_union_r, elem_of_list_to_set.
  apply list_elem_of_In, in_map_iff. eauto.
Qed.

Lemma matches_field_known (ps : list placeholder) (p : placeholder) field_key :
  In p ps -> App.matches_field field_key p = true -> field_key ∈ known_keys ps.
Proof.
  intros Hin H. unfold App.matches_field in H.
  apply orb_true_iff in H as [H|H].
  - destruct (p_id p) as [i|] eqn:E; [|discriminate].
    apply String.eqb_eq in H as <-.
    replace i with (ident p); [by apply ident_known|].
    unfold ident. by rewrite E.
  - apply String.eqb_eq in H as <-. by apply key_known.
Qed.

(** What the auto-fills of [process_message] carry. *)
Lemma collect_auto_fills_spec fv pid name v ps af :
  In af (AIService.collect_auto_fills fv pid name v ps) ->
  AIService.af_value af = v /\ AIService.af_key af <> pid /\
  exists ph, In ph ps /\ ident ph = AIService.af_key af /\
             is_filled fv ph = false.
Proof.
  induction ps as [|ph ps IH]; simpl; [done|].
  destruct (String.eqb_spec (ident ph) pid) as [E|E].
  - intros H. destruct (IH H) as (? & ? & q & ? & ? & ?). eauto 10.
  - destruct (_ && _) eqn:C.
    + intros [<- | H]; simpl.
      * apply andb_true_iff in C as [_ C]. apply negb_true_iff in C. eauto 10.
      * destruct (IH H) as (? & ? & q & ? & ? & ?). eauto 10.
    + intros H. destruct (IH H) as (? & ? & q & ? & ? & ?). eauto 10.
Qed.

Lemma apply_auto_fills_lookup afs (fv : gmap string string) k x :
  App.apply_auto_fills afs fv !! k = Some x ->
  fv !! k = Some x \/
  exists af, In af afs /\ AIService.af_key af = k /\ AIService.af_value af = x.
Proof.
  unfold App.apply_auto_fills.
  revert fv. induction afs as [|af afs IH]; intros fv; simpl; [auto|].
  intros H. destruct (IH _ H) as [H1 | (a & Ha & Hk & Hv)].
  - destruct (String.eqb_spec (AIService.af_key af) k) as [E|E].
    + subst k. rewrite lookup_insert_eq in H1. injection H1 as <-. eauto 10.
    + rewrite lookup_insert_ne in H1 by done. auto.
  - eauto 10.
Qed.

Lemma fill_auto_fill_lookup pid name v ps (fv : gmap string string) k x :
  (App.fill_auto_fill pid name v ps fv).1 !! k = Some x ->
  fv !! k = Some x \/ (x = v /\ exists q, In q ps /\ ident q = k).
Proof.
  revert fv. induction ps as [|q ps IH]; intros fv; simpl; [auto|].
  destruct (_ && _) eqn:E.
  - specialize (IH (<[ident q := v]> fv)).
    destruct (App.fill_auto_fill _ _ _ ps _) as [fv' names]. simpl in *.
    intros H. destruct (IH H) as [H1 | (-> & q' & ? & ?)]; [|eauto 10].
    destruct (String.eqb_spec (ident q) k) as [Ek|Ek].
    + subst k. rewrite lookup_insert_eq in H1. injection H1 as <-. eauto 10.
    + rewrite lookup_insert_ne in H1 by done. auto.
  - intros H. destruct (IH _ H) as [H1 | (-> & q' & ? & ?)]; eauto 10.
Qed.

(** The three handlers, read as updates of the dictionary. *)
Lemma chat_update message s r s' :
  App.chat message s = Some (r, s') ->
  s' = s \/
  exists p v,
    In p (placeholders s) /\
    Validator._validate_placeholder_value (PyStr.strip message) p = Valid v /\
    placeholders s' = placeholders s /\
    filled_values s' =
      App.apply_auto_fills
        (AIService.collect_auto_fills (filled_values s) (ident p) (p_name p) v
           (placeholders s))
        (<[ ident p := v ]> (filled_values s)).
Proof.
  unfold App.chat, AIService.process_message.
  destruct (nth_error _ _) as [p|] eqn:En.
  - destruct (Validator._validate_placeholder_value _ p) as [v|m|e] eqn:Ev.
    + intros [= <- <-]. right. exists p, v.
      split; [by eapply nth_error_In|]. auto.
    + intros [= <- <-]. by left.
    + discriminate.
  - intros [= <- <-]. by left.
Qed.

Lemma find_some_in {A : Type} (f : A -> bool) (l : list A) (x : A) :
  List.find f l = Some x -> In x l /\ f x = true.
Proof. apply find_some. Qed.

Lemma edit_field_update field_key value s r s' :
  App.edit_field field_key value s = (r, s') ->
  s' = s \/
  exists p v,
    In p (placeholders s) /\ App.matches_field field_key p = true /\
    Validator._validate_placeholder_value (PyStr.strip value) p = Valid v /\
    placeholders s' = placeholders s /\
    filled_values s' =
      App.edit_auto_fill (ident p) (p_name p) v (placeholders s)
        (if negb (String.eqb (ident p) field_key)
         then <[ field_key := v ]> (<[ ident p := v ]> (filled_values s))
         else <[ ident p := v ]> (filled_values s)).
Proof.
  unfold App.edit_field.
  destruct (String.eqb field_key ""); [intros [= <- <-]; by left|].
  destruct (List.find _ _) as [p|] eqn:Ef; [|intros [= <- <-]; by left].
  apply find_some_in in Ef as [Hin Hm].
  destruct (Validator._validate_placeholder_value _ p) as [v|m|e] eqn:Ev;
    try (intros [= <- <-]; by left).
  intros [= <- <-]. right. exists p, v. simpl. repeat split; done.
Qed.

Lemma fill_field_directly_update field_key value s r s' :
  App.fill_field_directly field_key value s = (r, s') ->
  s' = s \/
  exists p v,
    In p (placeholders s) /\ App.matches_field field_key p = true /\
    Validator._validate_placeholder_value (PyStr.strip value) p = Valid v /\
    placeholders s' = placeholders s /\
    filled_values s' =
      (App.fill_auto_fill (ident p) (p_name p) v (placeholders s)
         (<[ ident p := v ]> (filled_values s))).1.
Proof.
  unfold App.fill_field_directly.
  destruct (String.eqb field_key ""); [intros [= <- <-]; by left|].
  destruct (List.find _ _) as [p|] eqn:Ef; [|intros [= <- <-]; by left].
  apply find_some_in in Ef as [Hin Hm].
  destruct (Validator._validate_placeholder_value _ p) as [v|m|e] eqn:Ev;
    try (intros [= <- <-]; by left).
  destruct (App.fill_auto_fill _ _ _ _ _) as [fv names] eqn:Ea.
  intros [= <- <-]. right. exists p, v. simpl. rewrite Ea. repeat split; done.
Qed.

(** Every entry that a handler adds is written under an id or key of the
    index and holds the value the validator returned. *)
Lemma handler_entries ps (s s' : session) :
  placeholders s = ps ->
  (exists message r, App.chat message s = Some (r, s')) \/
  (exists field_key value r, App.edit_field field_key value s = (r, s')) \/
  (exists field_key value r, App.fill_field_directly field_key value s = (r, s')) ->
  placeholders s' = ps /\
  forall k x, filled_values s' !! k = Some x ->
    filled_values s !! k = Some x \/ (k ∈ known_keys ps /\ validated ps x).
Proof.
  intros Hps [(m & r & H) | [(fk & value & r & H) | (fk & value & r & H)]].
  - apply chat_update in H as [-> | (p & v & Hin & Hv & Hps' & Hfv)]; [auto|].
    rewrite Hps in *. split; [done|]. intros k x Hk. rewrite Hfv in Hk.
    assert (Hval : validated ps v) by (exists p, (PyStr.strip m); auto).
    apply apply_auto_fills_lookup in Hk as [Hk | (af & Haf & <- & <-)].
    + destruct (String.eqb_spec (ident p) k) as [E|E].
      * subst k. rewrite lookup_insert_eq in Hk. injection Hk as <-.
        right. split; [by apply ident_known | done].
      * rewrite lookup_insert_ne in Hk by done. auto.
    + apply collect_auto_fills_spec in Haf as (-> & _ & q & Hq & <- & _).
      right. split; [by apply ident_known | done].
  - apply edit_field_update in H as [-> | (p & v & Hin & Hm & Hv & Hps' & Hfv)]; [auto|].
    rewrite Hps in *. split; [done|]. intros k x Hk. rewrite Hfv in Hk.
    assert (Hval : validated ps v) by (exists p, (PyStr.strip value); auto).
    rewrite edit_auto_fill_lookup in Hk.
    destruct (List.existsb _ ps) eqn:Ex.
    + injection Hk as <-. apply existsb_exists in Ex as (q & Hq & Hc).
      apply andb_true_iff in Hc as [_ Hc]. apply String.eqb_eq in Hc as <-.
      right. split; [by apply ident_known | done].
    + assert (Hbase : forall (d : gmap string string),
                 <[ident p := v]> d !! k = Some x ->
                 d !! k = Some x \/ (k ∈ known_keys ps /\ validated ps x)).
      { intros d Hd. destruct (String.eqb_spec (ident p) k) as [E|E].
        - subst k. rewrite lookup_insert_eq in Hd. injection Hd as <-.
          right. split; [by apply ident_known | done].
        - rewrite lookup_insert_ne in Hd by done. auto. }
      destruct (negb _); [|by apply Hbase].
      destruct (String.eqb_spec fk k) as [E|E].
      * subst k. rewrite lookup_insert_eq in Hk. injection Hk as <-.
        right. split; [by eapply matches_field_known | done].
      * rewrite lookup_insert_ne in Hk by done. by apply Hbase.
  - apply fill_field_directly_update in H
      as [-> | (p & v & Hin & Hm & Hv & Hps' & Hfv)]; [auto|].
    rewrite Hps in *. split; [done|]. intros k x Hk. rewrite Hfv in Hk.
    assert (Hval : validated ps v) by (exists p, (PyStr.strip value); auto).
    apply fill_auto_fill_lookup in Hk as [Hk | (-> & q & Hq & <-)].
    + destruct (String.eqb_spec (ident p) k) as [E|E].
      * subst k. rewrite lookup_insert_eq in Hk. injection Hk as <-.
        right. split; [by apply ident_known | done].
      * rewrite lookup_insert_ne in Hk by done. auto.
    + right. split; [by apply ident_known | done].
Qed.

Lemma reachable_entries ps s :
  reachable ps s ->
  placeholders s = ps /\
  forall k x, filled_values s !! k = Some x -> k ∈ known_keys ps /\ validated ps x.
Proof.
  induction 1 as [| s m r s' _ [IH1 IH2] H | s fk v r s' _ [IH1 IH2] H
                  | s fk v r s' _ [IH1 IH2] H].
  - split; [done|]. intros k x Hk. simpl in Hk. by rewrite lookup_empty in Hk.
  - destruct (handler_entries ps s s' IH1) as [Hp He]; [left; eauto|].
    split; [done|]. intros k x Hk. destruct (He k x Hk); auto.
  - destruct (handler_entries ps s s' IH1) as [Hp He]; [right; left; eauto|].
    split; [done|]. intros k x Hk. destruct (He k x Hk); auto.
  - destruct (handler_entries ps s s' IH1) as [Hp He]; [right; right; eauto|].
    split; [done|]. intros k x Hk. destruct (He k x Hk); auto.
Qed.

(** ** More facts about strings *)

Lemma rev_app_rev_app (a b c : string) :
  String.rev_app (String.rev_app a b) c = String.rev_app b (a +:+ c).
Proof.
  revert b c. induction a as [|x a IH]; intros b c; simpl; [reflexivity|].
  rewrite IH. reflexivity.
Qed.

Lemma rev_involutive_s (a : string) : String.rev (String.rev a) = a.
Proof.
  unfold String.rev. rewrite rev_app_rev_app. simpl. apply app_empty_r.
Qed.

Lemma rev_app_append (a b : string) :
  String.rev_app a b = String.rev a +:+ b.
Proof.
  unfold String.rev. revert b.
  induction a as [|x a IH]; intros b; simpl; [reflexivity|].
  rewrite IH, (IH (String x "")), app_assoc_s. reflexivity.
Qed.

Lemma rev_cons_s (c : ascii) (a : string) :
  String.rev (String c a) = String.rev a +:+ String c "".
Proof. unfold String.rev at 1. simpl. apply rev_app_append. Qed.

Lemma rev_append_s (a b : string) :
  String.rev (a +:+ b) = String.rev b +:+ String.rev a.
Proof.
  induction a as [|x a IH]; simpl.
  - now rewrite app_empty_r.
  - rewrite !rev_cons_s, IH, app_assoc_s. reflexivity.
Qed.

Lemma rev_length_s (a : string) : String.length (String.rev a) = String.length a.
Proof.
  induction a as [|x a IH]; [reflexivity|].
  rewrite rev_cons_s, app_length_s, IH. simpl. lia.
Qed.

Lemma length_zero_empty (a : string) : String.length a = 0%nat -> a = "".
Proof. destruct a; [reflexivity | discriminate]. Qed.

Lemma filter_app (f : ascii -> bool) (a b : string) :
  PyStr.filter f (a +:+ b) = PyStr.filter f a +:+ PyStr.filter f b.
Proof.
  induction a as [|c a IH]; simpl; [reflexivity|].
  destruct (f c); simpl; now rewrite IH.
Qed.

Lemma filter_all (f : ascii -> bool) (a : string) :
  PyStr.forallb f a = true -> PyStr.filter f a = a.
Proof.
  induction a as [|c a IH]; simpl; [reflexivity|].
  intros H. apply andb_true_iff in H as [-> H]. now rewrite IH.
Qed.

Lemma filter_forallb (f : ascii -> bool) (a : string) :
  PyStr.forallb f (PyStr.filter f a) = true.
Proof.
  induction a as [|c a IH]; simpl; [reflexivity|].
  destruct (f c) eqn:E; simpl; [now rewrite E|exact IH].
Qed.

Lemma filter_rev (f : ascii -> bool) (a : string) :
  PyStr.filter f (String.rev a) = String.rev (PyStr.filter f a).
Proof.
  induction a as [|c a IH]; [reflexivity|].
  rewrite rev_cons_s, filter_app, IH. simpl.
  destruct (f c); [now rewrite rev_cons_s | now rewrite app_empty_r].
Qed.

Lemma forallb_rev (f : ascii -> bool) (a : string) :
  PyStr.forallb f (String.rev a) = PyStr.forallb f a.
Proof.
  induction a as [|c a IH]; [reflexivity|].
  rewrite rev_cons_s, forallb_app, IH. simpl.
  rewrite andb_true_r. apply andb_comm.
Qed.

Lemma forallb_impl (f g : ascii -> bool) (a : string) :
  (forall c, f c = true -> g c = true) ->
  PyStr.forallb f a = true -> PyStr.forallb g a = true.
Proof.
  intros Hfg. induction a as [|c a IH]; simpl; [reflexivity|].
  intros H. apply andb_true_iff in H as [H1 H2].
  now rewrite (Hfg c H1), IH.
Qed.

Lemma existsb_forallb (f : ascii -> bool) (a : string) :
  PyStr.existsb f a = negb (PyStr.forallb (fun c => negb (f c)) a).
Proof.
  induction a as [|c a IH]; simpl; [reflexivity|].
  rewrite IH, negb_andb, negb_involutive. reflexivity.
Qed.

(** [sub in s] means that [s] is [a + sub + b] for some [a] and [b]. *)
Lemma contains_spec (sub s : string) :
  PyStr.contains sub s = true <-> exists a b, s = a +:+ sub +:+ b.
Proof.
  induction s as [|c s IH]; simpl.
  - rewrite orb_false_r. split.
    + intros H. apply startswith_spec in H as [r Hr]. now exists "", r.
    + intros [a [b H]]. destruct a; simpl in H.
      * apply startswith_spec. now exists b.
      * discriminate.
  - rewrite orb_true_iff, IH. split.
    + intros [H | [a [b ->]]].
      * apply startswith_spec in H as [r Hr]. now exists "", r.
      * now exists (String c a), b.
    + intros [a [b H]]. destruct a as [|x a]; simpl in H.
      * left. apply startswith_spec. now exists b.
      * injection H as -> ->. right. now exists a, b.
Qed.

Lemma contains_middle (a sub b : string) :
  PyStr.contains sub (a +:+ sub +:+ b) = true.
Proof. apply contains_spec. now exists a, b. Qed.

(** A character that no part of [sub] may hold keeps [sub] out. *)
Lemma contains_char (c : ascii) (s : string) :
  PyStr.contains (String c "") s = PyStr.existsb (Ascii.eqb c) s.
Proof.
  induction s as [|x s IH]; simpl; [reflexivity|].
  rewrite IH. destruct (Ascii.eqb c x); reflexivity.
Qed.

(** [s.replace(c, new)] for a one-character [c] works character by
    character. *)
Lemma replace_all_char (c : ascii) (new s : string) :
  PyStr.replace_all (String c "") new s =
  map_chars (fun x => if Ascii.eqb c x then new else String x "") s.
Proof.
  unfold PyStr.replace_all.
  induction s as [|x s IH]; simpl; [reflexivity|].
  destruct (Ascii.eqb c x); simpl; now rewrite IH.
Qed.

Lemma replace_all_char_filter (c : ascii) (s : string) :
  PyStr.replace_all (String c "") "" s =
  PyStr.filter (fun x => negb (Ascii.eqb c x)) s.
Proof.
  rewrite replace_all_char.
  induction s as [|x s IH]; simpl; [reflexivity|].
  destruct (Ascii.eqb c x); simpl; now rewrite IH.
Qed.

Lemma take_length_s (n : nat) (s : string) :
  String.length (PyStr.take n s) = Nat.min n (String.length s).
Proof.
  revert s. induction n as [|n IH]; intros [|c s]; simpl; try reflexivity.
  now rewrite IH.
Qed.

Lemma drop_length_s (n : nat) (s : string) :
  String.length (PyStr.drop n s) = (String.length s - n)%nat.
Proof.
  revert s. induction n as [|n IH]; intros [|c s]; simpl; try reflexivity.
  apply IH.
Qed.

Lemma take_add_s (n m : nat) (s : string) :
  PyStr.take (n + m) s = PyStr.take n s +:+ PyStr.take m (PyStr.drop n s).
Proof.
  revert s. induction n as [|n IH]; intros s; [reflexivity|].
  destruct s as [|c s]; simpl.
  - now destruct m.
  - now rewrite IH.
Qed.

Lemma drop_add_s (n m : nat) (s : string) :
  PyStr.drop (n + m) s = PyStr.drop m (PyStr.drop n s).
Proof.
  revert s. induction n as [|n IH]; intros s; [reflexivity|].
  destruct s as [|c s]; simpl.
  - now destruct m.
  - apply IH.
Qed.

Lemma take_drop_s (n : nat) (s : string) :
  PyStr.take n s +:+ PyStr.drop n s = s.
Proof.
  revert s. induction n as [|n IH]; intros [|c s]; simpl; try reflexivity.
  now rewrite IH.
Qed.

Lemma forallb_take (f : ascii -> bool) (n : nat) (s : string) :
  PyStr.forallb f s = true -> PyStr.forallb f (PyStr.take n s) = true.
Proof.
  revert s. induction n as [|n IH]; intros [|c s]; simpl; try reflexivity.
  intros H. apply andb_true_iff in H as [-> H]. now apply IH.
Qed.

Lemma forallb_drop (f : ascii -> bool) (n : nat) (s : string) :
  PyStr.forallb f s = true -> PyStr.forallb f (PyStr.drop n s) = true.
Proof.
  revert s. induction n as [|n IH]; intros [|c s]; simpl; try reflexivity.
  - intros H. exact H.
  - intros H. apply andb_true_iff in H as [_ H]. now apply IH.
Qed.

(** ** Whitespace normalisation: [' '.join(value.split())] *)

Lemma split_go_words (s cur : string) :
  PyStr.forallb nonspace cur = true ->
  Forall is_word (PyStr.split_go cur s) /\
  concat_s (PyStr.split_go cur s) = String.rev cur +:+ PyStr.filter nonspace s.
Proof.
  revert cur. induction s as [|c s IH]; intros cur Hcur;
    cbn [PyStr.split_go PyStr.filter].
  - destruct cur as [|x cur]; [split; [constructor | reflexivity]|].
    split.
    + constructor; [|constructor]. split.
      * intros H. apply (f_equal String.length) in H.
        rewrite rev_length_s in H. discriminate.
      * now rewrite forallb_rev.
    + cbn [concat_s]. reflexivity.
  - assert (Hn : nonspace c = negb (PyStr.isspace c)) by reflexivity.
    rewrite Hn. destruct (PyStr.isspace c) eqn:E; cbn [negb].
    + destruct cur as [|x cur].
      * apply (IH ""). reflexivity.
      * destruct (IH "" eq_refl) as [H1 H2]. split.
        -- constructor; [|exact H1]. split.
           ++ intros H. apply (f_equal String.length) in H.
              rewrite rev_length_s in H. discriminate.
           ++ now rewrite forallb_rev.
        -- simpl. rewrite H2. reflexivity.
    + destruct (IH (String c cur)) as [H1 H2].
      { cbn [PyStr.forallb]. rewrite Hcur, andb_true_r. unfold nonspace. now rewrite E. }
      split; [exact H1|]. rewrite H2, rev_cons_s, app_assoc_s. reflexivity.
Qed.

Lemma split_words (s : string) :
  Forall is_word (PyStr.split s) /\
  concat_s (PyStr.split s) = PyStr.filter nonspace s.
Proof. apply (split_go_words s ""). reflexivity. Qed.

(** Scanning a word only grows the current word. *)
Lemma split_go_word (w r cur : string) :
  PyStr.forallb nonspace w = true ->
  PyStr.split_go cur (w +:+ r) = PyStr.split_go (String.rev_app w cur) r.
Proof.
  revert cur. induction w as [|c w IH]; intros cur H; simpl; [reflexivity|].
  simpl in H. apply andb_true_iff in H as [Hc Hw].
  unfold nonspace in Hc. apply negb_true_iff in Hc. rewrite Hc.
  now apply IH.
Qed.

Lemma rev_app_nonempty (w : string) : w <> "" -> String.rev_app w "" <> "".
Proof.
  intros Hw H. apply Hw.
  change (String.rev w = "") in H. apply (f_equal String.length) in H.
  rewrite rev_length_s in H. now apply length_zero_empty.
Qed.

Lemma split_join (ws : list string) :
  Forall is_word ws -> PyStr.split (PyStr.join " " ws) = ws.
Proof.
  unfold PyStr.split.
  induction 1 as [|w ws [Hne Hw] Hws IH]; [reflexivity|].
  assert (Hrev : String.rev_app w "" <> "") by now apply rev_app_nonempty.
  destruct ws as [|w' ws].
  - simpl. rewrite <-(app_empty_r w) at 1.
    rewrite split_go_word by exact Hw. simpl.
    destruct (String.rev_app w "") eqn:E; [congruence|].
    rewrite <-E. change (String.rev_app w "") with (String.rev w).
    fold (String.rev (String.rev w)). now rewrite rev_involutive_s.
  - change (PyStr.join " " (w :: w' :: ws))
      with (w +:+ (String " " (PyStr.join " " (w' :: ws)))).
    rewrite split_go_word by exact Hw.
    cbn [PyStr.split_go]. change (PyStr.isspace " ") with true. cbv iota.
    destruct (String.rev_app w "") eqn:E; [congruence|].
    rewrite <-E, IH.
    change (String.rev_app w "") with (String.rev w).
    fold (String.rev (String.rev w)). now rewrite rev_involutive_s.
Qed.

Lemma filter_join (ws : list string) :
  Forall is_word ws ->
  PyStr.filter nonspace (PyStr.join " " ws) = concat_s ws.
Proof.
  induction 1 as [|w ws [Hne Hw] Hws IH]; [reflexivity|].
  destruct ws as [|w' ws].
  - simpl. rewrite app_empty_r. now apply filter_all.
  - change (PyStr.join " " (w :: w' :: ws))
      with (w +:+ (String " " (PyStr.join " " (w' :: ws)))).
    rewrite filter_app, (filter_all _ _ Hw).
    cbn [PyStr.filter]. change (nonspace " ") with false. cbv iota.
    rewrite IH. reflexivity.
Qed.

Lemma normalize_ws_idempotent (s : string) :
  PyStr.normalize_ws (PyStr.normalize_ws s) = PyStr.normalize_ws s.
Proof.
  unfold PyStr.normalize_ws. rewrite split_join; [reflexivity|].
  apply split_words.
Qed.

Lemma normalize_ws_keeps_text (s : string) :
  PyStr.filter nonspace (PyStr.normalize_ws s) = PyStr.filter nonspace s.
Proof.
  unfold PyStr.normalize_ws. destruct (split_words s) as [H1 H2].
  now rewrite filter_join, H2.
Qed.

Ltac case_space c :=
  let E := fresh "E" in
  let N := fresh "N" in
  destruct (PyStr.isspace c) eqn:E;
  [ assert (N : nonspace c = false) by (unfold nonspace; now rewrite E)
  | assert (N : nonspace c = true) by (unfold nonspace; now rewrite E) ];
  rewrite ?N.

(** [strip] removes white space only. *)
Lemma lstrip_filter (s : string) :
  PyStr.filter nonspace (PyStr.lstrip s) = PyStr.filter nonspace s.
Proof.
  induction s as [|c s IH]; [reflexivity|].
  cbn [PyStr.lstrip PyStr.filter].
  case_space c; [exact IH | cbn [PyStr.filter]; now rewrite N].
Qed.

Lemma rstrip_nonempty (s : string) :
  PyStr.rstrip s <> "" -> PyStr.filter nonspace s <> "".
Proof.
  induction s as [|c s IH]; [intros H; exact H|].
  cbn [PyStr.rstrip PyStr.filter].
  destruct (PyStr.rstrip s) eqn:Er.
  - case_space c; [intros H; now elim H | discriminate].
  - intros _. case_space c; [|discriminate].
    apply IH. discriminate.
Qed.

Lemma strip_nonempty (s : string) :
  PyStr.strip s <> "" -> PyStr.filter nonspace s <> "".
Proof.
  unfold PyStr.strip. intros H. rewrite <-lstrip_filter. now apply rstrip_nonempty.
Qed.

Lemma split_go_lstrip (s : string) :
  PyStr.split_go "" (PyStr.lstrip s) = PyStr.split_go "" s.
Proof.
  induction s as [|c s IH]; [reflexivity|].
  cbn [PyStr.lstrip]. destruct (PyStr.isspace c) eqn:E.
  - cbn [PyStr.split_go]. now rewrite E.
  - reflexivity.
Qed.

Lemma split_go_rstrip (s cur : string) :
  PyStr.split_go cur (PyStr.rstrip s) = PyStr.split_go cur s.
Proof.
  revert cur. induction s as [|c s IH]; intros cur; [reflexivity|].
  cbn [PyStr.rstrip]. destruct (PyStr.rstrip s) as [|a r] eqn:E.
  - destruct (PyStr.isspace c) eqn:Ec; cbn [PyStr.split_go]; rewrite Ec.
    + rewrite <-(IH ""). destruct cur; reflexivity.
    + now rewrite <-IH.
  - cbn [PyStr.split_go]. destruct (PyStr.isspace c); rewrite <-?IH; reflexivity.
Qed.

Lemma normalize_ws_strip (s : string) :
  PyStr.normalize_ws (PyStr.strip s) = PyStr.normalize_ws s.
Proof.
  unfold PyStr.normalize_ws, PyStr.split, PyStr.strip.
  now rewrite split_go_rstrip, split_go_lstrip.
Qed.

Lemma normalize_ws_nonempty (s : string) :
  PyStr.strip s <> "" -> PyStr.normalize_ws s <> "".
Proof.
  intros H E. apply strip_nonempty in H. apply H.
  now rewrite <-normalize_ws_keeps_text, E.
Qed.


(** *** The words of a text that is laid out *)

Lemma split_go_blank (g r : string) :
  blank_text g -> PyStr.split_go "" (g +:+ r) = PyStr.split_go "" r.
Proof.
  unfold blank_text. induction g as [|c g IH]; intros H; [reflexivity|].
  cbn [PyStr.forallb] in H. apply andb_true_iff in H as [Hc Hg].
  cbn [String.append PyStr.split_go]. rewrite Hc. exact (IH Hg).
Qed.

Lemma split_go_gap (cur g r : string) :
  cur <> "" -> is_gap g ->
  PyStr.split_go cur (g +:+ r) = String.rev cur :: PyStr.split_go "" r.
Proof.
  intros Hcur [Hne Hg]. destruct g as [|c g]; [congruence|].
  unfold blank_text in Hg. cbn [PyStr.forallb] in Hg.
  apply andb_true_iff in Hg as [Hc Hg].
  cbn [String.append PyStr.split_go]. rewrite Hc.
  destruct cur as [|x cur]; [congruence|].
  now rewrite (split_go_blank g r Hg).
Qed.

Lemma split_go_trail (cur t : string) :
  cur <> "" -> blank_text t -> PyStr.split_go cur t = [String.rev cur].
Proof.
  intros Hcur Ht. destruct t as [|c t].
  - destruct cur; [congruence | reflexivity].
  - rewrite <- (app_empty_r (String c t)).
    rewrite split_go_gap; [reflexivity | exact Hcur |].
    split; [discriminate | exact Ht].
Qed.

Lemma rev_rev_app (w : string) : String.rev (String.rev_app w "") = w.
Proof.
  change (String.rev_app w "") with (String.rev w). apply rev_involutive_s.
Qed.

Lemma split_go_laid (w : string) (rest : list (string * string)) (trail : string) :
  is_word w ->
  Forall (fun gw => is_gap (fst gw) /\ is_word (snd gw)) rest ->
  blank_text trail ->
  PyStr.split_go "" (w +:+ gaps_and_words rest +:+ trail)
    = w :: List.map snd rest.
Proof.
  intros Hw Hrest Ht. revert w Hw.
  induction Hrest as [|[g w'] rest [Hg Hw'] _ IH]; intros w [Hne Hw].
  - cbn [gaps_and_words String.append List.map].
    rewrite (split_go_word w trail "" Hw).
    rewrite split_go_trail; [| now apply rev_app_nonempty | exact Ht].
    now rewrite rev_rev_app.
  - cbn [gaps_and_words List.map fst snd] in *.
    rewrite (split_go_word w _ "" Hw).
    rewrite !app_assoc_s.
    rewrite split_go_gap; [| now apply rev_app_nonempty | exact Hg].
    rewrite rev_rev_app. f_equal. apply IH. exact Hw'.
Qed.

Lemma split_laid_out (lead w : string) (rest : list (string * string))
  (trail : string) :
  well_laid lead w rest trail ->
  PyStr.split (laid_out lead w rest trail) = w :: List.map snd rest.
Proof.
  intros (Hl & Hw & Hrest & Ht). unfold PyStr.split, laid_out.
  rewrite (split_go_blank lead _ Hl). now apply split_go_laid.
Qed.

Lemma blank_text_filter (s : string) :
  blank_text s -> PyStr.filter nonspace s = "".
Proof.
  unfold blank_text. induction s as [|c s IH]; [reflexivity|].
  cbn [PyStr.forallb PyStr.filter]. intros H.
  apply andb_true_iff in H as [Hc Hs].
  unfold nonspace at 1. rewrite Hc. cbn [negb]. exact (IH Hs).
Qed.

(** Every text is white space only, or laid out in one way or another. *)
Lemma text_is_laid_out (s : string) :
  blank_text s \/
  exists lead w rest trail,
    well_laid lead w rest trail /\ s = laid_out lead w rest trail.
Proof.
  induction s as [|c s IH]; [left; reflexivity|].
  destruct (PyStr.isspace c) eqn:Ec.
  - destruct IH as [Hb|(lead & w & rest & trail & (Hl & Hw & Hr & Ht) & ->)].
    + left. unfold blank_text. cbn [PyStr.forallb]. now rewrite Ec.
    + right. exists (String c lead), w, rest, trail. split; [|reflexivity].
      split; [|auto]. unfold blank_text. cbn [PyStr.forallb]. now rewrite Ec.
  - assert (Hc : is_word (String c "")).
    { split; [discriminate|]. cbn [PyStr.forallb]. unfold nonspace. now rewrite Ec. }
    destruct IH as [Hb|(lead & w & rest & trail & (Hl & Hw & Hr & Ht) & ->)].
    + right. exists "", (String c ""), [], s. split; [|reflexivity].
      split; [reflexivity|]. split; [exact Hc|]. split; [constructor | exact Hb].
    + right. destruct lead as [|x lead].
      * exists "", (String c w), rest, trail. split; [|reflexivity].
        split; [reflexivity|]. split; [|auto].
        destruct Hw as [_ Hw]. split; [discriminate|].
        cbn [PyStr.forallb]. rewrite Hw. unfold nonspace. now rewrite Ec.
      * exists "", (String c ""), ((String x lead, w) :: rest), trail.
        split.
        -- split; [reflexivity|]. split; [exact Hc|]. split; [|exact Ht].
           constructor; [|exact Hr]. split; [|exact Hw].
           split; [discriminate | exact Hl].
        -- unfold laid_out. cbn [gaps_and_words String.append].
           now rewrite !app_assoc_s.
Qed.

(** ** ValueValidator: what is accepted *)

Lemma app_nonempty_l (a b : string) : a <> "" -> a +:+ b <> "".
Proof. destruct a; [congruence | discriminate]. Qed.

Lemma app_nonempty_r (a b : string) : b <> "" -> a +:+ b <> "".
Proof.
  intros Hb H. apply Hb. apply (f_equal String.length) in H.
  rewrite app_length_s in H. apply length_zero_empty. simpl in H. lia.
Qed.

Lemma dec_of_Z_nonempty (z : Z) : PyFloat.dec_of_Z z <> "".
Proof.
  unfold PyFloat.dec_of_Z, NilZero.string_of_uint.
  destruct (N.to_uint (Z.to_N z)); discriminate.
Qed.

Lemma str_int_nonempty (z : Z) : PyFloat.str_int z <> "".
Proof. apply app_nonempty_r, dec_of_Z_nonempty. Qed.

Lemma repr_nonempty (x : spec_float) : PyFloat.repr x <> "".
Proof.
  intros H. pose proof (repr_has_point x) as P. rewrite H in P. discriminate.
Qed.

Lemma map_nonempty (f : ascii -> ascii) (s : string) :
  s <> "" -> PyStr.map f s <> "".
Proof. destruct s; [congruence | discriminate]. Qed.

Lemma title_nonempty (s : string) : s <> "" -> PyStr.title s <> "".
Proof.
  unfold PyStr.title. destruct s as [|c s]; [congruence|]. intros _.
  cbn [PyStr.title_go]. destruct (PyStr.isalpha c); discriminate.
Qed.

Lemma rev_nonempty (s : string) : s <> "" -> String.rev s <> "".
Proof.
  intros Hs H. apply Hs, length_zero_empty.
  rewrite <-rev_length_s, H. reflexivity.
Qed.

Lemma group3_nonempty (s : string) : s <> "" -> PyFloat.group3 s <> "".
Proof.
  intros Hs. unfold PyFloat.group3. apply rev_nonempty.
  pose proof (rev_nonempty s Hs) as Hr.
  destruct (String.rev s); [congruence|]. discriminate.
Qed.

Lemma state_map_nonempty (k full : string) :
  Validator.assoc k Validator.state_map = Some full -> full <> "".
Proof.
  unfold Validator.state_map. cbn [Validator.assoc].
  repeat match goal with
         | |- context [String.eqb ?a k] => destruct (String.eqb a k)
         end; intros [= <-]; discriminate.
Qed.

Lemma startswith_filter (f : ascii -> bool) (c : ascii) (s : string) :
  f c = true -> PyStr.startswith s (String c "") = true ->
  PyStr.filter f s <> "".
Proof.
  intros Hc H. apply startswith_spec in H as [r ->].
  simpl. rewrite Hc. discriminate.
Qed.

(** No accepted value is empty. *)
Lemma validate_nonempty (value : string) (p : placeholder) (v : string) :
  Validator._validate_placeholder_value value p = Valid v -> v <> "".
Proof.
  rewrite validate_unfold. cbv zeta.
  destruct (String.eqb_spec (PyStr.strip value) "") as [E|E]; [discriminate|].
  set (w := PyStr.strip value) in *.
  destruct (Validator.is_email_field _ _).
  { unfold Validator.validate_email. destruct (Re.email w); [|discriminate].
    now intros [= <-]. }
  destruct (Validator.is_month_number_field _ _).
  { unfold Validator.validate_month_number.
    destruct (PyFloat.of_string _) as [x|]; [|discriminate].
    destruct (PyFloat.leb x _); [discriminate|].
    destruct (PyFloat.to_int x) as [[]|z]; try discriminate.
    intros [= <-]. destruct (PyFloat.eq_int x z);
      [apply str_int_nonempty | apply repr_nonempty]. }
  destruct (Validator.is_date_field _ _).
  { unfold Validator.validate_date.
    destruct (Re.date w) as [[[g1 g2] g3]|]; [|discriminate].
    destruct (_ || _); [discriminate|]. destruct (_ || _); [discriminate|].
    now intros [= <-]. }
  destruct (Validator.is_address_field _ _).
  { unfold Validator.validate_address.
    destruct (_ || _).
    - destruct (Validator.assoc _ _) as [full|] eqn:A.
      + intros [= <-]. now apply state_map_nonempty in A.
      + destruct (_ =? _)%nat; intros [= <-];
          [now apply map_nonempty | now apply title_nonempty].
    - intros [= <-]. unfold w. rewrite normalize_ws_strip.
      now apply normalize_ws_nonempty. }
  destruct (Validator.is_amount_field _ _).
  { unfold Validator.validate_amount.
    destruct (PyFloat.of_string _) as [x|]; [|discriminate].
    destruct (negb (PyStr.startswith w "$")) eqn:S.
    - destruct (PyFloat.leb _ x); intros [= <-]; discriminate.
    - apply negb_false_iff in S.
      destruct (PyFloat.leb _ x); intros [= <-]; [discriminate|].
      change (PyStr.replace_all_go "," "" w 0)
        with (PyStr.replace_all (String "," "") "" w).
      rewrite replace_all_char_filter.
      now apply (startswith_filter _ "$"). }
  destruct (Validator.is_percentage_field _ _).
  { rewrite percentage_output.
    destruct (PyFloat.of_string _); [|discriminate].
    intros [= <-]. apply app_nonempty_r. discriminate. }
  destruct (Validator.is_phone_field _).
  { unfold Validator.validate_phone.
    destruct (_ || _); [discriminate|].
    destruct (_ =? _)%nat; intros [= <-]; [discriminate | exact E]. }
  destruct (Validator.is_number_field _ _).
  { unfold Validator.validate_number.
    destruct (PyFloat.of_string _) as [x|]; [|discriminate].
    destruct (PyFloat.leb _ x).
    - destruct (PyFloat.to_int x) as [[]|z]; try discriminate.
      destruct (PyFloat.eq_int x z); intros [= <-]; [|exact E].
      apply app_nonempty_r, group3_nonempty, dec_of_Z_nonempty.
    - now intros [= <-]. }
  intros [= <-]. unfold w. rewrite normalize_ws_strip.
  now apply normalize_ws_nonempty.
Qed.

(** ** Properties of the handlers *)

Lemma apply_auto_fills_other afs (fv : gmap string string) k :
  (forall af, In af afs -> AIService.af_key af <> k) ->
  App.apply_auto_fills afs fv !! k = fv !! k.
Proof.
  unfold App.apply_auto_fills.
  revert fv. induction afs as [|af afs IH]; intros fv H; simpl; [done|].
  rewrite IH by (intros a Ha; apply H; by right).
  apply lookup_insert_ne. apply H. by left.
Qed.

Lemma lookup_value_id (fv : gmap string string) (p : placeholder) (v : string) :
  fv !! ident p = Some v ->
  Render.lookup_value fv p = v /\ is_filled fv p = true.
Proof.
  intros H. unfold Render.lookup_value, is_filled, in_dict. by rewrite H.
Qed.

Lemma nth_error_drop {A : Type} (l : list A) (n j : nat) :
  nth_error (drop n l) j = nth_error l (n + j).
Proof.
  revert n. induction l as [|x l IH]; intros [|n]; simpl; try done.
  by destruct j.
Qed.

(** The [while] loop of [process_message] stops at the first unfilled
    placeholder. *)
Lemma advance_spec fv (l : list placeholder) (n : nat) :
  n <= AIService.advance fv l n <= n + length l /\
  (forall j q, j < AIService.advance fv l n - n -> nth_error l j = Some q ->
               is_filled fv q = true) /\
  (forall q, nth_error l (AIService.advance fv l n - n) = Some q ->
             is_filled fv q = false).
Proof.
  revert n. induction l as [|p l IH]; intros n; simpl.
  - rewrite Nat.sub_diag. split; [lia|]. split; [intros j q Hj; lia | done].
  - destruct (is_filled fv p) eqn:E.
    + destruct (IH (S n)) as (Hb & Hlt & Hat).
      set (i := AIService.advance fv l (S n)) in *.
      replace (i - n) with (S (i - S n)) by lia.
      split; [lia|]. split.
      * intros [|j] q Hj; simpl; [by intros [= <-]|]. apply Hlt. lia.
      * simpl. exact Hat.
    + rewrite Nat.sub_diag. split; [lia|]. split; [intros j q Hj; lia|].
      simpl. by intros q [= <-].
Qed.

Lemma actual_index_spec fv (ps : list placeholder) (ci : nat) :
  ci <= AIService.actual_index fv ps ci /\
  (forall j q, ci <= j < AIService.actual_index fv ps ci ->
               nth_error ps j = Some q -> is_filled fv q = true) /\
  (forall q, nth_error ps (AIService.actual_index fv ps ci) = Some q ->
             is_filled fv q = false).
Proof.
  unfold AIService.actual_index.
  destruct (advance_spec fv (drop ci ps) ci) as (Hb & Hlt & Hat).
  set (i := AIService.advance fv (drop ci ps) ci) in *.
  split; [lia|]. split.
  - intros j q Hj Hq. apply (Hlt (j - ci)); [lia|].
    rewrite nth_error_drop. by replace (ci + (j - ci)) with j by lia.
  - intros q Hq. apply Hat. rewrite nth_error_drop.
    by replace (ci + (i - ci)) with i by lia.
Qed.

(** X1.  Whatever sequence of chat, edit and fill requests a session has
    gone through since the upload, its placeholder list is the uploaded
    one, every key of its dictionary is the id or the key of one of its
    placeholders, and so the dictionary has at most twice as many
    entries as there are placeholders. *)
Theorem stored_keys_are_placeholder_keys (ps : list placeholder) (s : session) :
  reachable ps s ->
  placeholders s = ps /\
  dom (filled_values s) ⊆ known_keys ps /\
  size (filled_values s) <= 2 * length ps.
Proof.
  intros H. apply reachable_entries in H as [Hps He].
  assert (Hsub : dom (filled_values s) ⊆ known_keys ps).
  { intros k Hk. apply elem_of_dom in Hk as [x Hx]. by apply (He k x). }
  split; [done|]. split; [done|].
  rewrite <-size_dom. etrans; [apply subseteq_size, Hsub|]. apply known_keys_size.
Qed.

Lemma stored_keys_are_placeholder_keys_witness :
  reachable Sample.two_fields Sample.edited_by_key /\
  placeholders Sample.edited_by_key = Sample.two_fields /\
  dom (filled_values Sample.edited_by_key) ⊆ known_keys Sample.two_fields /\
  size (filled_values Sample.edited_by_key) <= 2 * length Sample.two_fields.
Proof.
  assert (H : reachable Sample.two_fields Sample.edited_by_key).
  { eapply reach_edit; [apply reach_upload | apply surjective_pairing]. }
  split; [exact H|].
  exact (stored_keys_are_placeholder_keys Sample.two_fields Sample.edited_by_key H).
Defined.

(** X2.  Every value in the dictionary of a reachable session is a value
    that [_validate_placeholder_value] returned as processed value for
    some placeholder of the document, and it is never the empty text. *)
Theorem stored_values_are_validated (ps : list placeholder) (s : session)
  (k v : string) :
  reachable ps s ->
  filled_values s !! k = Some v ->
  validated ps v /\ v <> "".
Proof.
  intros H Hk. apply reachable_entries in H as [_ He].
  destruct (He k v Hk) as [_ Hv]. split; [exact Hv|].
  destruct Hv as (p & input & _ & Hv). by eapply validate_nonempty.
Qed.

Lemma stored_values_are_validated_witness :
  reachable Sample.two_fields Sample.edited_by_key /\
  filled_values Sample.edited_by_key !! "company_name_0" = Some "Acme Inc" /\
  validated Sample.two_fields "Acme Inc" /\ "Acme Inc" <> "".
Proof.
  assert (H : reachable Sample.two_fields Sample.edited_by_key).
  { eapply reach_edit; [apply reach_upload | apply surjective_pairing]. }
  assert (K : filled_values Sample.edited_by_key !! "company_name_0" = Some "Acme Inc").
  { vm_compute. reflexivity. }
  split; [exact H|]. split; [exact K|].
  exact (stored_values_are_validated Sample.two_fields Sample.edited_by_key
           "company_name_0" "Acme Inc" H K).
Defined.

(** X3.  A request that is answered with success has stored the
    processed value under the id of the placeholder it addressed: the
    first placeholder whose id or key is the field key for an edit or a
    fill, the one the pointer skipped to for a chat message.  Reading
    that placeholder back, as the preview and the final document do,
    gives the processed value. *)
Theorem answered_field_reads_back :
  (forall field_key value s r s',
      App.fill_field_directly field_key value s = (App.Ok200 r, s') ->
      exists p v,
        List.find (App.matches_field field_key) (placeholders s) = Some p /\
        Validator._validate_placeholder_value (PyStr.strip value) p = Valid v /\
        filled_values s' !! ident p = Some v /\
        Render.lookup_value (filled_values s') p = v /\
        is_filled (filled_values s') p = true) /\
  (forall field_key value s r s',
      App.edit_field field_key value s = (App.Ok200 r, s') ->
      exists p v,
        List.find (App.matches_field field_key) (placeholders s) = Some p /\
        Validator._validate_placeholder_value (PyStr.strip value) p = Valid v /\
        filled_values s' !! ident p = Some v /\
        Render.lookup_value (filled_values s') p = v /\
        is_filled (filled_values s') p = true) /\
  (forall message s r s',
      App.chat message s = Some (r, s') ->
      App.cr_placeholder_filled r = true ->
      exists p v,
        nth_error (placeholders s)
          (AIService.actual_index (filled_values s) (placeholders s)
             (current_placeholder_index s)) = Some p /\
        is_filled (filled_values s) p = false /\
        Validator._validate_placeholder_value (PyStr.strip message) p = Valid v /\
        filled_values s' !! ident p = Some v /\
        Render.lookup_value (filled_values s') p = v /\
        is_filled (filled_values s') p = true).
Proof.
  split; [|split].
  - intros fk value s r s'. unfold App.fill_field_directly.
    destruct (String.eqb fk ""); [discriminate|].
    destruct (List.find _ _) as [p|] eqn:Ef; [|discriminate].
    destruct (Validator._validate_placeholder_value _ p) as [v|m|e] eqn:Ev;
      try discriminate.
    pose proof (fill_auto_fill_frame (ident p) (p_name p) v (placeholders s)
                  (<[ident p := v]> (filled_values s)) (ident p)) as Hf.
    destruct (App.fill_auto_fill _ _ _ _ _) as [fv names].
    intros [= <- <-]. exists p, v. simpl in *.
    assert (Hl : fv !! ident p = Some v).
    { rewrite Hf; [apply lookup_insert_eq|]. rewrite dom_insert. set_solver. }
    destruct (lookup_value_id _ _ _ Hl). auto.
  - intros fk value s r s'. unfold App.edit_field.
    destruct (String.eqb fk ""); [discriminate|].
    destruct (List.find _ _) as [p|] eqn:Ef; [|discriminate].
    destruct (Validator._validate_placeholder_value _ p) as [v|m|e] eqn:Ev;
      try discriminate.
    intros [= <- <-]. exists p, v. simpl.
    assert (Hl : App.edit_auto_fill (ident p) (p_name p) v (placeholders s)
                   (if negb (String.eqb (ident p) fk)
                    then <[fk := v]> (<[ident p := v]> (filled_values s))
                    else <[ident p := v]> (filled_values s)) !! ident p = Some v).
    { rewrite edit_auto_fill_lookup.
      destruct (List.existsb _ _); [done|].
      destruct (String.eqb_spec (ident p) fk) as [E|E]; simpl.
      - apply lookup_insert_eq.
      - rewrite lookup_insert_ne by done. apply lookup_insert_eq. }
    destruct (lookup_value_id _ _ _ Hl). auto.
  - intros message s r s'. unfold App.chat, AIService.process_message.
    destruct (nth_error _ _) as [p|] eqn:En.
    + destruct (Validator._validate_placeholder_value _ p) as [v|m|e] eqn:Ev.
      * intros [= <- <-] _. exists p, v. simpl.
        assert (Hl : App.apply_auto_fills
                       (AIService.collect_auto_fills (filled_values s) (ident p)
                          (p_name p) v (placeholders s))
                       (<[ident p := v]> (filled_values s)) !! ident p = Some v).
        { rewrite apply_auto_fills_other; [apply lookup_insert_eq|].
          intros af Haf. by apply collect_auto_fills_spec in Haf as (_ & ? & _). }
        destruct (lookup_value_id _ _ _ Hl).
        split; [done|]. split; [|auto].
        by apply (actual_index_spec (filled_values s) (placeholders s)
                    (current_placeholder_index s)).
      * intros [= <- <-]. discriminate.
      * discriminate.
    + intros [= <- <-]. discriminate.
Qed.

(** X4.  A chat message is answered with the all-filled message exactly
    when every placeholder from the session's pointer onwards is filled;
    placeholders before the pointer are not looked at.  After the second
    field of a two-field document is filled and then edited through its
    key, the pointer stands on it, and a chat message is told that all
    fields are filled although the first field has no value. *)
Theorem all_filled_looks_forward_only :
  (forall message ps fv current_index,
      AIService.process_message message ps fv current_index = AIService.AllFilled <->
      forall j p, current_index <= j -> nth_error ps j = Some p ->
                  is_filled fv p = true) /\
  (reachable Sample.two_fields Scenario.second_first /\
   current_placeholder_index Scenario.second_first = 1 /\
   is_filled (filled_values Scenario.second_first) Sample.company = false /\
   AIService.process_message "Acme Inc" Sample.two_fields
     (filled_values Scenario.second_first)
     (current_placeholder_index Scenario.second_first) = AIService.AllFilled /\
   snd <$> App.chat "Acme Inc" Scenario.second_first = Some Scenario.second_first).
Proof.
  split.
  - intros message ps fv ci.
    destruct (actual_index_spec fv ps ci) as (Hb & Hlt & Hat).
    unfold AIService.process_message.
    set (i := AIService.actual_index fv ps ci) in *.
    destruct (nth_error ps i) as [p|] eqn:En.
    + split.
      * destruct (Validator._validate_placeholder_value _ p); discriminate.
      * intros H. specialize (H i p Hb En). rewrite (Hat p eq_refl) in H. discriminate.
    + split; [|done]. intros _ j q Hj Hq. apply (Hlt j q); [|done].
      apply nth_error_None in En.
      assert (j < length ps) by (apply nth_error_Some; congruence). lia.
  - split; [|split; [|split; [|split]]]; try (vm_compute; reflexivity).
    eapply reach_edit; [|apply surjective_pairing].
    eapply reach_fill; [apply reach_upload | apply surjective_pairing].
Qed.

(** ** Exceptions that leave the validator *)

Lemma to_int_overflow (x : spec_float) :
  PyFloat.to_int x = inl OverflowError <-> exists s, x = S754_infinity s.
Proof.
  destruct x as [s|s| |s m e]; simpl; split;
    try discriminate; try (intros [s' H]; discriminate); eauto.
Qed.

Lemma validate_month_number_overflow (name value : string) :
  Validator.validate_month_number name value = Raised OverflowError <->
  PyFloat.of_string (PyStr.strip (PyStr.replace_all "," "" value)) = Some PyFloat.pinf.
Proof.
  unfold Validator.validate_month_number.
  destruct (PyFloat.of_string _) as [x|]; [|split; discriminate].
  split.
  - destruct (PyFloat.leb x _) eqn:L; [discriminate|].
    destruct (PyFloat.to_int x) as [[]|z] eqn:T; try discriminate.
    intros _. apply to_int_overflow in T as [[] ->]; [|reflexivity].
    vm_compute in L. discriminate.
  - intros [= ->]. reflexivity.
Qed.

(** X5.  The only exception that [_validate_placeholder_value] lets
    escape is [OverflowError], from [int(number)] on an infinite number.
    In the branch for month counts this happens exactly when the text
    reads as positive infinity; there is no message for it.  For a field
    named "Term Months" the input "inf" raises; the chat handler answers
    "1e999" with its 500 response, and the fill handler answers
    "Infinity" for a field named "Number of Shares" with 500 too,
    neither changing the session. *)
Theorem overflow_escapes_the_validator :
  (forall value p e,
      Validator._validate_placeholder_value value p = Raised e -> e = OverflowError) /\
  (forall name value,
      Validator.validate_month_number name value = Raised OverflowError <->
      PyFloat.of_string (PyStr.strip (PyStr.replace_all "," "" value))
        = Some PyFloat.pinf) /\
  Validator._validate_placeholder_value "inf" (field "Term Months")
    = Raised OverflowError /\
  App.chat "1e999" (initial_session Scenario.term_months) = None /\
  App.fill_field_directly "ph_00000001" "Infinity" (initial_session Scenario.shares)
    = (App.Err500, initial_session Scenario.shares).
Proof.
  split; [|split; [apply validate_month_number_overflow|]].
  - intros value p e. rewrite validate_unfold. cbv zeta.
    destruct (String.eqb _ ""); [discriminate|].
    destruct (Validator.is_email_field _ _).
    { unfold Validator.validate_email. destruct (Re.email _); discriminate. }
    destruct (Validator.is_month_number_field _ _).
    { unfold Validator.validate_month_number.
      destruct (PyFloat.of_string _) as [x|]; [|discriminate].
      destruct (PyFloat.leb x _); [discriminate|].
      destruct (PyFloat.to_int x) as [[]|z]; try discriminate.
      now intros [= <-]. }
    destruct (Validator.is_date_field _ _).
    { unfold Validator.validate_date.
      destruct (Re.date _) as [[[g1 g2] g3]|]; [|discriminate].
      destruct (_ || _); [discriminate|]. destruct (_ || _); discriminate. }
    destruct (Validator.is_address_field _ _).
    { unfold Validator.validate_address.
      destruct (_ || _); [|discriminate].
      destruct (Validator.assoc _ _); [discriminate|].
      destruct (_ =? _)%nat; discriminate. }
    destruct (Validator.is_amount_field _ _).
    { unfold Validator.validate_amount.
      destruct (PyFloat.of_string _) as [x|]; [|discriminate].
      destruct (negb _); destruct (PyFloat.leb _ x); discriminate. }
    destruct (Validator.is_percentage_field _ _).
    { rewrite percentage_output. destruct (PyFloat.of_string _); discriminate. }
    destruct (Validator.is_phone_field _).
    { unfold Validator.validate_phone.
      destruct (_ || _); [discriminate|]. destruct (_ =? _)%nat; discriminate. }
    destruct (Validator.is_number_field _ _); [|discriminate].
    unfold Validator.validate_number.
    destruct (PyFloat.of_string _) as [x|]; [|discriminate].
    destruct (PyFloat.leb _ x); [|discriminate].
    destruct (PyFloat.to_int x) as [[]|z]; try discriminate.
    + now intros [= <-].
    + destruct (PyFloat.eq_int x z); discriminate.
  - split; [|split]; vm_compute; reflexivity.
Qed.
(** X6.  A field that no validator branch claims stores the answer with
    its white space normalised.  An answer that is laid out as white
    space, a word, gaps and words in turn and white space again, where a
    word is a non-empty run of characters that are not white space and a
    gap a non-empty run of white space, is stored as its words in order,
    joined by single spaces; every answer that is not blank is laid out
    so.  Normalising again changes nothing. *)
Theorem text_values_are_whitespace_normal :
  (forall value p,
      plain_text_field p = true -> PyStr.strip value <> "" ->
      Validator._validate_placeholder_value value p
        = Valid (PyStr.normalize_ws value)) /\
  (forall lead w rest trail,
      well_laid lead w rest trail ->
      PyStr.normalize_ws (laid_out lead w rest trail)
        = PyStr.join " " (w :: List.map snd rest)) /\
  (forall s, PyStr.strip s <> "" ->
      exists lead w rest trail,
        well_laid lead w rest trail /\ s = laid_out lead w rest trail) /\
  (forall s, exists ws,
      Forall is_word ws /\
      PyStr.normalize_ws s = PyStr.join " " ws /\
      concat_s ws = PyStr.filter nonspace s) /\
  (forall s, PyStr.normalize_ws (PyStr.normalize_ws s) = PyStr.normalize_ws s) /\
  plain_text_field (field "Signatory") = true /\
  Validator._validate_placeholder_value
    ("  Jane   Q." +:+ String (ascii_of_nat 9) "Roe ") (field "Signatory")
    = Valid "Jane Q. Roe" /\
  Validator._validate_placeholder_value
    (String (ascii_of_nat 160) "Jane" +:+ String (ascii_of_nat 160) "Roe")
    (field "Signatory")
    = Valid "Jane Roe".
Proof.
  split; [|split; [|split; [|split; [|split; [|split; [|split]]]]]].
  - intros value p Hp Hv. rewrite validate_unfold. cbv zeta.
    destruct (String.eqb_spec (PyStr.strip value) ""); [contradiction|].
    unfold plain_text_field in Hp. cbv zeta in Hp.
    rewrite !andb_true_iff, !negb_true_iff in Hp.
    destruct Hp as (((((((-> & ->) & ->) & ->) & ->) & ->) & ->) & ->).
    now rewrite normalize_ws_strip.
  - intros lead w rest trail H. unfold PyStr.normalize_ws.
    now rewrite (split_laid_out lead w rest trail H).
  - intros s Hs. destruct (text_is_laid_out s) as [Hb|H]; [|exact H].
    exfalso. apply (strip_nonempty s Hs). now apply blank_text_filter.
  - intros s. exists (PyStr.split s).
    destruct (split_words s) as [H1 H2]. repeat split; assumption.
  - apply normalize_ws_idempotent.
  - vm_compute. reflexivity.
  - vm_compute. reflexivity.
  - vm_compute. reflexivity.
Qed.

(** ** The e-mail branch *)

Lemma split_first_spec (c : ascii) (s l r : string) :
  Re.split_first c s = Some (l, r) <->
  s = l +:+ String c r /\ PyStr.existsb (Ascii.eqb c) l = false.
Proof.
  revert l. induction s as [|a s IH]; intros l; cbn [Re.split_first].
  - split; [discriminate|]. intros [H _]. destruct l; discriminate.
  - destruct (Ascii.eqb_spec a c) as [->|Hne].
    + split.
      * intros [= <- <-]. now split.
      * intros [H Hl]. destruct l as [|x l]; simpl in *.
        -- now injection H as ->.
        -- injection H as <- _. now rewrite Ascii.eqb_refl in Hl.
    + destruct (Re.split_first c s) as [[l' r']|] eqn:E.
      * split.
        -- intros [= <- <-]. destruct (proj1 (IH l') eq_refl) as [-> Hl].
           split; [reflexivity|]. simpl.
           rewrite Hl, orb_false_r. apply Ascii.eqb_neq. congruence.
        -- intros [H Hl]. destruct l as [|x l]; simpl in *.
           ++ injection H as ->. congruence.
           ++ injection H as <- ->. apply orb_false_iff in Hl as [_ Hl].
              assert (K : Some (l', r') = Some (l, r)) by (apply IH; now split).
              now injection K as -> ->.
      * split; [discriminate|].
        intros [H Hl]. destruct l as [|x l]; simpl in *.
        -- injection H as ->. congruence.
        -- injection H as <- ->. apply orb_false_iff in Hl as [_ Hl].
           assert (K : None = Some (l, r)) by (apply IH; now split).
           discriminate.
Qed.

Lemma split_last_absent (c : ascii) (s : string) :
  PyStr.existsb (Ascii.eqb c) s = false -> Re.split_last c s = None.
Proof.
  induction s as [|a s IH]; [reflexivity|].
  cbn [PyStr.existsb Re.split_last]. intros H.
  apply orb_false_iff in H as [Ha Hs].
  rewrite (IH Hs). rewrite Ascii.eqb_sym in Ha. now rewrite Ha.
Qed.

Lemma split_last_some (c : ascii) (s l r : string) :
  Re.split_last c s = Some (l, r) ->
  s = l +:+ String c r /\ PyStr.existsb (Ascii.eqb c) r = false.
Proof.
  revert l. induction s as [|a s IH]; intros l; cbn [Re.split_last]; [discriminate|].
  destruct (Re.split_last c s) as [[l' r']|] eqn:E.
  - intros [= <- <-]. destruct (IH l' eq_refl) as [-> Hr]. now split.
  - destruct (Ascii.eqb_spec a c) as [->|Hne]; [|discriminate].
    intros [= <- <-]. split; [reflexivity|].
    destruct (PyStr.existsb (Ascii.eqb c) s) eqn:X; [|reflexivity].
    exfalso. clear IH. revert E X. induction s as [|b s IHs]; [discriminate|].
    cbn [Re.split_last PyStr.existsb].
    destruct (Re.split_last c s) as [[? ?]|]; [discriminate|].
    destruct (Ascii.eqb_spec b c) as [->|Hb]; [discriminate|].
    intros _ H. apply orb_true_iff in H as [H|H].
    + apply Ascii.eqb_eq in H. congruence.
    + now apply IHs.
Qed.

Lemma split_last_build (c : ascii) (l r : string) :
  PyStr.existsb (Ascii.eqb c) r = false ->
  Re.split_last c (l +:+ String c r) = Some (l, r).
Proof.
  intros Hr. induction l as [|a l IH]; cbn [String.append Re.split_last].
  - now rewrite (split_last_absent c r Hr), Ascii.eqb_refl.
  - now rewrite IH.
Qed.

(** A class of characters that leaves [c] out keeps [c] out of a text. *)
Lemma forallb_excludes (f : ascii -> bool) (c : ascii) (s : string) :
  f c = false -> PyStr.forallb f s = true -> PyStr.existsb (Ascii.eqb c) s = false.
Proof.
  intros Hc. induction s as [|a s IH]; [reflexivity|].
  cbn [PyStr.forallb PyStr.existsb]. intros H.
  apply andb_true_iff in H as [Ha Hs]. rewrite (IH Hs), orb_false_r.
  apply Ascii.eqb_neq. intros <-. congruence.
Qed.

Lemma email_full_shape (s : string) : Re.email_full s = true <-> email_shape s.
Proof.
  unfold Re.email_full, email_shape. split.
  - destruct (Re.split_first "@" s) as [[loc rest]|] eqn:E1; [|discriminate].
    destruct (Re.split_last "." rest) as [[dom tld]|] eqn:E2; [|discriminate].
    apply split_first_spec in E1 as [-> _].
    apply split_last_some in E2 as [-> _].
    rewrite !andb_true_iff, !negb_true_iff, Nat.leb_le.
    intros (((((H1 & H2) & H3) & H4) & H5) & H6).
    exists loc, dom, tld. repeat split; try assumption.
    + intros ->. discriminate.
    + intros ->. discriminate.
  - intros (loc & dom & tld & -> & Hl & Fl & Hd & Fd & Ht & Ft).
    assert (E1 : Re.split_first "@" (loc +:+ "@" +:+ dom +:+ "." +:+ tld)
                 = Some (loc, dom +:+ "." +:+ tld)).
    { apply split_first_spec. split; [reflexivity|].
      now apply (forallb_excludes Re.email_local_char). }
    rewrite E1.
    change (dom +:+ "." +:+ tld) with (dom +:+ String "." tld).
    rewrite (split_last_build "." dom tld)
      by now apply (forallb_excludes PyStr.isalpha).
    rewrite Fl, Fd, Ft. apply Nat.leb_le in Ht. rewrite Ht.
    destruct loc; [congruence|]. destruct dom; [congruence|]. reflexivity.
Qed.

(** A stripped text does not end in a line feed. *)
Lemma chomp_rstrip (s : string) : Re.chomp (PyStr.rstrip s) = None.
Proof.
  induction s as [|c s IH]; [reflexivity|].
  cbn [PyStr.rstrip]. destruct (PyStr.rstrip s) as [|a r] eqn:E.
  - destruct (PyStr.isspace c) eqn:Ec; [reflexivity|].
    cbn [Re.chomp]. destruct (Ascii.eqb_spec c (ascii_of_nat 10)) as [->|]; [|reflexivity].
    vm_compute in Ec. discriminate.
  - change (Re.chomp (String c (String a r)))
      with (option_map (String c) (Re.chomp (String a r))).
    now rewrite IH.
Qed.

Lemma email_strip (s : string) :
  Re.email (PyStr.strip s) = Re.email_full (PyStr.strip s).
Proof.
  unfold Re.email, Re.dollar, PyStr.strip.
  rewrite chomp_rstrip. apply orb_false_r.
Qed.

Lemma chomp_spec (s t : string) : Re.chomp s = Some t <-> s = t +:+ PyStr.nl.
Proof.
  revert t. induction s as [|c s IH]; intros t.
  - split; [discriminate|]. destruct t; discriminate.
  - destruct s as [|a r].
    + cbn [Re.chomp]. destruct (Ascii.eqb_spec c (ascii_of_nat 10)) as [->|N].
      * split.
        -- intros [= <-]. reflexivity.
        -- destruct t as [|x [|y t]]; [reflexivity | discriminate | discriminate].
      * split; [discriminate|].
        destruct t as [|x [|y t]]; intros [= E]; try discriminate.
        now elim N.
    + change (Re.chomp (String c (String a r)))
        with (option_map (String c) (Re.chomp (String a r))).
      split.
      * destruct (Re.chomp (String a r)) as [u|] eqn:E; [|discriminate].
        intros [= <-]. cbn [String.append]. now rewrite (proj1 (IH u) eq_refl).
      * destruct t as [|x t]; [discriminate|].
        cbn [String.append]. intros [= <- E].
        apply (proj2 (IH t)) in E. now rewrite E.
Qed.

(** X7.  The pattern of the e-mail branch matches exactly the texts of
    the form local@domain.tld: a non-empty local part of letters, digits
    and [._%+-], a non-empty domain of letters, digits, dots and hyphens,
    and after the last dot two or more letters; as its [$] allows, it
    also matches such a text followed by one newline.  A field of type
    contact, or with "email" in its name, stores such an answer as
    typed, without its outer white space, and rejects every other
    non-blank answer with the e-mail message. *)
Theorem email_branch_accepts_addresses_only :
  (forall s, Re.email_full s = true <-> email_shape s) /\
  (forall s, Re.email s = true <->
             email_shape s \/ exists t, s = t +:+ PyStr.nl /\ email_shape t) /\
  (forall value p,
      Validator.is_email_field (Route.name_of p) (p_type p) = true ->
      PyStr.strip value <> "" ->
      (email_shape (PyStr.strip value) /\
       Validator._validate_placeholder_value value p = Valid (PyStr.strip value)) \/
      (~ email_shape (PyStr.strip value) /\
       Validator._validate_placeholder_value value p = Invalid Msg.email)) /\
  Validator._validate_placeholder_value " jane.roe@example.co " (field "Email")
    = Valid "jane.roe@example.co" /\
  Validator._validate_placeholder_value "jane@example" (field "Email")
    = Invalid Msg.email /\
  Validator._validate_placeholder_value "jane roe@example.com" (field "Email")
    = Invalid Msg.email /\
  Validator._validate_placeholder_value
    (String (ascii_of_nat 160) "jane@example.com") (field "Email")
    = Valid "jane@example.com" /\
  Validator._validate_placeholder_value (String (ascii_of_nat 160) "") (field "Email")
    = Invalid Msg.required.
Proof.
  split; [apply email_full_shape|]. split; [|split].
  - intros s. unfold Re.email, Re.dollar. rewrite orb_true_iff, email_full_shape.
    split.
    + intros [H|H]; [left; exact H|]. right.
      destruct (Re.chomp s) as [t|] eqn:E; [|discriminate].
      exists t. split; [now apply chomp_spec | now apply email_full_shape].
    + intros [H|(t & E & H)]; [left; exact H|]. right.
      apply chomp_spec in E. rewrite E. now apply email_full_shape.
  - intros value p Hf Hv. rewrite validate_unfold. cbv zeta.
    destruct (String.eqb_spec (PyStr.strip value) ""); [contradiction|].
    rewrite Hf. unfold Validator.validate_email. rewrite email_strip.
    destruct (Re.email_full (PyStr.strip value)) eqn:E.
    + left. split; [now apply email_full_shape | reflexivity].
    + right. split; [|reflexivity].
      intros H. apply email_full_shape in H. congruence.
  - repeat split; vm_compute; reflexivity.
Qed.

(** ** The phone branch *)

Lemma digit_not_punct (c : ascii) :
  PyStr.isdigit c = true -> Validator.is_phone_punct c = false.
Proof.
  destruct c as [[] [] [] [] [] [] [] []]; vm_compute; intros H;
    first [reflexivity | discriminate H].
Qed.

Lemma forallb_filter (f g : ascii -> bool) (s : string) :
  PyStr.forallb g (PyStr.filter f s) = true ->
  PyStr.forallb (fun c => negb (f c) || g c) s = true.
Proof.
  induction s as [|c s IH]; [reflexivity|].
  cbn [PyStr.filter PyStr.forallb]. destruct (f c); cbn [negb orb].
  - cbn [PyStr.forallb]. intros H. apply andb_true_iff in H as [-> H]. now apply IH.
  - exact IH.
Qed.

Lemma str_isdigit_forallb (s : string) :
  PyStr.str_isdigit s = true -> s <> "" /\ PyStr.forallb PyStr.isdigit s = true.
Proof.
  unfold PyStr.str_isdigit. destruct s; [discriminate|]. intros H. split; [discriminate|exact H].
Qed.

Lemma digits_kept (s : string) :
  PyStr.forallb PyStr.isdigit s = true -> PyStr.filter phone_kept s = s.
Proof.
  intros H. apply filter_all. revert H. apply forallb_impl.
  intros c Hc. unfold phone_kept. now rewrite (digit_not_punct c Hc).
Qed.

Lemma validate_phone_unfold (value : string) :
  Validator.validate_phone value =
  if negb (PyStr.str_isdigit (PyStr.filter phone_kept value)) ||
     (String.length (PyStr.filter phone_kept value) <? 10)%nat ||
     (15 <? String.length (PyStr.filter phone_kept value))%nat
  then Invalid Msg.phone
  else if (String.length (PyStr.filter phone_kept value) =? 10)%nat
  then Valid ("(" +:+ (PyStr.take 3 (PyStr.filter phone_kept value) +:+ (") " +:+
              (PyStr.take 3 (PyStr.drop 3 (PyStr.filter phone_kept value)) +:+
               ("-" +:+ PyStr.drop 6 (PyStr.filter phone_kept value))))))
  else Valid value.
Proof. reflexivity. Qed.

Lemma formatted_phone_digits (ds : string) :
  PyStr.forallb PyStr.isdigit ds = true ->
  PyStr.filter phone_kept
    ("(" +:+ (PyStr.take 3 ds +:+ (") " +:+
     (PyStr.take 3 (PyStr.drop 3 ds) +:+ ("-" +:+ PyStr.drop 6 ds))))) = ds.
Proof.
  intros D. rewrite !filter_app.
  rewrite (digits_kept (PyStr.take 3 ds)) by now apply forallb_take.
  rewrite (digits_kept (PyStr.take 3 (PyStr.drop 3 ds)))
    by now apply forallb_take, forallb_drop.
  rewrite (digits_kept (PyStr.drop 6 ds)) by now apply forallb_drop.
  change (PyStr.filter phone_kept "(") with "".
  change (PyStr.filter phone_kept ") ") with "".
  change (PyStr.filter phone_kept "-") with "".
  cbn [String.append].
  change 6%nat with (3 + 3)%nat. rewrite drop_add_s.
  now rewrite take_drop_s, take_drop_s.
Qed.

Lemma validate_phone_idempotent (value v : string) :
  Validator.validate_phone value = Valid v -> Validator.validate_phone v = Valid v.
Proof.
  rewrite validate_phone_unfold.
  remember (PyStr.filter phone_kept value) as ds eqn:Eds.
  destruct (negb (PyStr.str_isdigit ds) || (String.length ds <? 10)%nat ||
            (15 <? String.length ds)%nat) eqn:G; [discriminate|].
  destruct (String.length ds =? 10)%nat eqn:L.
  - intros H.
    assert (Ev : v = "(" +:+ (PyStr.take 3 ds +:+ (") " +:+
                 (PyStr.take 3 (PyStr.drop 3 ds) +:+ ("-" +:+ PyStr.drop 6 ds)))))
      by (injection H as <-; reflexivity).
    rewrite Ev. clear H Ev Eds value.
    assert (D : PyStr.forallb PyStr.isdigit ds = true).
    { apply orb_false_iff in G as [G _]. apply orb_false_iff in G as [G _].
      apply negb_false_iff in G. now apply str_isdigit_forallb in G. }
    rewrite validate_phone_unfold, (formatted_phone_digits ds D), G, L. reflexivity.
  - intros H. assert (Ev : v = value) by (injection H as <-; reflexivity).
    rewrite Ev, validate_phone_unfold, <-Eds, G, L. reflexivity.
Qed.

(** X8.  The phone branch accepts an answer exactly when, with white
    space, hyphens, parentheses and plus signs removed, it is a run of
    ten to fifteen characters that [str.isdigit] takes (the decimal
    digits and the superscripts one, two and three).  Ten of them are
    stored as [(ddd) ddd-dddd]; a longer number is stored as typed.
    Either way the stored text is accepted again and stored unchanged. *)
Theorem phone_numbers_are_stable :
  (forall value,
      let digits := PyStr.filter (fun c => negb (Validator.is_phone_punct c)) value in
      Validator.validate_phone value =
      if PyStr.str_isdigit digits && (10 <=? String.length digits)%nat &&
         (String.length digits <=? 15)%nat
      then if (String.length digits =? 10)%nat
           then Valid ("(" +:+ PyStr.take 3 digits +:+ ") " +:+
                       PyStr.take 3 (PyStr.drop 3 digits) +:+ "-" +:+
                       PyStr.drop 6 digits)
           else Valid value
      else Invalid Msg.phone) /\
  (forall value v,
      Validator.validate_phone value = Valid v ->
      Validator.validate_phone v = Valid v) /\
  Validator._validate_placeholder_value "555.123.4567" (field "Company Phone")
    = Invalid Msg.phone /\
  Validator._validate_placeholder_value "555 123 4567" (field "Company Phone")
    = Valid "(555) 123-4567" /\
  Validator._validate_placeholder_value "+44 20 7946 0958" (field "Company Phone")
    = Valid "+44 20 7946 0958" /\
  Validator._validate_placeholder_value
    ("555" +:+ String (ascii_of_nat 160) "123" +:+ String (ascii_of_nat 160) "4567")
    (field "Company Phone")
    = Valid "(555) 123-4567" /\
  Validator._validate_placeholder_value
    (PyStr.repeat (ascii_of_nat 178) 10) (field "Company Phone")
    = Valid ("(" +:+ PyStr.repeat (ascii_of_nat 178) 3 +:+ ") " +:+
             PyStr.repeat (ascii_of_nat 178) 3 +:+ "-" +:+
             PyStr.repeat (ascii_of_nat 178) 4).
Proof.
  split; [|split; [exact validate_phone_idempotent|]].
  - intros value digits. unfold Validator.validate_phone. fold digits.
    destruct (PyStr.str_isdigit digits); cbn [negb orb andb]; [|reflexivity].
    rewrite Nat.ltb_antisym, (Nat.ltb_antisym (String.length digits) 15).
    destruct (10 <=? String.length digits)%nat; cbn [negb orb andb]; [|reflexivity].
    destruct (String.length digits <=? 15)%nat; reflexivity.
  - repeat split; vm_compute; reflexivity.
Qed.

(** ** Fields classified as contact *)

Lemma split_first_absent (c : ascii) (s : string) :
  PyStr.existsb (Ascii.eqb c) s = false -> Re.split_first c s = None.
Proof.
  induction s as [|a s IH]; [reflexivity|].
  cbn [PyStr.existsb Re.split_first]. intros H.
  apply orb_false_iff in H as [Ha Hs].
  rewrite Ascii.eqb_sym in Ha. now rewrite Ha, (IH Hs).
Qed.

Lemma phone_has_no_at (value w : string) :
  Validator.validate_phone value = Valid w ->
  PyStr.existsb (Ascii.eqb "@") value = false.
Proof.
  unfold Validator.validate_phone.
  destruct (PyStr.str_isdigit _) eqn:D; [|discriminate].
  intros _. apply str_isdigit_forallb in D as [_ D].
  apply forallb_filter in D.
  revert D. apply forallb_excludes. reflexivity.
Qed.

(** X9.  A field that the detector classifies as contact goes through
    the e-mail branch, whatever its name: an answer is stored only if it
    is an e-mail address.  "Phone Number" is such a field, so every
    answer that the phone branch would accept is rejected there with the
    e-mail message. *)
Theorem contact_fields_take_addresses_only :
  (forall name value v,
      Classifier._identify_placeholder_type name = "contact" ->
      Validator._validate_placeholder_value value (field name) = Valid v ->
      email_shape v) /\
  (forall name value w,
      Classifier._identify_placeholder_type name = "contact" ->
      Validator.validate_phone (PyStr.strip value) = Valid w ->
      Validator._validate_placeholder_value value (field name) = Invalid Msg.email) /\
  Classifier._identify_placeholder_type "Phone Number" = "contact" /\
  Validator.validate_phone "(555) 123-4567" = Valid "(555) 123-4567" /\
  Validator._validate_placeholder_value "(555) 123-4567" (field "Phone Number")
    = Invalid Msg.email.
Proof.
  assert (R : forall name value,
             Classifier._identify_placeholder_type name = "contact" ->
             Validator._validate_placeholder_value value (field name) =
             if String.eqb (PyStr.strip value) "" then Invalid Msg.required
             else if Re.email_full (PyStr.strip value)
                  then Valid (PyStr.strip value) else Invalid Msg.email).
  { intros name value Hc. rewrite validate_unfold. cbv zeta.
    destruct (String.eqb (PyStr.strip value) ""); [reflexivity|].
    unfold Validator.is_email_field.
    change (p_type (field name)) with (Classifier._identify_placeholder_type name).
    rewrite Hc. cbn [String.eqb Ascii.eqb Bool.eqb andb orb].
    unfold Validator.validate_email. now rewrite email_strip. }
  split; [|split].
  - intros name value v Hc. rewrite (R name value Hc).
    destruct (String.eqb _ ""); [discriminate|].
    destruct (Re.email_full _) eqn:E; [|discriminate].
    intros [= <-]. now apply email_full_shape.
  - intros name value w Hc Hp. rewrite (R name value Hc).
    destruct (String.eqb_spec (PyStr.strip value) "") as [Z|Z].
    { rewrite Z in Hp. discriminate Hp. }
    apply phone_has_no_at in Hp.
    unfold Re.email_full. now rewrite (split_first_absent _ _ Hp).
  - repeat split; vm_compute; reflexivity.
Qed.

(** ** Thousands separators *)

Lemma group3_go_filter (n : nat) (s : string) :
  PyStr.forallb not_comma s = true ->
  PyStr.filter not_comma (PyFloat.group3_go n s) = s.
Proof.
  revert n. induction s as [|c s IH]; intros n; [reflexivity|].
  cbn [PyStr.forallb PyFloat.group3_go]. intros H.
  apply andb_true_iff in H as [Hc Hs].
  destruct n; cbn [PyStr.filter]; change (not_comma ",") with false;
    cbv iota; rewrite Hc, IH by exact Hs; reflexivity.
Qed.

Lemma group3_filter (ds : string) :
  PyStr.forallb not_comma ds = true ->
  PyStr.filter not_comma (PyFloat.group3 ds) = ds.
Proof.
  intros H. unfold PyFloat.group3.
  rewrite filter_rev, group3_go_filter by now rewrite forallb_rev.
  apply rev_involutive_s.
Qed.

Lemma group3_go_restart (s : string) :
  s <> "" -> PyFloat.group3_go 0 s = String "," (PyFloat.group3_go 3 s).
Proof. destruct s; [congruence | reflexivity]. Qed.

(** The last three digits form a group of their own. *)
Lemma group3_step (hd : string) (a b c : ascii) :
  hd <> "" ->
  PyFloat.group3 (hd +:+ String a (String b (String c ""))) =
  PyFloat.group3 hd +:+ String "," (String a (String b (String c ""))).
Proof.
  intros Hhd. unfold PyFloat.group3.
  rewrite rev_append_s.
  change (String.rev (String a (String b (String c ""))))
    with (String c (String b (String a ""))).
  cbn [String.append PyFloat.group3_go].
  rewrite group3_go_restart by now apply rev_nonempty.
  rewrite !rev_cons_s, !app_assoc_s. reflexivity.
Qed.

Lemma group3_short (ds : string) :
  (String.length ds <= 3)%nat -> PyFloat.group3 ds = ds.
Proof.
  intros H.
  destruct ds as [|a [|b [|c [|d ds]]]]; try reflexivity.
  simpl in H. lia.
Qed.

Lemma string_of_uint_digits (d : Decimal.uint) :
  PyStr.forallb PyStr.isdecimal (NilEmpty.string_of_uint d) = true.
Proof. induction d; simpl; auto. Qed.

Lemma dec_of_Z_digits (z : Z) :
  PyStr.forallb PyStr.isdecimal (PyFloat.dec_of_Z z) = true.
Proof.
  unfold PyFloat.dec_of_Z, NilZero.string_of_uint.
  destruct (N.to_uint (Z.to_N z)) eqn:E; try reflexivity;
    rewrite <-E; apply string_of_uint_digits.
Qed.

Lemma digit_not_comma (c : ascii) : PyStr.isdecimal c = true -> not_comma c = true.
Proof.
  destruct c as [[] [] [] [] [] [] [] []]; vm_compute; intros H;
    first [reflexivity | discriminate H].
Qed.

Lemma format_int_grouped_plain (z : Z) :
  PyStr.replace_all "," "" (PyFloat.format_int_grouped z) = PyFloat.str_int z.
Proof.
  change (PyStr.replace_all "," "") with (PyStr.replace_all (String "," "") "").
  rewrite replace_all_char_filter. fold not_comma.
  unfold PyFloat.format_int_grouped, PyFloat.str_int.
  rewrite filter_app, group3_filter.
  - destruct (z <? 0)%Z; reflexivity.
  - eapply forallb_impl; [apply digit_not_comma | apply dec_of_Z_digits].
Qed.

(** X10.  The thousands separators of [format(n, ',')]: a run of up to
    three digits is left alone, the last three digits of a longer run
    form a group of their own behind a comma, and taking the commas out
    gives the digits back.  The number branch stores an answer either
    as typed or as an integer written with these separators, whose
    digits are the integer's decimal text. *)
Theorem whole_numbers_get_separators :
  (forall ds, (String.length ds <= 3)%nat -> PyFloat.group3 ds = ds) /\
  (forall hd a b c, hd <> "" ->
      PyFloat.group3 (hd +:+ String a (String b (String c ""))) =
      PyFloat.group3 hd +:+ String "," (String a (String b (String c "")))) /\
  (forall ds, PyStr.forallb not_comma ds = true ->
      PyStr.filter not_comma (PyFloat.group3 ds) = ds) /\
  (forall value v,
      Validator.validate_number value = Valid v ->
      v = value \/
      exists z, v = PyFloat.format_int_grouped z /\
                PyStr.replace_all "," "" v = PyFloat.str_int z) /\
  Validator._validate_placeholder_value "1234567" (field "Company Shares")
    = Valid "1,234,567" /\
  Validator._validate_placeholder_value "1,50,000.0" (field "Company Shares")
    = Valid "150,000" /\
  Validator._validate_placeholder_value "1234.5" (field "Company Shares")
    = Valid "1234.5".
Proof.
  split; [exact group3_short|]. split; [exact group3_step|].
  split; [exact group3_filter|]. split.
  - intros value v. unfold Validator.validate_number.
    destruct (PyFloat.of_string _) as [x|]; [|discriminate].
    destruct (PyFloat.leb _ x); [|intros [= <-]; now left].
    destruct (PyFloat.to_int x) as [[]|z]; try discriminate.
    destruct (PyFloat.eq_int x z); intros [= <-]; [|now left].
    right. exists z. split; [reflexivity|]. apply format_int_grouped_plain.
  - repeat split; vm_compute; reflexivity.
Qed.

(** ** Normalised keys *)

Import DetectorTools.

Lemma squash_well (r : bool) (x : string) : well_squashed r (squash r x) = true.
Proof.
  revert r. induction x as [|c x IH]; intros r; [reflexivity|].
  cbn [squash]. destruct (is_key_alnum c) eqn:E.
  - cbn [well_squashed]. rewrite E. apply IH.
  - destruct r; [apply IH|].
    cbn [well_squashed]. change (is_key_alnum "_") with false. cbv iota.
    rewrite IH. reflexivity.
Qed.

Lemma well_squashed_fixed (r : bool) (s : string) :
  well_squashed r s = true -> squash r s = s.
Proof.
  revert r. induction s as [|c s IH]; intros r; [reflexivity|].
  cbn [well_squashed squash]. destruct (is_key_alnum c).
  - intros H. now rewrite IH.
  - intros H. apply andb_true_iff in H as [H H3]. apply andb_true_iff in H as [H1 H2].
    apply Ascii.eqb_eq in H1 as ->. apply negb_true_iff in H2 as ->.
    now rewrite IH.
Qed.

Lemma well_squashed_chars (r : bool) (s : string) :
  well_squashed r s = true -> PyStr.forallb is_key_char s = true.
Proof.
  revert r. induction s as [|c s IH]; intros r; [reflexivity|].
  cbn [well_squashed PyStr.forallb]. unfold is_key_char at 1.
  destruct (is_key_alnum c).
  - intros H. now rewrite (IH _ H).
  - intros H. apply andb_true_iff in H as [H H3]. apply andb_true_iff in H as [H1 H2].
    rewrite H1. now rewrite (IH _ H3).
Qed.

Lemma alnum_not_underscore (c : ascii) :
  is_key_alnum c = true -> Ascii.eqb c "_" = false.
Proof.
  intros H. apply Ascii.eqb_neq. intros ->. discriminate H.
Qed.

Lemma well_squashed_lstrip (r : bool) (s : string) :
  well_squashed r s = true -> well_squashed false (lstrip_char "_" s) = true.
Proof.
  revert r. induction s as [|c s IH]; intros r; [reflexivity|].
  cbn [well_squashed lstrip_char]. destruct (is_key_alnum c) eqn:E.
  - rewrite (alnum_not_underscore c E). cbn [well_squashed]. now rewrite E.
  - intros H. apply andb_true_iff in H as [H H3]. apply andb_true_iff in H as [H1 H2].
    rewrite H1. now apply (IH true).
Qed.

Lemma well_squashed_rstrip (r : bool) (s : string) :
  well_squashed r s = true -> well_squashed r (rstrip_char "_" s) = true.
Proof.
  revert r. induction s as [|c s IH]; intros r; [reflexivity|].
  cbn [well_squashed rstrip_char]. destruct (is_key_alnum c) eqn:E.
  - intros H. specialize (IH false H).
    destruct (rstrip_char "_" s) eqn:R.
    + rewrite (alnum_not_underscore c E). cbn [well_squashed]. now rewrite E.
    + cbn [well_squashed]. cbn [well_squashed] in IH. now rewrite E.
  - intros H. apply andb_true_iff in H as [H H3]. apply andb_true_iff in H as [H1 H2].
    specialize (IH true H3). rewrite H1.
    destruct (rstrip_char "_" s) eqn:R; [reflexivity|].
    cbn [well_squashed]. cbn [well_squashed] in IH. rewrite E, H1, H2. exact IH.
Qed.

Lemma rstrip_char_idempotent (x : ascii) (s : string) :
  rstrip_char x (rstrip_char x s) = rstrip_char x s.
Proof.
  induction s as [|c s IH]; [reflexivity|].
  cbn [rstrip_char]. destruct (rstrip_char x s) as [|a r] eqn:R.
  - destruct (Ascii.eqb c x) eqn:E; [reflexivity|].
    cbn [rstrip_char]. now rewrite E.
  - change (rstrip_char x (String c (String a r)))
      with (match rstrip_char x (String a r) with
            | "" => if Ascii.eqb c x then "" else String c ""
            | q => String c q
            end).
    now rewrite IH.
Qed.

Lemma lstrip_char_head (x : ascii) (s : string) :
  lstrip_char x (lstrip_char x s) = lstrip_char x s.
Proof.
  induction s as [|c s IH]; [reflexivity|].
  cbn [lstrip_char]. destruct (Ascii.eqb c x) eqn:E; [exact IH|].
  cbn [lstrip_char]. now rewrite E.
Qed.

Lemma lstrip_rstrip_char (x : ascii) (t : string) :
  lstrip_char x t = t -> lstrip_char x (rstrip_char x t) = rstrip_char x t.
Proof.
  destruct t as [|c t]; [reflexivity|].
  cbn [lstrip_char rstrip_char]. destruct (Ascii.eqb c x) eqn:E.
  - intros H. exfalso.
    assert (L : (String.length (lstrip_char x t) <= String.length t)%nat).
    { clear. induction t as [|a t IH]; simpl; [lia|].
      destruct (Ascii.eqb a x); simpl; lia. }
    rewrite H in L. simpl in L. lia.
  - intros _. destruct (rstrip_char x t); cbn [lstrip_char]; now rewrite E.
Qed.

Lemma strip_char_idempotent (x : ascii) (s : string) :
  strip_char x (strip_char x s) = strip_char x s.
Proof.
  unfold strip_char.
  rewrite lstrip_rstrip_char by apply lstrip_char_head.
  apply rstrip_char_idempotent.
Qed.

Lemma key_char_lower (c : ascii) : is_key_char c = true -> PyStr.lower_c c = c.
Proof.
  destruct c as [[] [] [] [] [] [] [] []]; vm_compute; intros H;
    first [reflexivity | discriminate H].
Qed.

Lemma key_char_nonspace (c : ascii) : is_key_char c = true -> nonspace c = true.
Proof.
  destruct c as [[] [] [] [] [] [] [] []]; vm_compute; intros H;
    first [reflexivity | discriminate H].
Qed.

Lemma lower_fixed (s : string) :
  PyStr.forallb is_key_char s = true -> PyStr.lower s = s.
Proof.
  unfold PyStr.lower. induction s as [|c s IH]; [reflexivity|].
  cbn [PyStr.forallb PyStr.map]. intros H. apply andb_true_iff in H as [Hc Hs].
  now rewrite (key_char_lower c Hc), IH.
Qed.

Lemma rstrip_fixed (s : string) :
  PyStr.forallb nonspace s = true -> PyStr.rstrip s = s.
Proof.
  induction s as [|c s IH]; [reflexivity|].
  cbn [PyStr.forallb PyStr.rstrip]. intros H. apply andb_true_iff in H as [Hc Hs].
  rewrite (IH Hs). destruct s; [|reflexivity].
  unfold nonspace in Hc. apply negb_true_iff in Hc. now rewrite Hc.
Qed.

Lemma lstrip_fixed (s : string) :
  PyStr.forallb nonspace s = true -> PyStr.lstrip s = s.
Proof.
  destruct s as [|c s]; [reflexivity|].
  cbn [PyStr.forallb PyStr.lstrip]. intros H. apply andb_true_iff in H as [Hc _].
  unfold nonspace in Hc. apply negb_true_iff in Hc. now rewrite Hc.
Qed.

Lemma strip_fixed (s : string) :
  PyStr.forallb nonspace s = true -> PyStr.strip s = s.
Proof.
  intros H. unfold PyStr.strip. rewrite (lstrip_fixed s H). now apply rstrip_fixed.
Qed.

(** What [clean_key] returns. *)
Lemma clean_key_canonical (name : string) :
  well_squashed false (clean_key name) = true /\
  strip_char "_" (clean_key name) = clean_key name.
Proof.
  unfold clean_key. split.
  - unfold strip_char. apply well_squashed_rstrip.
    eapply well_squashed_lstrip. apply squash_well.
  - apply strip_char_idempotent.
Qed.

Lemma canonical_clean (k : string) :
  well_squashed false k = true -> strip_char "_" k = k -> clean_key k = k.
Proof.
  intros W S. unfold clean_key.
  pose proof (well_squashed_chars _ _ W) as C.
  rewrite (lower_fixed k C).
  rewrite strip_fixed by (eapply forallb_impl; [apply key_char_nonspace | exact C]).
  now rewrite (well_squashed_fixed _ _ W).
Qed.

Lemma assoc_in (k v : string) (l : list (string * string)) :
  Validator.assoc k l = Some v -> In (k, v) l.
Proof.
  induction l as [|[a b] l IH]; cbn [Validator.assoc]; [discriminate|].
  destruct (String.eqb_spec a k) as [->|_].
  - intros [= ->]. now left.
  - intros H. right. now apply IH.
Qed.

(** X11.  A normalised key is made of lower-case letters, digits and
    underscores, with no underscore at either end and no two
    underscores in a row, and normalising it again gives the same key:
    the table of variations maps every name to a key that the table
    leaves alone. *)
Theorem normalized_keys_are_canonical :
  (forall name,
      let k := _generate_normalized_key name in
      PyStr.forallb is_key_char k = true /\
      well_squashed false k = true /\
      strip_char "_" k = k /\
      _generate_normalized_key k = k) /\
  _generate_normalized_key "Company" = "company_name" /\
  _generate_normalized_key "  Post-Money Valuation Cap " = "valuation_cap" /\
  _generate_normalized_key "Date of SAFE:" = "date_of_safe" /\
  _generate_normalized_key "Investor's  E-mail (work)" = "investor_s_e_mail_work" /\
  _generate_normalized_key "???" = "".
Proof.
  split; [|repeat split; vm_compute; reflexivity].
  intros name k. unfold k, _generate_normalized_key.
  destruct (clean_key_canonical name) as [W S].
  set (c := clean_key name) in *.
  destruct (Validator.assoc c key_mappings) as [v|] eqn:A; cbn [default].
  - apply assoc_in in A. unfold key_mappings in A. cbn [In] in A.
    repeat (destruct A as [A|A]; [injection A as _ <-; vm_compute; auto|]).
    contradiction.
  - split; [eapply well_squashed_chars; exact W|]. split; [exact W|].
    split; [exact S|].
    rewrite (canonical_clean c W S), A. reflexivity.
Qed.

(** ** The classifier's types and the format check *)

Lemma classifier_range (name : string) :
  In (Classifier._identify_placeholder_type name) valid_types \/
  Classifier._identify_placeholder_type name = "title".
Proof.
  unfold Classifier._identify_placeholder_type, Classifier.type_indicators.
  cbn [Classifier.scan_indicators String.eqb Ascii.eqb Bool.eqb andb].
  repeat match goal with
         | |- context [if ?c then _ else _] => destruct c
         end;
    first [ right; reflexivity
          | left; unfold valid_types; cbn [In];
            repeat (first [left; reflexivity | right]) ].
Qed.

Lemma chomp_app (s t : string) : Re.chomp s = Some t -> s = t +:+ PyStr.nl.
Proof.
  revert t. induction s as [|c s IH]; intros t; [discriminate|].
  destruct s as [|d s].
  - cbn [Re.chomp]. destruct (Ascii.eqb_spec c (ascii_of_nat 10)) as [->|]; [|discriminate].
    now intros [= <-].
  - change (Re.chomp (String c (String d s)))
      with (option_map (String c) (Re.chomp (String d s))).
    destruct (Re.chomp (String d s)) as [u|]; [|discriminate].
    intros [= <-]. cbn [String.append]. f_equal. now apply IH.
Qed.

(** A key that holds a hyphen fails the key pattern. *)
Lemma key_format_hyphen (key : string) :
  PyStr.existsb (Ascii.eqb "-") key = true -> key_format key = false.
Proof.
  intros H. unfold key_format, Re.dollar.
  assert (F : forall s, PyStr.existsb (Ascii.eqb "-") s = true ->
                        PyStr.forallb is_key_char s = false).
  { intros s Hs. destruct (PyStr.forallb is_key_char s) eqn:E; [|reflexivity].
    rewrite (forallb_excludes is_key_char "-" s eq_refl E) in Hs. discriminate. }
  rewrite (F key H), andb_false_r. cbn [orb].
  destruct (Re.chomp key) as [t|] eqn:C; [|reflexivity].
  apply chomp_app in C. subst key. rewrite existsb_app in H.
  cbn in H. rewrite orb_false_r in H. now rewrite (F t H), andb_false_r.
Qed.

Lemma table_location_hyphen (t r c : nat) :
  PyStr.existsb (Ascii.eqb "-") (Render.table_location t r c) = true.
Proof.
  unfold Render.table_location. rewrite existsb_app.
  apply orb_true_iff. right. reflexivity.
Qed.

Lemma in_list_In (x : string) (l : list string) :
  Render.in_list x l = true <-> In x l.
Proof.
  unfold Render.in_list. rewrite existsb_exists. split.
  - intros [y [Hy E]]. apply String.eqb_eq in E. now subst.
  - intros H. exists x. split; [exact H | apply String.eqb_refl].
Qed.

(** X12.  [_identify_placeholder_type] returns one of eleven type names:
    the ten that [validate_placeholder_format] knows, or "title", which
    it does not know.  So the format check warns of an unknown type for
    a placeholder typed by the classifier exactly when the type is
    "title", as for a field named "Title".  The check also warns of
    invalid characters for every key the scanner builds for a table
    cell, since the cell address t-r-c holds hyphens. *)
Theorem format_check_against_the_scanner :
  (forall name,
      In (Classifier._identify_placeholder_type name) valid_types \/
      Classifier._identify_placeholder_type name = "title") /\
  (forall p,
      p_type p = Classifier._identify_placeholder_type (p_name p) ->
      (In ("Unknown type: " +:+ p_type p)
          (warnings (validate_placeholder_format (of_placeholder p))) <->
       p_type p = "title")) /\
  (forall p t r c,
      p_key p = unique_key (p_normalized_key p)
                  (LocStr (Render.table_location t r c)) ->
      In ("Key contains invalid characters: " +:+ p_key p)
         (warnings (validate_placeholder_format (of_placeholder p)))) /\
  (forall p, valid (validate_placeholder_format (of_placeholder p)) = true) /\
  Classifier._identify_placeholder_type "Title" = "title" /\
  warnings (validate_placeholder_format (of_placeholder (field "Title")))
    = ["Unknown type: title"].
Proof.
  split; [exact classifier_range|]. split; [|split; [|split]].
  - intros p Hp.
    unfold validate_placeholder_format, of_placeholder. cbn [warnings f_key f_name f_type].
    assert (K : forall a b : string, "Unknown type: " +:+ a <> "Key contains invalid characters: " +:+ b).
    { intros a b H. discriminate H. }
    split.
    + intros H. repeat rewrite in_app_iff in H.
      destruct H as [H | [[H | H] | H]].
      * destruct (negb (key_format (p_key p))); cbn [In] in H; [|contradiction].
        destruct H as [H|[]]. symmetry in H. now apply K in H.
      * destruct (_ <? _)%nat; cbn [In] in H; [|contradiction].
        destruct H as [H|[]]. discriminate H.
      * destruct (_ <? _)%nat; cbn [In] in H; [|contradiction].
        destruct H as [H|[]]. discriminate H.
      * destruct (negb (Render.in_list (p_type p) valid_types)) eqn:E;
          cbn [In] in H; [|contradiction].
        apply negb_true_iff in E.
        destruct (classifier_range (p_name p)) as [C|C]; rewrite <-Hp in C.
        -- apply in_list_In in C. congruence.
        -- exact C.
    + intros T. apply in_app_iff. right. apply in_app_iff. right.
      rewrite T. now left.
  - intros p t r c Hk.
    unfold validate_placeholder_format, of_placeholder. cbn [warnings f_key].
    apply in_app_iff. left.
    rewrite key_format_hyphen; [now left|].
    rewrite Hk. unfold unique_key. cbn [Render.str_location].
    rewrite !existsb_app, table_location_hyphen. now rewrite !orb_true_r.
  - reflexivity.
  - split; vm_compute; reflexivity.
Qed.

(** ** Groups of related placeholders *)

Lemma group_of_known (p : placeholder) : In (group_of p) group_names.
Proof.
  unfold group_of, group_names.
  repeat match goal with
         | |- context [if ?c then _ else _] => destruct c
         end; cbn [In]; repeat (first [left; reflexivity | right]).
Qed.

(** The dictionary after the loop: each of the eight groups holds its
    members in the order of the list. *)
Lemma groups_after_loop (ps seen : list placeholder) :
  fold_left (fun groups p => append_to (group_of p) p groups) ps
    (List.map (fun k => (k, members k seen)) group_names) =
  List.map (fun k => (k, members k (seen ++ ps))) group_names.
Proof.
  revert seen. induction ps as [|p ps IH]; intros seen; cbn [fold_left].
  - now rewrite app_nil_r.
  - replace (seen ++ p :: ps)%list with ((seen ++ [p]) ++ ps)%list
      by now rewrite <-app_assoc.
    rewrite <-IH. f_equal.
    unfold members. pose proof (group_of_known p) as K.
    unfold group_names in *. cbn [List.map append_to].
    rewrite !List.filter_app. cbn [List.filter].
    cbn [In] in K.
    repeat (destruct K as [K|K];
            [rewrite <-K; cbn [String.eqb Ascii.eqb Bool.eqb];
             rewrite ?app_nil_r; reflexivity|]).
    contradiction.
Qed.

Lemma members_length (ps : list placeholder) :
  length (concat (List.map (fun k => members k ps) group_names)) = length ps.
Proof.
  induction ps as [|p ps IH]; [reflexivity|].
  unfold group_names, members in *. cbn [List.map concat List.filter] in *.
  pose proof (group_of_known p) as K. unfold group_names in K. cbn [In] in K.
  rewrite !length_app in *. cbn [length] in IH.
  repeat (destruct K as [K|K];
          [rewrite <-K; cbn [String.eqb Ascii.eqb Bool.eqb length]; lia|]).
  contradiction.
Qed.

Lemma concat_filter_nonempty (l : list (string * list placeholder)) :
  concat (List.map snd (List.filter (fun kv => negb (is_empty_group kv)) l)) =
  concat (List.map snd l).
Proof.
  induction l as [|[k g] l IH]; [reflexivity|].
  cbn [List.filter]. unfold is_empty_group at 1. cbn [snd].
  destruct g; cbn [negb List.map concat snd]; now rewrite IH.
Qed.

(** X13.  [group_related_placeholders] splits the list: a group of the
    result is never empty and holds, in the order of the list, exactly
    the placeholders that the chain of tests sends to it; each
    placeholder is in the group of its own test and so in one group
    only; the groups come in the fixed order of the eight names; and
    together they hold as many placeholders as the list. *)
Theorem groups_split_the_placeholders (ps : list placeholder) :
  let groups := group_related_placeholders ps in
  groups = List.filter (fun kv => negb (is_empty_group kv))
             (List.map (fun k => (k, members k ps)) group_names) /\
  (forall k g, In (k, g) groups -> g <> [] /\ g = members k ps) /\
  (forall p, In p ps -> In (group_of p, members (group_of p) ps) groups) /\
  length (concat (List.map snd groups)) = length ps.
Proof.
  intros groups.
  assert (E : groups = List.filter (fun kv => negb (is_empty_group kv))
                         (List.map (fun k => (k, members k ps)) group_names)).
  { unfold groups, group_related_placeholders. f_equal.
    exact (groups_after_loop ps []). }
  split; [exact E|]. rewrite E. split; [|split].
  - intros k g H. apply filter_In in H as [H N].
    apply in_map_iff in H as (k' & [= <- <-] & _).
    split; [|reflexivity].
    unfold is_empty_group in N. cbn [snd] in N. now destruct (members k' ps).
  - intros p Hp. apply filter_In. split.
    + apply in_map_iff. exists (group_of p). split; [reflexivity | apply group_of_known].
    + unfold is_empty_group. cbn [snd].
      assert (M : In p (members (group_of p) ps)).
      { unfold members. apply filter_In. split; [exact Hp | apply String.eqb_refl]. }
      now destruct (members (group_of p) ps).
  - rewrite concat_filter_nonempty, map_map. cbn [snd]. apply members_length.
Qed.

(** ** The context window *)

(** [s[a:b]] for [0 <= a <= b <= len(s)] *)
Lemma py_slice_inside (s : string) (a b : Z) :
  (0 <= a <= b)%Z -> (b <= Z.of_nat (String.length s))%Z ->
  py_slice s a b =
  PyStr.take (Z.to_nat b - Z.to_nat a) (PyStr.drop (Z.to_nat a) s).
Proof.
  intros Hab Hb. unfold py_slice.
  destruct (Z.ltb_spec a 0); [lia|]. destruct (Z.ltb_spec b 0); [lia|].
  rewrite !Z.min_l by lia. f_equal. lia.
Qed.

Lemma py_slice_length (s : string) (a b : Z) :
  (0 <= a <= b)%Z -> (b <= Z.of_nat (String.length s))%Z ->
  Z.of_nat (String.length (py_slice s a b)) = (b - a)%Z.
Proof.
  intros Hab Hb. rewrite py_slice_inside, take_length_s, drop_length_s by assumption.
  lia.
Qed.

Lemma py_slice_split (s : string) (a b c : Z) :
  (0 <= a <= b)%Z -> (b <= c)%Z -> (c <= Z.of_nat (String.length s))%Z ->
  py_slice s a c = py_slice s a b +:+ py_slice s b c.
Proof.
  intros Hab Hbc Hc. rewrite !py_slice_inside by lia.
  replace (Z.to_nat c - Z.to_nat a)%nat
    with ((Z.to_nat b - Z.to_nat a) + (Z.to_nat c - Z.to_nat b))%nat by lia.
  rewrite take_add_s, <-drop_add_s. do 3 f_equal. lia.
Qed.

(** X14.  For a match at [start, end) of a text, the context is the
    matched characters with up to [context_size] characters of the text
    on each side, and three dots on a side where the text goes on.  The
    matched literal is always part of its context. *)
Theorem context_holds_the_match (text : string) (start end_ size : Z) :
  (0 <= start <= end_)%Z -> (end_ <= Z.of_nat (String.length text))%Z ->
  (0 <= size)%Z ->
  let len := Z.of_nat (String.length text) in
  let before := py_slice text (Z.max 0 (start - size)) start in
  let matched := py_slice text start end_ in
  let after := py_slice text end_ (Z.min len (end_ + size)) in
  _extract_context text (start, end_) size =
    (if (size <? start)%Z then "..." else "") +:+ before +:+ matched +:+ after +:+
    (if (end_ + size <? len)%Z then "..." else "") /\
  Z.of_nat (String.length before) = Z.min start size /\
  Z.of_nat (String.length matched) = (end_ - start)%Z /\
  Z.of_nat (String.length after) = Z.min (len - end_) size /\
  PyStr.contains matched (_extract_context text (start, end_) size) = true.
Proof.
  intros Hse He Hsz len before matched after.
  assert (E : _extract_context text (start, end_) size =
              (if (size <? start)%Z then "..." else "") +:+ before +:+ matched +:+
              after +:+ (if (end_ + size <? len)%Z then "..." else "")).
  { unfold _extract_context. fold len.
    rewrite (py_slice_split text _ start) by lia.
    rewrite (py_slice_split text start end_) by lia.
    fold before matched after.
    assert (C1 : (0 <? Z.max 0 (start - size))%Z = (size <? start)%Z).
    { destruct (Z.ltb_spec size start), (Z.ltb_spec 0 (Z.max 0 (start - size))); lia. }
    assert (C2 : (Z.min len (end_ + size) <? len)%Z = (end_ + size <? len)%Z).
    { destruct (Z.ltb_spec (end_ + size) len),
        (Z.ltb_spec (Z.min len (end_ + size)) len); lia. }
    rewrite C1, C2.
    destruct (size <? start)%Z; destruct (end_ + size <? len)%Z;
      cbn [String.append]; rewrite ?app_assoc_s, ?app_empty_r; reflexivity. }
  split; [exact E|].
  split; [unfold before; rewrite py_slice_length by lia; lia|].
  split; [unfold matched; rewrite py_slice_length by lia; lia|].
  split; [unfold after; rewrite py_slice_length by (fold len; lia); lia|].
  rewrite E.
  rewrite <-(app_assoc_s _ before).
  apply contains_spec.
  exists ((if (size <? start)%Z then "..." else "") +:+ before),
         (after +:+ (if (end_ + size <? len)%Z then "..." else "")).
  reflexivity.
Qed.

Lemma context_holds_the_match_witness :
  let text := "in exchange for the payment of $[___] by the Investor" in
  ((0 <= 31 <= 37)%Z /\ (37 <= Z.of_nat (String.length text))%Z /\ (0 <= 10)%Z) /\
  _extract_context text (31, 37)%Z 10 = "...ayment of $[___] by the In..." /\
  PyStr.contains "$[___]" (_extract_context text (31, 37)%Z 10) = true.
Proof.
  intros text.
  assert (H1 : (0 <= 31 <= 37)%Z) by lia.
  assert (H2 : (37 <= Z.of_nat (String.length text))%Z) by (vm_compute; discriminate).
  assert (H3 : (0 <= 10)%Z) by lia.
  split; [auto|].
  destruct (context_holds_the_match text 31 37 10 H1 H2 H3) as (E & _ & _ & _ & C).
  split; [vm_compute; reflexivity | exact C].
Defined.

(** ** Upload names *)

(** X15.  An upload is accepted by name exactly when the text after the
    last dot of the file name is "docx" or "doc" in any mix of upper and
    lower case; what stands before that dot does not matter and may be
    empty.  A name without a dot is refused. *)
Theorem allowed_file_checks_the_last_extension :
  (forall filename,
      Web.allowed_file filename = true <->
      exists stem extension,
        filename = stem +:+ "." +:+ extension /\
        PyStr.existsb (Ascii.eqb ".") extension = false /\
        (PyStr.lower extension = "docx" \/ PyStr.lower extension = "doc")) /\
  Web.allowed_file "Contract.v2.DocX" = true /\
  Web.allowed_file ".doc" = true /\
  Web.allowed_file "contract.docx.exe" = false /\
  Web.allowed_file "contract.docx." = false /\
  Web.allowed_file "docx" = false.
Proof.
  split; [|repeat split; vm_compute; reflexivity].
  intros filename. unfold Web.allowed_file. split.
  - intros H. apply andb_true_iff in H as [_ H].
    destruct (Re.split_last "." filename) as [[stem ext]|] eqn:E; [|discriminate].
    apply split_last_some in E as [-> Hd].
    exists stem, ext. split; [reflexivity|]. split; [exact Hd|].
    apply in_list_In in H. cbn [In Web.ALLOWED_EXTENSIONS] in H.
    destruct H as [H|[H|[]]]; auto.
  - intros (stem & ext & -> & Hd & He).
    change (stem +:+ "." +:+ ext) with (stem +:+ String "." ext).
    rewrite (split_last_build "." stem ext Hd).
    apply andb_true_iff. split.
    + apply contains_spec. exists stem, ext. reflexivity.
    + apply in_list_In. cbn [In Web.ALLOWED_EXTENSIONS].
      destruct He as [->| ->]; auto.
Qed.

(** ** Markup *)

Lemma map_chars_app (f : ascii -> string) (a b : string) :
  map_chars f (a +:+ b) = map_chars f a +:+ map_chars f b.
Proof.
  induction a as [|c a IH]; [reflexivity|].
  cbn [String.append map_chars]. now rewrite IH, app_assoc_s.
Qed.

Lemma map_chars_map_chars (f g : ascii -> string) (s : string) :
  map_chars f (map_chars g s) = map_chars (fun c => map_chars f (g c)) s.
Proof.
  induction s as [|c s IH]; [reflexivity|].
  cbn [map_chars]. now rewrite map_chars_app, IH.
Qed.

Lemma map_chars_ext (f g : ascii -> string) (s : string) :
  (forall c, f c = g c) -> map_chars f s = map_chars g s.
Proof.
  intros H. induction s as [|c s IH]; [reflexivity|].
  cbn [map_chars]. now rewrite H, IH.
Qed.

Lemma escape_html_entities (text : string) :
  Web._escape_html text false = map_chars Web.entity text.
Proof.
  unfold Web._escape_html. cbn [negb].
  change "&" with (String "&" "") at 1.
  change "<" with (String "<" "") at 1.
  change ">" with (String ">" "") at 1.
  change "'" with (String "'" "") at 1.
  unfold Msg.dq.
  rewrite !replace_all_char, !map_chars_map_chars.
  apply map_chars_ext.
  intros c. destruct c as [[] [] [] [] [] [] [] []]; vm_compute; reflexivity.
Qed.

Lemma entity_has_no_markup (c : ascii) :
  PyStr.existsb Web.is_markup (Web.entity c) = false.
Proof. destruct c as [[] [] [] [] [] [] [] []]; vm_compute; reflexivity. Qed.

(** X16.  With [preserve_spans] off, [_escape_html] works character by
    character: each of the five characters [&], [<], [>], the double
    quote and the apostrophe becomes its entity, every other character
    stays, and an ampersand that an entity brings in is not escaped
    again.  No [<], [>] or quote is left in the result.  With
    [preserve_spans] on, which is how the preview calls it, the text
    comes back unchanged. *)
Theorem escape_html_is_character_wise :
  (forall text, Web._escape_html text false = map_chars Web.entity text) /\
  (forall text, PyStr.existsb Web.is_markup (Web._escape_html text false) = false) /\
  (forall text, Web._escape_html text true = text) /\
  Web._escape_html "<a href='x'>R&D</a>" false
    = "&lt;a href=&#39;x&#39;&gt;R&amp;D&lt;/a&gt;".
Proof.
  split; [exact escape_html_entities|]. split; [|split].
  - intros text. rewrite escape_html_entities.
    induction text as [|c text IH]; [reflexivity|].
    cbn [map_chars]. now rewrite existsb_app, entity_has_no_markup, IH.
  - reflexivity.
  - vm_compute. reflexivity.
Qed.

(** ** What the preview shows of a value *)

(** Appends brought to one shape: nested to the right, literals pushed in. *)
Ltac norm_app :=
  repeat first [rewrite app_assoc_s | progress cbn [String.append]].

Lemma replace_first_spec (old new s : string) :
  PyStr.contains old s = true ->
  exists a b, s = a +:+ old +:+ b /\
              PyStr.replace_first old new s = a +:+ new +:+ b.
Proof.
  unfold PyStr.replace_first.
  induction s as [|c s IH]; intros H.
  - cbn [PyStr.contains] in H. rewrite orb_false_r in H.
    cbn [PyStr.replace_first_ne]. rewrite H.
    apply startswith_spec in H as [r Hr].
    exists "", r. split; [exact Hr|]. cbn [String.append].
    f_equal. rewrite Hr at 1. apply drop_app_length.
  - cbn [PyStr.contains] in H. cbn [PyStr.replace_first_ne].
    destruct (PyStr.startswith (String c s) old) eqn:E.
    + apply startswith_spec in E as [r Hr].
      exists "", r. split; [exact Hr|]. cbn [String.append].
      f_equal. rewrite Hr. apply drop_app_length.
    + cbn [orb] in H. destruct (IH H) as (a & b & -> & R).
      exists (String c a), b. split; [reflexivity|].
      cbn [String.append]. now rewrite R.
Qed.

Lemma contains_app_r (x a b : string) :
  PyStr.contains x b = true -> PyStr.contains x (a +:+ b) = true.
Proof.
  intros H. apply contains_spec in H as (u & v & ->).
  apply contains_spec. exists (a +:+ u), v. now rewrite app_assoc_s.
Qed.

Lemma contains_app_l (x a b : string) :
  PyStr.contains x a = true -> PyStr.contains x (a +:+ b) = true.
Proof.
  intros H. apply contains_spec in H as (u & v & ->).
  apply contains_spec. exists u, (v +:+ b). now rewrite !app_assoc_s.
Qed.

Lemma contains_refl (x : string) : PyStr.contains x x = true.
Proof. apply contains_spec. exists "", "". cbn [String.append]. now rewrite app_empty_r. Qed.

Lemma no_placeholder_here (i : Z) (ps : list placeholder) (k : nat) :
  (forall j q, nth_error ps j = Some q -> Render.in_paragraph i q = false) ->
  List.filter (fun ip => Render.in_paragraph i (snd ip)) (Render.enumerate_from k ps)
    = [].
Proof.
  revert k. induction ps as [|q ps IH]; intros k H; [reflexivity|].
  cbn [Render.enumerate_from List.filter snd].
  rewrite (H 0%nat q eq_refl). apply IH.
  intros j q' Hj. exact (H (S j) q' Hj).
Qed.

Lemma one_placeholder_here (i : Z) (ps : list placeholder) (k idx : nat)
  (p : placeholder) :
  nth_error ps idx = Some p -> Render.in_paragraph i p = true ->
  (forall j q, nth_error ps j = Some q -> Render.in_paragraph i q = true -> j = idx) ->
  List.filter (fun ip => Render.in_paragraph i (snd ip)) (Render.enumerate_from k ps)
    = [((k + idx)%nat, p)].
Proof.
  revert k idx. induction ps as [|q ps IH]; intros k idx Hp Hloc Honly.
  - destruct idx; discriminate.
  - cbn [Render.enumerate_from List.filter snd]. destruct idx as [|idx].
    + injection Hp as ->. rewrite Hloc, Nat.add_0_r. f_equal.
      apply no_placeholder_here. intros j q' Hj.
      destruct (Render.in_paragraph i q') eqn:E; [|reflexivity].
      discriminate (Honly (S j) q' Hj E).
    + destruct (Render.in_paragraph i q) eqn:E.
      * discriminate (Honly 0%nat q eq_refl E).
      * rewrite (IH (S k) idx Hp Hloc).
        -- now rewrite Nat.add_succ_r.
        -- intros j q' Hj Hq. specialize (Honly (S j) q' Hj Hq). lia.
Qed.

(** X17.  The preview shows a stored value as it is.  In a paragraph
    that holds one placeholder of the index, filled and not the current
    field, the value stands in the markup character for character, in
    the [title] attribute and in the body of the span, and
    [_escape_html] is called so that it changes nothing.  An answer to a
    plain text field is stored with its markup characters, so an answer
    that is markup is markup in the preview. *)
Theorem preview_shows_the_value_unescaped (fv : gmap string string)
  (ps : list placeholder) (idx : nat) (p : placeholder)
  (current_index : option nat) (i : Z) (text style : string) :
  nth_error ps idx = Some p ->
  Render.in_paragraph i p = true ->
  (forall j q, nth_error ps j = Some q -> Render.in_paragraph i q = true -> j = idx) ->
  current_index <> Some idx ->
  PyStr.contains (p_original p) text = true ->
  is_filled fv p = true ->
  let shown := Render.preview_paragraph fv current_index i text style ps in
  PyStr.contains
    ("(Value: " +:+ Render.lookup_value fv p +:+ ")" +:+ Render.dq) shown = true /\
  PyStr.contains
    (Render.indent +:+ Render.lookup_value fv p +:+ "</span>") shown = true /\
  Web._escape_html shown true = shown.
Proof.
  intros Hp Hloc Honly Hcur Hin Hf shown.
  assert (R : Render.preview_replacement fv current_index idx p =
              Render.span_markup "placeholder-filled"
                (" - Click to edit (Value: " +:+ Render.lookup_value fv p +:+ ")")
                (Render.lookup_value fv p) (p_name p) (ident p) (p_key p) idx).
  { unfold Render.preview_replacement. cbv zeta.
    assert (Ec : match current_index with
                 | Some c => (idx =? c)%nat
                 | None => false
                 end = false).
    { destruct current_index as [c|]; [|reflexivity].
      apply Nat.eqb_neq. intros ->. now apply Hcur. }
    now rewrite Ec, Hf. }
  assert (E : exists a b,
             shown = a +:+ Render.preview_replacement fv current_index idx p +:+ b).
  { unfold shown, Render.preview_paragraph, Render.preview_para_loop,
      Render.para_placeholders.
    rewrite (one_placeholder_here i ps 0 idx p Hp Hloc Honly).
    cbn [Nat.add fold_left Render.preview_step]. rewrite Hin.
    cbn [negb Render.in_list List.existsb fst].
    destruct (replace_first_spec (p_original p)
                (Render.preview_replacement fv current_index idx p) text Hin)
      as (a & b & _ & ->).
    exists ("<p class=" +:+ Render.dq +:+ Render.style_class style +:+ Render.dq +:+
            ">" +:+ a), (b +:+ "</p>").
    now rewrite !app_assoc_s. }
  destruct E as (a & b & E).
  split; [|split; [|reflexivity]].
  - rewrite E, R. apply contains_app_r, contains_app_l. apply contains_spec.
    exists ("<span class=" +:+ Render.dq +:+ "placeholder-filled" +:+ Render.dq +:+
            " " +:+ PyStr.nl +:+ Render.indent +:+ "title=" +:+ Render.dq +:+
            "Field: " +:+ p_name p +:+ " - Click to edit "),
           (PyStr.nl +:+ Render.indent +:+ "data-ph=" +:+ Render.dq +:+ ident p +:+
            Render.dq +:+ PyStr.nl +:+ Render.indent +:+ "data-key=" +:+ Render.dq +:+
            p_key p +:+ Render.dq +:+ PyStr.nl +:+ Render.indent +:+ "data-index=" +:+
            Render.dq +:+ Render.str_Z (Z.of_nat idx) +:+ Render.dq +:+ ">" +:+
            PyStr.nl +:+ Render.indent +:+ Render.lookup_value fv p +:+ "</span>").
    unfold Render.span_markup. norm_app. reflexivity.
  - rewrite E, R. apply contains_app_r, contains_app_l. apply contains_spec.
    exists ("<span class=" +:+ Render.dq +:+ "placeholder-filled" +:+ Render.dq +:+
            " " +:+ PyStr.nl +:+ Render.indent +:+ "title=" +:+ Render.dq +:+
            "Field: " +:+ p_name p +:+ " - Click to edit (Value: " +:+
            Render.lookup_value fv p +:+ ")" +:+ Render.dq +:+
            PyStr.nl +:+ Render.indent +:+ "data-ph=" +:+ Render.dq +:+ ident p +:+
            Render.dq +:+ PyStr.nl +:+ Render.indent +:+ "data-key=" +:+ Render.dq +:+
            p_key p +:+ Render.dq +:+ PyStr.nl +:+ Render.indent +:+ "data-index=" +:+
            Render.dq +:+ Render.str_Z (Z.of_nat idx) +:+ Render.dq +:+ ">" +:+
            PyStr.nl), "".
    unfold Render.span_markup. norm_app. reflexivity.
Qed.

Lemma preview_shows_the_value_unescaped_witness :
  let fv := filled_values Markup.signed in
  let p := Markup.signatory in
  let shown :=
    Render.preview_paragraph fv (Some 0%nat) 4 "By: [Signatory]" "Normal"
      Markup.contract in
  (nth_error Markup.contract 1 = Some p /\
   Render.in_paragraph 4 p = true /\
   PyStr.contains (p_original p) "By: [Signatory]" = true /\
   is_filled fv p = true) /\
  Render.lookup_value fv p = Markup.answer /\
  PyStr.contains (Render.indent +:+ Markup.answer +:+ "</span>") shown = true.
Proof.
  intros fv p shown.
  assert (H0 : nth_error Markup.contract 1 = Some p) by reflexivity.
  assert (H1 : Render.in_paragraph 4 p = true) by (vm_compute; reflexivity).
  assert (H2 : PyStr.contains (p_original p) "By: [Signatory]" = true)
    by (vm_compute; reflexivity).
  assert (H3 : is_filled fv p = true) by (vm_compute; reflexivity).
  assert (H4 : Render.lookup_value fv p = Markup.answer) by (vm_compute; reflexivity).
  assert (H5 : forall j q, nth_error Markup.contract j = Some q ->
                 Render.in_paragraph 4 q = true -> j = 1%nat).
  { intros [|[|j]] q Hj Hq; [|reflexivity|].
    - injection Hj as <-. vm_compute in Hq. discriminate Hq.
    - destruct j; discriminate Hj. }
  assert (H6 : Some 0%nat <> Some 1%nat) by discriminate.
  split; [auto|]. split; [exact H4|].
  rewrite <-H4.
  exact (proj1 (proj2 (preview_shows_the_value_unescaped fv Markup.contract 1 p
                         (Some 0%nat) 4 "By: [Signatory]" "Normal"
                         H0 H1 H5 H6 H2 H3))).
Defined.

(** ** The session manager *)

Section ManagerFacts.
Import SessionManager.

Lemma dict_get_set_eq {A : Type} (k : string) (v : A) (d : list (string * A)) :
  dict_get k (dict_set k v d) = Some v.
Proof.
  induction d as [|[k' v'] r IH]; simpl.
  - rewrite String.eqb_refl. reflexivity.
  - destruct (String.eqb k' k) eqn:E; simpl; rewrite E; [reflexivity | exact IH].
Qed.

Lemma dict_get_set_ne {A : Type} (k k2 : string) (v : A) (d : list (string * A)) :
  k2 <> k -> dict_get k2 (dict_set k v d) = dict_get k2 d.
Proof.
  intros N. induction d as [|[k' v'] r IH]; simpl.
  - destruct (String.eqb k k2) eqn:E; [|reflexivity].
    apply String.eqb_eq in E. congruence.
  - destruct (String.eqb k' k) eqn:E; simpl.
    + apply String.eqb_eq in E. subst k'.
      destruct (String.eqb k k2) eqn:E2; [|reflexivity].
      apply String.eqb_eq in E2. congruence.
    + rewrite IH. reflexivity.
Qed.

Lemma dict_get_none {A : Type} (k : string) (d : list (string * A)) :
  ~ In k (List.map fst d) -> dict_get k d = None.
Proof.
  induction d as [|[k' v'] r IH]; simpl; intros N; [reflexivity|].
  destruct (String.eqb k' k) eqn:E.
  - apply String.eqb_eq in E. tauto.
  - apply IH. tauto.
Qed.

Lemma dict_del_keys {A : Type} (k k2 : string) (d : list (string * A)) :
  In k2 (List.map fst (dict_del k d)) -> In k2 (List.map fst d).
Proof.
  induction d as [|[k' v'] r IH]; simpl; [tauto|].
  destruct (String.eqb k' k); simpl; tauto.
Qed.

Lemma dict_get_del_eq {A : Type} (k : string) (d : list (string * A)) :
  List.NoDup (List.map fst d) -> dict_get k (dict_del k d) = None.
Proof.
  induction d as [|[k' v'] r IH]; simpl; intros N; [reflexivity|].
  inversion N as [|? ? N1 N2]; subst.
  destruct (String.eqb k' k) eqn:E; simpl.
  - apply String.eqb_eq in E. subst. apply dict_get_none. exact N1.
  - rewrite E. apply IH. exact N2.
Qed.

Lemma dict_get_del_ne {A : Type} (k k2 : string) (d : list (string * A)) :
  k2 <> k -> dict_get k2 (dict_del k d) = dict_get k2 d.
Proof.
  intros N. induction d as [|[k' v'] r IH]; simpl; [reflexivity|].
  destruct (String.eqb k' k) eqn:E; simpl.
  - apply String.eqb_eq in E. subst.
    destruct (String.eqb k k2) eqn:E2; [|reflexivity].
    apply String.eqb_eq in E2. congruence.
  - rewrite IH. reflexivity.
Qed.

Lemma dict_del_nodup {A : Type} (k : string) (d : list (string * A)) :
  List.NoDup (List.map fst d) -> List.NoDup (List.map fst (dict_del k d)).
Proof.
  induction d as [|[k' v'] r IH]; simpl; intros N; [constructor|].
  inversion N as [|? ? N1 N2]; subst.
  destruct (String.eqb k' k); [exact N2|].
  simpl. constructor; [|apply IH; exact N2].
  intros I. apply N1. eapply dict_del_keys. exact I.
Qed.

Lemma dict_set_keys {A : Type} (k k2 : string) (v : A) (d : list (string * A)) :
  In k2 (List.map fst (dict_set k v d)) -> k2 = k \/ In k2 (List.map fst d).
Proof.
  induction d as [|[k' v'] r IH]; simpl.
  - intros [E|[]]. left. congruence.
  - destruct (String.eqb k' k); simpl; tauto.
Qed.

Lemma dict_set_nodup {A : Type} (k : string) (v : A) (d : list (string * A)) :
  List.NoDup (List.map fst d) -> List.NoDup (List.map fst (dict_set k v d)).
Proof.
  induction d as [|[k' v'] r IH]; simpl; intros N.
  - constructor; [simpl; tauto | constructor].
  - inversion N as [|? ? N1 N2]; subst.
    destruct (String.eqb k' k) eqn:E; simpl.
    + constructor; assumption.
    + constructor; [|apply IH; exact N2].
      intros I. apply dict_set_keys in I. destruct I as [I|I]; [|tauto].
      subst. rewrite String.eqb_refl in E. discriminate.
Qed.

Lemma dict_set_forall {A : Type} (P : string * A -> Prop) (k : string) (v : A)
  (d : list (string * A)) :
  P (k, v) -> Forall P d -> Forall P (dict_set k v d).
Proof.
  intros Pv. induction d as [|[k' v'] r IH]; simpl; intros F.
  - constructor; [apply Pv | constructor].
  - inversion F; subst.
    destruct (String.eqb_spec k' k) as [->|N]; constructor; auto.
Qed.

Lemma dict_del_forall {A : Type} (P : string * A -> Prop) (k : string)
  (d : list (string * A)) :
  Forall P d -> Forall P (dict_del k d).
Proof.
  induction d as [|[k' v'] r IH]; simpl; intros F; [constructor|].
  inversion F; subst.
  destruct (String.eqb k' k); [assumption | constructor; auto].
Qed.

Lemma stamped_heap (m m' : manager) (it : string * slot) :
  (forall r d, heap m !! r = Some d -> sd_last_accessed_at d <> None ->
     exists d', heap m' !! r = Some d' /\ sd_last_accessed_at d' <> None) ->
  stamped m it -> stamped m' it.
Proof.
  intros H [N (r & d & E & L & S)]. split; [exact N|].
  destruct (H r d L S) as (d' & L' & S'). exists r, d'. auto.
Qed.

Lemma heap_insert_keeps (hp : gmap ref sdata) (r0 : ref) (d0 : sdata) :
  (hp !! r0 = None \/ sd_last_accessed_at d0 <> None) ->
  forall r d, hp !! r = Some d -> sd_last_accessed_at d <> None ->
    exists d', <[ r0 := d0 ]> hp !! r = Some d' /\ sd_last_accessed_at d' <> None.
Proof.
  intros H r d L S. destruct (decide (r0 = r)) as [->|N].
  - rewrite lookup_insert_eq. exists d0. split; [reflexivity|].
    destruct H as [H|H]; [congruence | exact H].
  - rewrite lookup_insert_ne by exact N. exists d. auto.
Qed.

Lemma store_ok_heap (m : manager) (r0 : ref) (d0 : sdata) :
  (heap m !! r0 = None \/ sd_last_accessed_at d0 <> None) ->
  store_ok m ->
  store_ok {| heap := <[ r0 := d0 ]> (heap m); fallback_store := fallback_store m |}.
Proof.
  intros H [E|(h & rest & E & L & N & F)]; [left; exact E|].
  right. exists h, rest. split; [exact E|]. split; [exact L|]. split; [exact N|].
  eapply List.Forall_impl; [|exact F].
  intros it. apply stamped_heap. simpl. apply heap_insert_keeps. exact H.
Qed.

Lemma capped_length (l : list hentry) :
  (if (100 <? length l)%nat then firstn 100 l else l) = firstn 100 l.
Proof.
  destruct (100 <? length l)%nat eqn:E; [reflexivity|].
  apply Nat.ltb_ge in E. symmetry. apply firstn_all2. exact E.
Qed.

(** [add_history] on a store of a run. *)
Lemma add_history_ok (session_id event_type : string) (data : hdata)
  (now : string) (m : manager) :
  store_ok m -> session_id <> "history" ->
  exists h rest,
    history_of m = Some h /\
    (forall sid l, h !! sid = Some l -> (length l <= 100)%nat) /\
    List.NoDup (List.map fst rest) /\
    Forall (stamped m) rest /\
    (forall k, k <> "history" -> dict_get k (fallback_store m) = dict_get k rest) /\
    add_history session_id event_type data now m =
      Some {| heap := heap m;
              fallback_store :=
                ("history",
                 SHistory (<[ session_id :=
                              firstn 100 (entry now event_type data
                                          :: default [] (h !! session_id)) ]> h))
                :: rest |}.
Proof.
  intros Ok N.
  assert (Es : String.eqb session_id "history" = false)
    by (apply String.eqb_neq; exact N).
  destruct Ok as [E|(h & rest & E & L & Nd & F)].
  - exists ∅, []. unfold add_history, history_of. rewrite Es, E.
    cbv zeta. unfold entry. simpl dict_get. cbv iota beta.
    try rewrite capped_length. simpl.
    split; [reflexivity|].
    split; [intros sid l; rewrite lookup_empty; discriminate|].
    split; [constructor|]. split; [constructor|]. split; reflexivity.
  - assert (G : forall k, k <> "history" ->
                dict_get k (fallback_store m) = dict_get k rest).
    { intros k Nk. rewrite E. cbn [dict_get].
      assert (Ek : String.eqb "history" k = false)
        by (apply String.eqb_neq; congruence).
      rewrite Ek. reflexivity. }
    assert (Hh : history_of m = Some h).
    { unfold history_of. rewrite E. reflexivity. }
    exists h, rest.
    split; [exact Hh|]. split; [exact L|]. split; [exact Nd|].
    split; [exact F|]. split; [exact G|].
    unfold add_history. rewrite Es, Hh, E. cbv zeta.
    rewrite capped_length. reflexivity.
Qed.

Lemma add_history_store_ok (session_id event_type : string) (data : hdata)
  (now : string) (m m' : manager) :
  store_ok m -> add_history session_id event_type data now m = Some m' ->
  store_ok m' /\ heap m' = heap m.
Proof.
  intros Ok H.
  destruct (String.eqb_spec session_id "history") as [->|N].
  { unfold add_history in H. simpl in H. discriminate. }
  destruct (add_history_ok session_id event_type data now m Ok N)
    as (h & rest & _ & L & Nd & F & _ & E).
  rewrite E in H. injection H as <-. split; [|reflexivity].
  right. eexists _, rest. split; [reflexivity|].
  split; [|split; [exact Nd|]].
  - intros sid l. destruct (decide (session_id = sid)) as [->|Ns].
    + rewrite lookup_insert_eq. intros [= <-]. cbn [length]. rewrite length_firstn. lia.
    + rewrite lookup_insert_ne by exact Ns. apply L.
  - eapply List.Forall_impl; [|exact F]. intros it. apply stamped_heap.
    intros r d Lr S. exists d. auto.
Qed.

(** [save_session] on a store of a run. *)
Lemma save_session_spec (session_id : string) (r : ref) (user_id : option string)
  (now now_h : string) (m : manager) (d : sdata) :
  store_ok m -> session_id <> "history" -> heap m !! r = Some d ->
  exists d1 h rest,
    sd_session d1 = sd_session d /\
    sd_filename d1 = sd_filename d /\
    sd_last_accessed_at d1 = Some now /\
    sd_created_at d1 = Some (default now (sd_created_at d)) /\
    history_of m = Some h /\
    (forall k, k <> "history" -> dict_get k (fallback_store m) = dict_get k rest) /\
    store_ok
      {| heap := <[ r := d1 ]> (heap m);
         fallback_store :=
           ("history",
            SHistory (<[ session_id :=
                         firstn 100 (entry now_h "session_updated" (HSession r)
                                     :: default [] (h !! session_id)) ]> h))
           :: dict_set session_id (SSession r) rest |} /\
    save_session session_id r user_id now now_h m =
      Some ({| heap := <[ r := d1 ]> (heap m);
               fallback_store :=
                 ("history",
                  SHistory (<[ session_id :=
                               firstn 100 (entry now_h "session_updated" (HSession r)
                                           :: default [] (h !! session_id)) ]> h))
                 :: dict_set session_id (SSession r) rest |}, true).
Proof.
  intros Ok N Lr.
  assert (En : String.eqb "history" session_id = false)
    by (apply String.eqb_neq; congruence).
  unfold save_session. rewrite Lr.
  match goal with
  | |- context [add_history _ _ _ _ {| heap := <[ r := ?d1 ]> _; fallback_store := _ |}] =>
      set (x := d1)
  end.
  set (m1 := {| heap := <[ r := x ]> (heap m); fallback_store := fallback_store m |}).
  assert (Ok1 : store_ok m1).
  { apply (store_ok_heap m); [right; simpl; discriminate | exact Ok]. }
  destruct (add_history_ok session_id "session_updated" (HSession r) now_h m1 Ok1 N)
    as (h & rest & Hh & L & Nd & F & G & E).
  assert (Ok2 := proj1 (add_history_store_ok _ _ _ _ _ _ Ok1 E)).
  exists x, h, rest.
  split; [reflexivity|]. split; [reflexivity|]. split; [reflexivity|].
  split; [subst x; simpl; destruct (sd_created_at d); reflexivity|].
  split; [exact Hh|]. split; [exact G|].
  rewrite E. cbn [heap fallback_store dict_set]. rewrite En.
  split; [|reflexivity].
  destruct Ok2 as [E2|(h2 & rest2 & E2 & L2 & Nd2 & F2)]; [discriminate|].
  cbn [heap fallback_store] in E2. injection E2 as <- <-.
  right. eexists _, _. split; [reflexivity|]. split; [exact L2|]. split.
  - apply dict_set_nodup. exact Nd2.
  - apply dict_set_forall.
    + split; [exact N|]. exists r, x. split; [reflexivity|].
      split; [apply lookup_insert_eq | discriminate].
    + exact F2.
Qed.

Lemma get_session_spec (session_id now : string) (m : manager) :
  store_ok m -> session_id <> "history" ->
  match dict_get session_id (fallback_store m) with
  | None => get_session session_id now m = Some (m, None)
  | Some sl =>
      exists r d, sl = SSession r /\ heap m !! r = Some d /\
        get_session session_id now m =
          Some ({| heap :=
                     <[ r := {| sd_session := sd_session d;
                                sd_filename := sd_filename d;
                                sd_status := sd_status d;
                                sd_created_at := sd_created_at d;
                                sd_last_accessed_at := Some now;
                                sd_user_id := sd_user_id d |} ]> (heap m);
                   fallback_store := fallback_store m |}, Some r)
  end.
Proof.
  intros Ok N.
  assert (Es : String.eqb session_id "history" = false)
    by (apply String.eqb_neq; exact N).
  unfold get_session. rewrite Es.
  destruct (dict_get session_id (fallback_store m)) as [sl|] eqn:Eg; [|reflexivity].
  destruct Ok as [E|(h & rest & E & L & Nd & F)].
  { rewrite E in Eg. discriminate. }
  rewrite E in Eg. cbn [dict_get] in Eg.
  assert (En : String.eqb "history" session_id = false)
    by (apply String.eqb_neq; congruence).
  rewrite En in Eg.
  assert (S : stamped m (session_id, sl)).
  { clear - Eg F. induction F as [|[k v] l Hx F IH]; [discriminate|].
    cbn [dict_get] in Eg. destruct (String.eqb_spec k session_id) as [->|Nk].
    - injection Eg as <-. exact Hx.
    - apply IH. exact Eg. }
  destruct S as [_ (r & d & Er & Lr & _)]. simpl in Er. subst sl.
  exists r, d. rewrite Lr. auto.
Qed.

Lemma step_store_ok (m m' : manager) : store_ok m -> step m m' -> store_ok m'.
Proof.
  intros Ok St. destruct St as
    [r now filename ps m Hf | r d body status m Hr
    | session_id r user_id now now_h m m' b H
    | session_id now m m' o H
    | session_id now m m' b H
    | session_id event_type data now m m' H].
  - apply (store_ok_heap m); [left; exact Hf | exact Ok].
  - destruct Ok as [E|(h & rest & E & L & N & F)]; [left; exact E|].
    right. exists h, rest. split; [exact E|]. split; [exact L|]. split; [exact N|].
    eapply List.Forall_impl; [|exact F]. intros it. apply stamped_heap.
    cbn [heap]. intros r0 d0 L0 S0. destruct (decide (r = r0)) as [->|Nr].
    + rewrite lookup_insert_eq. exists (assign body status d). split; [reflexivity|].
      simpl. congruence.
    + rewrite lookup_insert_ne by exact Nr. exists d0. auto.
  - destruct (String.eqb_spec session_id "history") as [->|N].
    { unfold save_session, add_history in H.
      destruct (heap m !! r); simpl in H; discriminate. }
    destruct (heap m !! r) as [d|] eqn:Lr.
    + destruct (save_session_spec session_id r user_id now now_h m d Ok N Lr)
        as (d1 & h & rest & _ & _ & _ & _ & _ & _ & Ok' & E).
      rewrite E in H. injection H as <- _. exact Ok'.
    + unfold save_session in H. rewrite Lr in H. discriminate.
  - destruct (String.eqb_spec session_id "history") as [->|N].
    { unfold get_session in H. simpl in H. discriminate. }
    pose proof (get_session_spec session_id now m Ok N) as G.
    destruct (dict_get session_id (fallback_store m)) as [sl|].
    + destruct G as (r & d & _ & Lr & E). rewrite E in H. injection H as <- _.
      apply (store_ok_heap m); [right; simpl; discriminate | exact Ok].
    + rewrite G in H. injection H as <- _. exact Ok.
  - unfold delete_session in H.
    destruct (add_history session_id "session_deleted" HEmpty now m) as [m1|] eqn:Ea;
      [|discriminate].
    injection H as <- _.
    destruct (add_history_store_ok _ _ _ _ _ _ Ok Ea) as [Ok1 Eh].
    destruct (String.eqb_spec session_id "history") as [->|N].
    { unfold add_history in Ea. simpl in Ea. discriminate. }
    assert (En : String.eqb "history" session_id = false)
      by (apply String.eqb_neq; congruence).
    destruct Ok1 as [E|(h & rest & E & L & Nd & F)].
    + left. simpl. rewrite E. reflexivity.
    + right. exists h, (dict_del session_id rest). cbn [heap fallback_store].
      rewrite E. cbn [dict_del]. rewrite En.
      split; [reflexivity|]. split; [exact L|]. split.
      * apply dict_del_nodup. exact Nd.
      * apply dict_del_forall. eapply List.Forall_impl; [|exact F].
        intros it. apply stamped_heap. intros r d Lr S. exists d. auto.
  - exact (proj1 (add_history_store_ok _ _ _ _ _ _ Ok H)).
Qed.

Lemma runs_store_ok (m : manager) : runs m -> store_ok m.
Proof.
  induction 1 as [|m m' _ IH St]; [left; reflexivity|].
  exact (step_store_ok m m' IH St).
Qed.

Lemma py_take_all {A : Type} (l : list A) :
  (length l <= 100)%nat -> py_take 100 l = l.
Proof.
  intros H. unfold py_take. change (100 <? 0)%Z with false. cbv iota.
  change (Z.to_nat 100) with 100%nat. apply firstn_all2. exact H.
Qed.

Lemma history_read (session_id : string) (limit : Z) (m : manager)
  (h : gmap string (list hentry)) :
  history_of m = Some h -> session_id <> "history" ->
  get_session_history session_id limit m =
    Some (py_take limit (default [] (h !! session_id))).
Proof.
  intros Hh N. unfold get_session_history. rewrite Hh.
  destruct (String.eqb_spec session_id "history"); [contradiction | reflexivity].
Qed.

Lemma default_capped (h : gmap string (list hentry)) (session_id : string) :
  (forall sid l, h !! sid = Some l -> (length l <= 100)%nat) ->
  (length (default [] (h !! session_id)) <= 100)%nat.
Proof.
  intros L. destruct (h !! session_id) as [l|] eqn:E; simpl; [|lia].
  exact (L _ _ E).
Qed.

Lemma runs_saved : runs Served.saved.
Proof.
  eapply runs_step.
  - eapply runs_step; [apply runs_empty|].
    apply (step_new 0%nat "2025-11-01T11:44:52" "nda.docx" Sample.two_fields empty).
    reflexivity.
  - apply (step_save "0b9e6a52" 0%nat None "2025-11-01T11:44:53"
             "2025-11-01T11:44:54" Served.built Served.saved true).
    vm_compute. reflexivity.
Defined.









End ManagerFacts.

(** X18.  In a run of the server with the in-memory store, the history
    of a session never holds more than 100 entries, and [add_history]
    puts the new entry first: the history afterwards is the new entry
    followed by the earlier ones, cut to 100, so that the oldest entry
    is the one that is dropped.  The histories of other sessions are
    not touched, and [get_session_history] returns the first [limit]
    entries of the list. *)
Theorem history_keeps_the_latest_hundred :
  forall (m : SessionManager.manager) (session_id event_type now : string)
         (data : SessionManager.hdata),
    SessionManager.runs m -> session_id <> "history" ->
    exists old m',
      SessionManager.get_session_history session_id 100 m = Some old /\
      (length old <= 100)%nat /\
      SessionManager.add_history session_id event_type data now m = Some m' /\
      (forall limit,
         SessionManager.get_session_history session_id limit m' =
           Some (SessionManager.py_take limit
                   (firstn 100 (SessionManager.entry now event_type data :: old)))) /\
      (forall other limit, other <> session_id ->
         SessionManager.get_session_history other limit m' =
           SessionManager.get_session_history other limit m).
Proof.
  intros m session_id event_type now data R N.
  pose proof (runs_store_ok m R) as Ok.
  destruct (add_history_ok session_id event_type data now m Ok N)
    as (h & rest & Hh & L & Nd & F & G & E).
  pose proof (default_capped h session_id L) as Ld.
  exists (default [] (h !! session_id)). eexists.
  split. { rewrite (history_read _ _ _ _ Hh N), (py_take_all _ Ld). reflexivity. }
  split; [exact Ld|]. split; [exact E|].
  match goal with
  | |- context [SessionManager.get_session_history _ _ ?m1] =>
      assert (Hh' : SessionManager.history_of m1 =
                Some (<[ session_id :=
                         firstn 100 (SessionManager.entry now event_type data
                                     :: default [] (h !! session_id)) ]> h))
        by reflexivity
  end.
  split.
  - intros limit. rewrite (history_read _ _ _ _ Hh' N), lookup_insert_eq.
    reflexivity.
  - intros other limit No.
    destruct (String.eqb_spec other "history") as [->|Nh].
    { reflexivity. }
    rewrite (history_read _ _ _ _ Hh' Nh), (history_read _ _ _ _ Hh Nh).
    rewrite lookup_insert_ne by congruence. reflexivity.
Qed.


Lemma history_keeps_the_latest_hundred_witness :
  SessionManager.runs Served.saved /\
  exists old m',
    SessionManager.get_session_history "0b9e6a52" 100 Served.saved = Some old /\
    (length old <= 100)%nat /\
    SessionManager.add_history "0b9e6a52" "session_created"
      (SessionManager.HCreated "nda.docx" 2 "0b9e6a52" None)
      "2025-11-01T11:44:55" Served.saved = Some m' /\
    (forall limit,
       SessionManager.get_session_history "0b9e6a52" limit m' =
         Some (SessionManager.py_take limit
                 (firstn 100
                    (SessionManager.entry "2025-11-01T11:44:55" "session_created"
                       (SessionManager.HCreated "nda.docx" 2 "0b9e6a52" None)
                     :: old)))) /\
    (forall other limit, other <> "0b9e6a52" ->
       SessionManager.get_session_history other limit m' =
         SessionManager.get_session_history other limit Served.saved).
Proof.
  split; [exact runs_saved|].
  apply (history_keeps_the_latest_hundred Served.saved "0b9e6a52" "session_created"
           "2025-11-01T11:44:55"
           (SessionManager.HCreated "nda.docx" 2 "0b9e6a52" None) runs_saved).
  discriminate.
Defined.

(** X19.  With the in-memory store, [delete_session] removes the session
    dictionary but not its history: afterwards [get_session] finds
    nothing under the id, while [get_session_history] still returns the
    earlier entries, with a ['session_deleted'] entry before them.  The
    other sessions stay as they were. *)
Theorem delete_keeps_the_history :
  forall (m : SessionManager.manager) (session_id now later : string),
    SessionManager.runs m -> session_id <> "history" ->
    exists old m',
      SessionManager.get_session_history session_id 100 m = Some old /\
      SessionManager.delete_session session_id now m = Some (m', true) /\
      SessionManager.get_session session_id later m' = Some (m', None) /\
      SessionManager.get_session_history session_id 100 m' =
        Some (firstn 100
                (SessionManager.entry now "session_deleted" SessionManager.HEmpty
                 :: old)) /\
      (forall other, other <> session_id -> other <> "history" ->
         SessionManager.dict_get other (SessionManager.fallback_store m') =
           SessionManager.dict_get other (SessionManager.fallback_store m)).
Proof.
  intros m session_id now later R N.
  pose proof (runs_store_ok m R) as Ok.
  assert (En : String.eqb "history" session_id = false)
    by (apply String.eqb_neq; congruence).
  destruct (add_history_ok session_id "session_deleted"
              SessionManager.HEmpty now m Ok N)
    as (h & rest & Hh & L & Nd & F & G & E).
  pose proof (default_capped h session_id L) as Ld.
  exists (default [] (h !! session_id)). eexists.
  split. { rewrite (history_read _ _ _ _ Hh N), (py_take_all _ Ld). reflexivity. }
  split. { unfold SessionManager.delete_session. rewrite E.
           cbn [SessionManager.heap SessionManager.fallback_store
                SessionManager.dict_del].
           rewrite En. reflexivity. }
  match goal with
  | |- context [SessionManager.get_session _ _ ?m1] => set (m1' := m1)
  end.
  assert (Hh' : SessionManager.history_of m1' =
            Some (<[ session_id :=
                     firstn 100 (SessionManager.entry now "session_deleted"
                                   SessionManager.HEmpty
                                 :: default [] (h !! session_id)) ]> h))
    by reflexivity.
  assert (Gd : forall k, k <> "history" ->
             SessionManager.dict_get k (SessionManager.fallback_store m1') =
               SessionManager.dict_get k (SessionManager.dict_del session_id rest)).
  { intros k Nk. subst m1'.
    cbn [SessionManager.fallback_store SessionManager.dict_get].
    assert (Ek : String.eqb "history" k = false)
      by (apply String.eqb_neq; congruence).
    rewrite Ek. reflexivity. }
  split.
  - unfold SessionManager.get_session.
    destruct (String.eqb_spec session_id "history"); [contradiction|].
    rewrite (Gd _ N), (dict_get_del_eq _ _ Nd). reflexivity.
  - split.
    + rewrite (history_read _ _ _ _ Hh' N), lookup_insert_eq.
      apply f_equal. apply py_take_all. rewrite length_firstn. lia.
    + intros other No Nh. rewrite (Gd _ Nh), (G _ Nh).
      apply dict_get_del_ne. exact No.
Qed.

Lemma delete_keeps_the_history_witness :
  SessionManager.runs Served.saved /\
  exists old m',
    SessionManager.get_session_history "0b9e6a52" 100 Served.saved = Some old /\
    SessionManager.delete_session "0b9e6a52" "2025-11-01T12:00:00" Served.saved
      = Some (m', true) /\
    SessionManager.get_session "0b9e6a52" "2025-11-01T12:00:01" m' = Some (m', None) /\
    SessionManager.get_session_history "0b9e6a52" 100 m' =
      Some (firstn 100
              (SessionManager.entry "2025-11-01T12:00:00" "session_deleted"
                 SessionManager.HEmpty :: old)) /\
    (forall other, other <> "0b9e6a52" -> other <> "history" ->
       SessionManager.dict_get other (SessionManager.fallback_store m') =
         SessionManager.dict_get other (SessionManager.fallback_store Served.saved)).
Proof.
  split; [exact runs_saved|].
  apply (delete_keeps_the_history Served.saved "0b9e6a52" "2025-11-01T12:00:00"
           "2025-11-01T12:00:01" runs_saved).
  discriminate.
Defined.




(** X21.  In a run of the server, [save_session] followed by
    [get_session] under the same id gives back the very dictionary that
    was saved: its session content is unchanged, ['created_at'] is kept
    (or set to the time of the save when it was missing) and
    ['last_accessed_at'] is the time of the read.  The save adds one
    ['session_updated'] entry, which holds that dictionary, in front of
    the history of the id, and the sessions stored under other ids stay
    as they were. *)
Theorem saved_session_reads_back :
  forall (m : SessionManager.manager) (session_id : string) (r : SessionManager.ref)
         (user_id : option string) (now now_h later : string)
         (d : SessionManager.sdata),
    SessionManager.runs m -> session_id <> "history" ->
    SessionManager.heap m !! r = Some d ->
    exists m1 m2 d2 old,
      SessionManager.save_session session_id r user_id now now_h m = Some (m1, true) /\
      SessionManager.get_session session_id later m1 = Some (m2, Some r) /\
      SessionManager.heap m2 !! r = Some d2 /\
      SessionManager.sd_session d2 = SessionManager.sd_session d /\
      SessionManager.sd_created_at d2 =
        Some (default now (SessionManager.sd_created_at d)) /\
      SessionManager.sd_last_accessed_at d2 = Some later /\
      SessionManager.get_session_history session_id 100 m = Some old /\
      SessionManager.get_session_history session_id 100 m2 =
        Some (firstn 100
                (SessionManager.entry now_h "session_updated"
                   (SessionManager.HSession r) :: old)) /\
      (forall other, other <> session_id -> other <> "history" ->
         SessionManager.dict_get other (SessionManager.fallback_store m2) =
           SessionManager.dict_get other (SessionManager.fallback_store m)).
Proof.
  intros m session_id r user_id now now_h later d R N Lr.
  pose proof (runs_store_ok m R) as Ok.
  assert (En : String.eqb "history" session_id = false)
    by (apply String.eqb_neq; congruence).
  destruct (save_session_spec session_id r user_id now now_h m d Ok N Lr)
    as (d1 & h & rest & Es & _ & Ea & Ec & Hh & G & Ok1 & E).
  assert (L : forall sid l, h !! sid = Some l -> (length l <= 100)%nat).
  { destruct Ok as [E0|(h0 & rest0 & E0 & L0 & _)].
    - unfold SessionManager.history_of in Hh. rewrite E0 in Hh.
      injection Hh as <-. intros sid l. rewrite lookup_empty. discriminate.
    - unfold SessionManager.history_of in Hh. rewrite E0 in Hh.
      injection Hh as <-. exact L0. }
  pose proof (default_capped h session_id L) as Ld.
  match type of E with
  | _ = Some (?x, _) => set (m1 := x) in *
  end.
  pose proof (get_session_spec session_id later m1 Ok1 N) as Gs.
  assert (Eg : SessionManager.dict_get session_id (SessionManager.fallback_store m1)
               = Some (SessionManager.SSession r)).
  { subst m1. cbn [SessionManager.fallback_store SessionManager.dict_get].
    rewrite En. apply dict_get_set_eq. }
  rewrite Eg in Gs. destruct Gs as (r' & d' & Er & Lr' & E2).
  injection Er as <-.
  assert (Ed : d' = d1).
  { subst m1. cbn [SessionManager.heap] in Lr'. rewrite lookup_insert_eq in Lr'.
    congruence. }
  subst d'.
  exists m1. eexists. eexists. exists (default [] (h !! session_id)).
  split; [exact E|]. split; [exact E2|].
  split. { cbn [SessionManager.heap]. apply lookup_insert_eq. }
  split; [exact Es|]. split; [exact Ec|]. split; [reflexivity|].
  split. { rewrite (history_read _ _ _ _ Hh N), (py_take_all _ Ld). reflexivity. }
  split.
  - match goal with
    | |- SessionManager.get_session_history _ _ ?m2 = _ =>
        assert (Hh2 : SessionManager.history_of m2 =
                  Some (<[ session_id :=
                           firstn 100 (SessionManager.entry now_h "session_updated"
                                         (SessionManager.HSession r)
                                       :: default [] (h !! session_id)) ]> h))
          by reflexivity
    end.
    rewrite (history_read _ _ _ _ Hh2 N), lookup_insert_eq.
    apply f_equal. apply py_take_all. rewrite length_firstn. lia.
  - intros other No Nh. subst m1.
    cbn [SessionManager.fallback_store SessionManager.dict_get].
    assert (Ek : String.eqb "history" other = false)
      by (apply String.eqb_neq; congruence).
    rewrite Ek, (G _ Nh). apply dict_get_set_ne. exact No.
Qed.

Lemma saved_session_reads_back_witness :
  SessionManager.runs Served.saved /\
  exists m1 m2 d2 old,
    SessionManager.save_session "0b9e6a52" 0%nat None "2025-11-01T11:50:00"
      "2025-11-01T11:50:01" Served.saved = Some (m1, true) /\
    SessionManager.get_session "0b9e6a52" "2025-11-01T11:50:02" m1
      = Some (m2, Some 0%nat) /\
    SessionManager.heap m2 !! 0%nat = Some d2 /\
    SessionManager.sd_session d2 = initial_session Sample.two_fields /\
    SessionManager.sd_created_at d2 = Some "2025-11-01T11:44:52" /\
    SessionManager.sd_last_accessed_at d2 = Some "2025-11-01T11:50:02" /\
    SessionManager.get_session_history "0b9e6a52" 100 Served.saved = Some old /\
    SessionManager.get_session_history "0b9e6a52" 100 m2 =
      Some (firstn 100
              (SessionManager.entry "2025-11-01T11:50:01" "session_updated"
                 (SessionManager.HSession 0%nat) :: old)) /\
    (forall other, other <> "0b9e6a52" -> other <> "history" ->
       SessionManager.dict_get other (SessionManager.fallback_store m2) =
         SessionManager.dict_get other (SessionManager.fallback_store Served.saved)).
Proof.
  split; [exact runs_saved|].
  apply (saved_session_reads_back Served.saved "0b9e6a52" 0%nat None
           "2025-11-01T11:50:00" "2025-11-01T11:50:01" "2025-11-01T11:50:02"
           {| SessionManager.sd_session := initial_session Sample.two_fields;
              SessionManager.sd_filename := "nda.docx";
              SessionManager.sd_status := "active";
              SessionManager.sd_created_at := Some "2025-11-01T11:44:52";
              SessionManager.sd_last_accessed_at := Some "2025-11-01T11:44:53";
              SessionManager.sd_user_id := None |}
           runs_saved).
  - discriminate.
  - vm_compute. reflexivity.
Defined.

(** ** The bearer token *)

Lemma startswith_app_long (s x p : string) :
  String.length p <= String.length s ->
  PyStr.startswith (s +:+ x) p = PyStr.startswith s p.
Proof.
  revert s. induction p as [|a p IH]; intros s H; [reflexivity|].
  destruct s as [|b s]; [simpl in H; lia|].
  simpl. rewrite IH by (simpl in H; lia). reflexivity.
Qed.

Lemma split_sep_go_plain (sep cur s : string) :
  PyStr.contains sep s = false ->
  Web.split_sep_go sep cur s 0 = [String.rev cur +:+ s].
Proof.
  revert cur. induction s as [|c s IH]; intros cur H.
  - simpl. rewrite app_empty_r. reflexivity.
  - cbn [PyStr.contains] in H. apply orb_false_iff in H as [H1 H2].
    cbn [Web.split_sep_go]. rewrite H1, (IH _ H2), rev_cons_s, app_assoc_s.
    reflexivity.
Qed.

Lemma split_sep_go_cut (cur a b : string) :
  PyStr.contains "Bearer " (a +:+ "Bearer") = false ->
  Web.split_sep_go "Bearer " cur (a +:+ "Bearer " +:+ b) 0 =
    (String.rev cur +:+ a) :: Web.split_sep_go "Bearer " "" b 0.
Proof.
  revert cur. induction a as [|c a IH]; intros cur H.
  - rewrite app_empty_r. reflexivity.
  - change (String c a +:+ "Bearer") with (String c (a +:+ "Bearer")) in H.
    cbn [PyStr.contains] in H. apply orb_false_iff in H as [H1 H2].
    change (String c a +:+ "Bearer " +:+ b)
      with (String c (a +:+ "Bearer " +:+ b)).
    cbn [Web.split_sep_go].
    assert (E : PyStr.startswith (String c (a +:+ "Bearer " +:+ b)) "Bearer " = false).
    { assert (Es : String c (a +:+ "Bearer " +:+ b) =
                   (String c a +:+ "Bearer") +:+ (" " +:+ b)).
      { rewrite app_assoc_s. reflexivity. }
      rewrite Es, startswith_app_long; [exact H1|].
      rewrite app_length_s. simpl. lia. }
    rewrite E, (IH _ H2), rev_cons_s, app_assoc_s. reflexivity.
Qed.

(** X22.  [get_token_from_request] gives no token when the request has
    no [Authorization] header, an empty one, or one that does not start
    with ['Bearer ']; otherwise it gives the text between that prefix
    and the next ['Bearer '] in the header.  So a header ['Bearer ' + t]
    gives [t] when [t] does not hold ['Bearer '] (the empty text for
    the bare prefix), and what follows a second ['Bearer '] is cut
    off. *)
Theorem bearer_token_is_the_second_piece :
  Web.get_token_from_request None = None /\
  Web.get_token_from_request (Some "") = None /\
  (forall h, PyStr.startswith h "Bearer " = false ->
     Web.get_token_from_request (Some h) = None) /\
  (forall t, PyStr.contains "Bearer " t = false ->
     Web.get_token_from_request (Some ("Bearer " +:+ t)) = Some t) /\
  (forall a b, PyStr.contains "Bearer " (a +:+ "Bearer") = false ->
     Web.get_token_from_request (Some ("Bearer " +:+ a +:+ "Bearer " +:+ b)) = Some a).
Proof.
  split; [reflexivity|]. split; [reflexivity|]. split; [|split].
  - intros h H. unfold Web.get_token_from_request. rewrite H.
    destruct (String.eqb h ""); reflexivity.
  - intros t H. unfold Web.get_token_from_request, Web.split_sep.
    change (Web.split_sep_go "Bearer " "" ("Bearer " +:+ t) 0)
      with ("" :: Web.split_sep_go "Bearer " "" t 0).
    rewrite (split_sep_go_plain _ _ _ H). reflexivity.
  - intros a b H. unfold Web.get_token_from_request, Web.split_sep.
    change (Web.split_sep_go "Bearer " "" ("Bearer " +:+ a +:+ "Bearer " +:+ b) 0)
      with ("" :: Web.split_sep_go "Bearer " "" (a +:+ "Bearer " +:+ b) 0).
    rewrite (split_sep_go_cut _ _ _ H). reflexivity.
Qed.

(** ** What a chat message may write *)

Lemma not_filled_no_id (fv : gmap string string) (p : placeholder) :
  is_filled fv p = false -> fv !! ident p = None.
Proof.
  unfold is_filled, in_dict. intros H. apply orb_false_iff in H as [H _].
  destruct (fv !! ident p); [discriminate | reflexivity].
Qed.

Lemma chat_fills_unfilled message s r s' :
  App.chat message s = Some (r, s') ->
  s' = s \/
  exists p v,
    In p (placeholders s) /\ is_filled (filled_values s) p = false /\
    filled_values s' =
      App.apply_auto_fills
        (AIService.collect_auto_fills (filled_values s) (ident p) (p_name p) v
           (placeholders s))
        (<[ ident p := v ]> (filled_values s)).
Proof.
  unfold App.chat, AIService.process_message.
  destruct (nth_error _ _) as [p|] eqn:En.
  - destruct (Validator._validate_placeholder_value _ p) as [v|m|e] eqn:Ev.
    + intros [= <- <-]. right. exists p, v.
      split; [by eapply nth_error_In|]. split; [|reflexivity].
      exact (proj2 (proj2 (actual_index_spec _ _ _)) p En).
    + intros [= <- <-]. by left.
    + discriminate.
  - intros [= <- <-]. by left.
Qed.

(** X23.  A chat message never changes or removes an entry of
    [filled_values]: every entry of the session is still there, with
    its value, after the message.  What the message adds is stored under
    the id of a placeholder of the document that had no value before
    (the field that was asked for, or a field that is filled along with
    it). *)
Theorem chat_only_adds_entries :
  forall (message : string) (s s' : session) (r : App.chat_response),
    App.chat message s = Some (r, s') ->
    (forall k v, filled_values s !! k = Some v -> filled_values s' !! k = Some v) /\
    (forall k v, filled_values s !! k = None -> filled_values s' !! k = Some v ->
       exists q, In q (placeholders s) /\ ident q = k /\
                 is_filled (filled_values s) q = false).
Proof.
  intros message s s' r H.
  destruct (chat_fills_unfilled _ _ _ _ H) as [->|(p & v & Hp & Hf & E)].
  { split; [auto|]. intros k v H1 H2. congruence. }
  rewrite E. split.
  - intros k x Hk. rewrite apply_auto_fills_other.
    + rewrite lookup_insert_ne; [exact Hk|].
      intros <-. rewrite (not_filled_no_id _ _ Hf) in Hk. discriminate.
    + intros af Ha <-.
      destruct (collect_auto_fills_spec _ _ _ _ _ _ Ha) as (_ & _ & q & _ & Eq & Fq).
      rewrite <- Eq, (not_filled_no_id _ _ Fq) in Hk. discriminate.
  - intros k x Hk Hx.
    destruct (apply_auto_fills_lookup _ _ _ _ Hx) as [H1|(af & Ha & Ek & _)].
    + destruct (String.eqb_spec (ident p) k) as [<-|N].
      * exists p. auto.
      * rewrite lookup_insert_ne in H1 by exact N. congruence.
    + destruct (collect_auto_fills_spec _ _ _ _ _ _ Ha) as (_ & _ & q & Hq & Eq & Fq).
      exists q. split; [exact Hq|]. split; [congruence | exact Fq].
Qed.

Lemma chat_only_adds_entries_witness :
  exists r,
    App.chat Markup.answer (initial_session [Markup.signatory])
      = Some (r, Markup.answered) /\
    (forall k v, filled_values (initial_session [Markup.signatory]) !! k = Some v ->
                 filled_values Markup.answered !! k = Some v) /\
    (forall k v, filled_values (initial_session [Markup.signatory]) !! k = None ->
                 filled_values Markup.answered !! k = Some v ->
       exists q, In q (placeholders (initial_session [Markup.signatory])) /\
                 ident q = k /\
                 is_filled (filled_values (initial_session [Markup.signatory])) q = false).
Proof.
  unfold Markup.answered.
  destruct (App.chat Markup.answer (initial_session [Markup.signatory]))
    as [[r s']|] eqn:E.
  - exists r. split; [reflexivity|].
    exact (chat_only_adds_entries Markup.answer (initial_session [Markup.signatory])
             s' r E).
  - vm_compute in E. discriminate.
Defined.

(** ** Upload *)

Lemma get_stored (session_id now : string) (m : SessionManager.manager)
  (r : SessionManager.ref) :
  SessionManager.store_ok m -> session_id <> "history" ->
  SessionManager.dict_get session_id (SessionManager.fallback_store m)
    = Some (SessionManager.SSession r) ->
  exists d,
    SessionManager.heap m !! r = Some d /\
    SessionManager.get_session session_id now m =
      Some ({| SessionManager.heap :=
                 <[ r := {| SessionManager.sd_session := SessionManager.sd_session d;
                            SessionManager.sd_filename := SessionManager.sd_filename d;
                            SessionManager.sd_status := SessionManager.sd_status d;
                            SessionManager.sd_created_at := SessionManager.sd_created_at d;
                            SessionManager.sd_last_accessed_at := Some now;
                            SessionManager.sd_user_id := SessionManager.sd_user_id d |} ]>
                   (SessionManager.heap m);
               SessionManager.fallback_store := SessionManager.fallback_store m |},
            Some r).
Proof.
  intros Ok N Eg.
  pose proof (get_session_spec session_id now m Ok N) as Gs.
  rewrite Eg in Gs. destruct Gs as (r' & d & Er & Lr & E).
  injection Er as <-. exists d. auto.
Qed.

(** X24.  [upload_document] stores the session before it builds the
    greeting, and [get_greeting_message] reads [placeholders[0]]: for a
    document in which no placeholder was detected the upload is
    answered with 500, for any other with 200 and the greeting followed
    by the question for the first field.  In both cases the session is
    in the store afterwards: [get_session] under the id gives a new
    dictionary with the detected placeholders, no values and the
    pointer 0. *)
Theorem upload_without_fields_fails_after_saving :
  forall (question : placeholder -> nat -> nat -> string)
         (m : SessionManager.manager) (session_id filename : string)
         (ps : list placeholder) (user_id : option string)
         (t0 t1 t2 t3 t4 later : string),
    SessionManager.runs m -> session_id <> "history" ->
    exists m' r resp,
      Upload.upload_document question session_id filename ps user_id
        t0 t1 t2 t3 t4 m = Some (m', resp) /\
      (ps = [] -> resp = App.Err500) /\
      (forall p rest, ps = p :: rest ->
         exists body,
           resp = App.Ok200 body /\
           Upload.ur_placeholders body = ps /\
           Upload.ur_initial_message body =
             Upload.greeting (length ps) +:+ question p 0 (length ps)) /\
      SessionManager.runs m' /\
      SessionManager.heap m !! r = None /\
      exists m'' d,
        SessionManager.get_session session_id later m' = Some (m'', Some r) /\
        SessionManager.heap m'' !! r = Some d /\
        SessionManager.sd_session d = initial_session ps /\
        SessionManager.sd_filename d = filename.
Proof.
  intros question m session_id filename ps user_id t0 t1 t2 t3 t4 later R N.
  assert (En : String.eqb "history" session_id = false)
    by (apply String.eqb_neq; congruence).
  unfold Upload.upload_document.
  set (r := fresh (dom (SessionManager.heap m))).
  assert (Hr : SessionManager.heap m !! r = None).
  { apply not_elem_of_dom. apply is_fresh. }
  set (m0 := {| SessionManager.heap :=
                  <[ r := SessionManager.fresh t0 filename ps ]> (SessionManager.heap m);
                SessionManager.fallback_store := SessionManager.fallback_store m |}).
  assert (R0 : SessionManager.runs m0).
  { eapply SessionManager.runs_step; [exact R|].
    apply SessionManager.step_new. exact Hr. }
  assert (L0 : SessionManager.heap m0 !! r = Some (SessionManager.fresh t0 filename ps))
    by apply lookup_insert_eq.
  destruct (save_session_spec session_id r user_id t1 t2 m0 _
              (runs_store_ok _ R0) N L0)
    as (d1 & h & rest & Es & Ef & _ & _ & _ & _ & Ok1 & E1).
  rewrite E1.
  match type of E1 with _ = Some (?x, _) => set (m1 := x) in * end.
  assert (R1 : SessionManager.runs m1).
  { eapply SessionManager.runs_step; [exact R0|].
    eapply SessionManager.step_save. exact E1. }
  assert (G1 : SessionManager.dict_get session_id (SessionManager.fallback_store m1)
               = Some (SessionManager.SSession r)).
  { subst m1. cbn [SessionManager.fallback_store SessionManager.dict_get].
    rewrite En. apply dict_get_set_eq. }
  destruct (get_stored session_id t3 m1 r Ok1 N G1) as (d1' & L1 & E2).
  assert (Ed : d1' = d1).
  { subst m1. cbn [SessionManager.heap] in L1. rewrite lookup_insert_eq in L1.
    congruence. }
  subst d1'. rewrite E2.
  match type of E2 with _ = Some (?x, _) => set (m2 := x) in * end.
  assert (R2 : SessionManager.runs m2).
  { eapply SessionManager.runs_step; [exact R1|].
    eapply SessionManager.step_get. exact E2. }
  destruct (add_history_ok session_id "session_created"
              (SessionManager.HCreated filename (length ps) session_id user_id)
              t4 m2 (runs_store_ok _ R2) N)
    as (h2 & rest2 & _ & _ & _ & _ & G2 & E3).
  rewrite E3.
  match type of E3 with _ = Some ?x => set (m3 := x) in * end.
  assert (R3 : SessionManager.runs m3).
  { eapply SessionManager.runs_step; [exact R2|].
    eapply SessionManager.step_history. exact E3. }
  assert (G3 : SessionManager.dict_get session_id (SessionManager.fallback_store m3)
               = Some (SessionManager.SSession r)).
  { subst m3. cbn [SessionManager.fallback_store SessionManager.dict_get].
    rewrite En, <- (G2 _ N). exact G1. }
  destruct (get_stored session_id later m3 r (runs_store_ok _ R3) N G3)
    as (d3 & L3 & E4).
  assert (Ed3 : SessionManager.sd_session d3 = initial_session ps /\
                SessionManager.sd_filename d3 = filename).
  { subst m3 m2. cbn [SessionManager.heap] in L3. rewrite lookup_insert_eq in L3.
    injection L3 as <-. cbn [SessionManager.sd_session SessionManager.sd_filename].
    rewrite Es, Ef. split; reflexivity. }
  assert (T : exists m'' d,
             SessionManager.get_session session_id later m3 = Some (m'', Some r) /\
             SessionManager.heap m'' !! r = Some d /\
             SessionManager.sd_session d = initial_session ps /\
             SessionManager.sd_filename d = filename).
  { eexists _, _. split; [exact E4|]. split; [apply lookup_insert_eq|]. exact Ed3. }
  clearbody m3. clear - R3 Hr T.
  exists m3, r. unfold Upload.get_greeting_message.
  destruct ps as [|p0 rest0].
  - exists App.Err500. split; [reflexivity|]. split; [reflexivity|].
    split; [intros p rest' [=]|]. auto.
  - eexists (App.Ok200 _). split; [reflexivity|]. split; [discriminate|].
    split; [|auto].
    intros p rest' [= <- <-]. eexists. split; [reflexivity|]. split; reflexivity.
Qed.

Lemma upload_without_fields_fails_after_saving_witness :
  SessionManager.runs SessionManager.empty /\
  exists m' r resp,
    Upload.upload_document (fun _ _ _ => "What is the name?") "0b9e6a52" "nda.docx"
      [] None "2025-11-01T11:44:52" "2025-11-01T11:44:53" "2025-11-01T11:44:54"
      "2025-11-01T11:44:55" "2025-11-01T11:44:56" SessionManager.empty
      = Some (m', resp) /\
    (@nil placeholder = [] -> resp = App.Err500) /\
    (forall p rest, @nil placeholder = p :: rest ->
       exists body,
         resp = App.Ok200 body /\
         Upload.ur_placeholders body = [] /\
         Upload.ur_initial_message body =
           Upload.greeting (length (@nil placeholder)) +:+
           "What is the name?") /\
    SessionManager.runs m' /\
    SessionManager.heap SessionManager.empty !! r = None /\
    exists m'' d,
      SessionManager.get_session "0b9e6a52" "2025-11-01T11:45:00" m'
        = Some (m'', Some r) /\
      SessionManager.heap m'' !! r = Some d /\
      SessionManager.sd_session d = initial_session [] /\
      SessionManager.sd_filename d = "nda.docx".
Proof.
  split; [exact SessionManager.runs_empty|].
  apply (upload_without_fields_fails_after_saving (fun _ _ _ => "What is the name?")
           SessionManager.empty "0b9e6a52" "nda.docx" [] None
           "2025-11-01T11:44:52" "2025-11-01T11:44:53" "2025-11-01T11:44:54"
           "2025-11-01T11:44:55" "2025-11-01T11:44:56" "2025-11-01T11:45:00"
           SessionManager.runs_empty).
  discriminate.
Defined.
